(** * The dashboard front end ([static/js/main.js]) as a Rocq model

    The script is event-driven glue: a handful of mutable bindings, calls
    into the browser, Firebase and the Flask back end, and handlers that
    the browser invokes.  The model keeps that shape:

    - JSON-like values the script receives are [JValue]s;
    - the script's bindings and the pieces of browser state it reads back
      live in a [Store];
    - the outside world (server, Firebase, clock, DOM, user input) is an
      [Env] of oracles indexed by a tick that advances at every question;
    - everything observable the script does is appended to a trace of
      [Effect]s;
    - an [async] function is a computation in the monad [M] (state plus
      exceptions); [await] is sequencing, a rejected promise is [Throw].

    Each handler is run to completion in one piece: interleavings of two
    handlers at an [await] are not represented. *)

From Stdlib Require Import Ascii String ZArith List Bool Lia.
From stdpp Require Import base decidable gmap strings pretty.
Import ListNotations.
Open Scope string_scope.
Open Scope Z_scope.

(** ** JavaScript values *)

Module JS.

(** Values as [JSON.parse], Socket.IO and the Realtime Database hand
    them to the script.  Objects keep their key order, which
    [Object.values] and [Object.entries] expose.  Numbers are integers
    here: the script only asks whether one is zero or positive. *)
#[warnings="-register-all"] Inductive JValue : Type :=
| JUndefined
| JNull
| JBool (b : bool)
| JNum (n : Z)
| JStr (s : string)
| JArr (elems : list JValue)
| JObj (fields : list (string * JValue)).

(** [!!v] *)
Definition truthy (v : JValue) : bool :=
  match v with
  | JUndefined | JNull => false
  | JBool b => b
  | JNum n => negb (n =? 0)
  | JStr s => negb (String.eqb s "")
  | JArr _ | JObj _ => true
  end.

(** [a || b] *)
Definition or_else (a b : JValue) : JValue := if truthy a then a else b.

(** [a ?? b] *)
Definition nullish (a b : JValue) : JValue :=
  match a with JUndefined | JNull => b | _ => a end.

Fixpoint assoc (k : string) (fields : list (string * JValue)) : JValue :=
  match fields with
  | [] => JUndefined
  | (k', v) :: rest => if String.eqb k k' then v else assoc k rest
  end.

(** [v.k] for a [v] that is neither [null] nor [undefined]; primitives
    and arrays have none of the property names the script asks for. *)
Definition prop (v : JValue) (k : string) : JValue :=
  match v with
  | JObj fields => assoc k fields
  | _ => JUndefined
  end.

(** [v === 'lit'] *)
Definition is_str (v : JValue) (lit : string) : bool :=
  match v with JStr s => String.eqb s lit | _ => false end.

Definition isArray (v : JValue) : bool :=
  match v with JArr _ => true | _ => false end.

Definition elements (v : JValue) : list JValue :=
  match v with JArr l => l | _ => [] end.

Fixpoint chars (s : string) : list JValue :=
  match s with
  | EmptyString => []
  | String c rest => JStr (String c EmptyString) :: chars rest
  end.

(** [Object.values(v)] for a [v] that is neither [null] nor
    [undefined] *)
Definition values (v : JValue) : list JValue :=
  match v with
  | JObj fields => map snd fields
  | JArr l => l
  | JStr s => chars s
  | _ => []
  end.

(** [Object.entries(v)], same proviso; indices are the keys of arrays
    and strings *)
Definition entries (v : JValue) : list (string * JValue) :=
  match v with
  | JObj fields => fields
  | JArr l => imap (fun i x => (pretty i, x)) l
  | JStr s => imap (fun i x => (pretty i, x)) (chars s)
  | _ => []
  end.

(** [v[0]], same proviso *)
Definition first (v : JValue) : JValue :=
  match v with
  | JArr l => hd JUndefined l
  | JStr s => hd JUndefined (chars s)
  | JObj fields => assoc "0" fields
  | _ => JUndefined
  end.

End JS.
Export JS.

(** ** Errors, effects, the store *)

(** A thrown value; the script only ever reads [.message]. *)
Record JsError : Type := Err { message : string }.

Definition TypeError : JsError := Err "TypeError".

Inductive Outcome (A : Type) : Type :=
| Ok (a : A)
| Throw (e : JsError).
Arguments Ok {A} a.
Arguments Throw {A} e.

Record User : Type := mkUser { uid : string; email : string }.

(** Closures the script hands to [setInterval] / [setTimeout]. *)
Inductive Callback : Type :=
| CheckAndSwap                (* attachLiveVideo: checkAndSwap *)
| AdminStatusPoll             (* renderAdminDashboard: the interval body *)
| PersonnelStatusPoll         (* renderPersonnelDashboard: the interval body *)
| SendFrame (video : string). (* startBrowserCamera: sendFrame *)

Inductive ConsoleLevel : Type := LogLevel | ErrorLevel | DebugLevel.

(** The second argument of [fetch] as [api] builds it. *)
Record RequestInit : Type := mkInit {
  method : option string;
  body : option JValue;        (* the value given to [JSON.stringify] *)
  authorization : string
}.

Inductive Effect : Type :=
| EAlert (msg : string)
| EConsole (lvl : ConsoleLevel) (args : list JValue)
| EFetch (path : string) (init : RequestInit)
| EBeacon (path : string) (data : JValue)
| ERtdbGet (path : string)
| ERtdbSet (path : string) (v : JValue)
| ERtdbRemove (path : string)
| ERtdbOnDisconnectRemove (path : string)
| ESignIn (email password : string)
| ESignOut
| EReauthenticate (email password : string)
| EUpdatePassword (password : string)
| EGetUserMedia
| ESetInterval (id : nat) (cb : Callback) (ms : Z)
| EClearInterval (id : nat)
| ESetTimeout (cb : Callback) (ms : Z)
| ESirenPlay (now : Z)          (* [sirenEl.play()], with the clock reading of that call *)
| ESetHash (h : string)
| EImgSrc (src : string)
| ERender (tpl : string)
| EDom (op : string) (args : list JValue).

(** An active interval of the browser. *)
Record Timer : Type := mkTimer { timer_id : nat; timer_cb : Callback; timer_ms : Z }.

Record Store : Type := mkStore {
  (* the script's [let] bindings *)
  idToken : option string;
  currentUser : option User;
  currentRole : JValue;
  adminPresenceRef : option string;   (* the path of the ref *)
  pageIntervals : list nat;
  lastSirenAt : Z;
  (* browser and Firebase state the script reads back *)
  location_hash : string;
  auth_currentUser : option User;     (* [auth.currentUser] *)
  img_src : string;                   (* [imgEl.src] of the live picture *)
  img_live : option string;           (* [imgEl.dataset.live] *)
  timers : list Timer;
  next_timer : nat;
  (* bookkeeping of the model *)
  tick : nat;
  trace : list Effect
}.

Definition set_idToken v s := mkStore v (currentUser s) (currentRole s) (adminPresenceRef s) (pageIntervals s) (lastSirenAt s) (location_hash s) (auth_currentUser s) (img_src s) (img_live s) (timers s) (next_timer s) (tick s) (trace s).
Definition set_currentUser v s := mkStore (idToken s) v (currentRole s) (adminPresenceRef s) (pageIntervals s) (lastSirenAt s) (location_hash s) (auth_currentUser s) (img_src s) (img_live s) (timers s) (next_timer s) (tick s) (trace s).
Definition set_currentRole v s := mkStore (idToken s) (currentUser s) v (adminPresenceRef s) (pageIntervals s) (lastSirenAt s) (location_hash s) (auth_currentUser s) (img_src s) (img_live s) (timers s) (next_timer s) (tick s) (trace s).
Definition set_adminPresenceRef v s := mkStore (idToken s) (currentUser s) (currentRole s) v (pageIntervals s) (lastSirenAt s) (location_hash s) (auth_currentUser s) (img_src s) (img_live s) (timers s) (next_timer s) (tick s) (trace s).
Definition set_pageIntervals v s := mkStore (idToken s) (currentUser s) (currentRole s) (adminPresenceRef s) v (lastSirenAt s) (location_hash s) (auth_currentUser s) (img_src s) (img_live s) (timers s) (next_timer s) (tick s) (trace s).
Definition set_lastSirenAt v s := mkStore (idToken s) (currentUser s) (currentRole s) (adminPresenceRef s) (pageIntervals s) v (location_hash s) (auth_currentUser s) (img_src s) (img_live s) (timers s) (next_timer s) (tick s) (trace s).
Definition set_location_hash v s := mkStore (idToken s) (currentUser s) (currentRole s) (adminPresenceRef s) (pageIntervals s) (lastSirenAt s) v (auth_currentUser s) (img_src s) (img_live s) (timers s) (next_timer s) (tick s) (trace s).
Definition set_auth_currentUser v s := mkStore (idToken s) (currentUser s) (currentRole s) (adminPresenceRef s) (pageIntervals s) (lastSirenAt s) (location_hash s) v (img_src s) (img_live s) (timers s) (next_timer s) (tick s) (trace s).
Definition set_img v w s := mkStore (idToken s) (currentUser s) (currentRole s) (adminPresenceRef s) (pageIntervals s) (lastSirenAt s) (location_hash s) (auth_currentUser s) v w (timers s) (next_timer s) (tick s) (trace s).
Definition set_timers v n s := mkStore (idToken s) (currentUser s) (currentRole s) (adminPresenceRef s) (pageIntervals s) (lastSirenAt s) (location_hash s) (auth_currentUser s) (img_src s) (img_live s) v n (tick s) (trace s).
Definition set_tick v s := mkStore (idToken s) (currentUser s) (currentRole s) (adminPresenceRef s) (pageIntervals s) (lastSirenAt s) (location_hash s) (auth_currentUser s) (img_src s) (img_live s) (timers s) (next_timer s) v (trace s).
Definition set_trace v s := mkStore (idToken s) (currentUser s) (currentRole s) (adminPresenceRef s) (pageIntervals s) (lastSirenAt s) (location_hash s) (auth_currentUser s) (img_src s) (img_live s) (timers s) (next_timer s) (tick s) v.

(** The bindings as the script initialises them (main.js:18-26, 44), on a
    page opened at [hash]. *)
Definition initial_store (hash : string) : Store :=
  mkStore None None JNull None [] 0 hash None "" None [] 0%nat 0%nat [].

(** ** The monad of handlers *)

Definition M (A : Type) : Type := Store -> Outcome A * Store.

Definition ret {A} (a : A) : M A := fun s => (Ok a, s).

Definition bind {A B} (m : M A) (f : A -> M B) : M B :=
  fun s => match m s with
           | (Ok a, s') => f a s'
           | (Throw e, s') => (Throw e, s')
           end.

Definition throw {A} (e : JsError) : M A := fun s => (Throw e, s).

(** [try { m } catch (err) { h err }] *)
Definition try_catch {A} (m : M A) (h : JsError -> M A) : M A :=
  fun s => match m s with
           | (Ok a, s') => (Ok a, s')
           | (Throw e, s') => h e s'
           end.

(** [try { m } finally { f }] *)
Definition finally {A} (m : M A) (f : M unit) : M A :=
  fun s => match m s with
           | (r, s') => match f s' with
                        | (Ok _, s'') => (r, s'')
                        | (Throw e, s'') => (Throw e, s'')
                        end
           end.

Declare Scope js_scope.
Delimit Scope js_scope with js.
Notation "x <- m ;; k" := (bind m (fun x => k))
  (at level 100, m at next level, right associativity) : js_scope.
Notation "m ;;; k" := (bind m (fun _ => k))
  (at level 100, right associativity) : js_scope.
Open Scope js_scope.

Definition gets {A} (f : Store -> A) : M A := fun s => (Ok (f s), s).
Definition modify (f : Store -> Store) : M unit := fun s => (Ok tt, f s).
Definition emit (e : Effect) : M unit := modify (fun s => set_trace (trace s ++ [e]) s).

(** Ask the outside world: the answer depends on how many questions were
    asked before. *)
Definition ask {A} (f : nat -> A) : M A :=
  fun s => (Ok (f (tick s)), set_tick (S (tick s)) s).

(** A promise of the outside world: resolves or rejects. *)
Definition await {A} (f : nat -> Outcome A) : M A :=
  fun s => (f (tick s), set_tick (S (tick s)) s).

Fixpoint forEach {A} (l : list A) (f : A -> M unit) : M unit :=
  match l with
  | [] => ret tt
  | x :: rest => f x ;;; forEach rest f
  end.

Definition run {A} (m : M A) (s : Store) : Store := snd (m s).
Definition result {A} (m : M A) (s : Store) : Outcome A := fst (m s).

(** [f()] on an [async f] without [await]: a rejection stays in the
    promise nobody looks at. *)
Definition no_await (m : M unit) : M unit := try_catch m (fun _ => ret tt).

(** ** The outside world *)

(** What [fetch] resolves to. *)
Record Response : Type := mkResponse {
  ok : bool;
  status : nat;
  text : Outcome string;      (* [res.text()] *)
  json : Outcome JValue       (* [res.json()] *)
}.

(** [index.html] is not among the sources.  Elements the script
    dereferences without a guard ([content], the sidebar in [route], the
    templates and their forms) are taken to exist; elements it guards are
    optional, and whether they exist is part of the environment. *)
Record Env : Type := mkEnv {
  sirenEl : bool;
  loaderEl : bool;
  menuToggleBtn : bool;
  cursorGlow : bool;
  sidebar_links : list (option string);         (* [a.dataset.role] of each link *)
  env_element : nat -> string -> bool;          (* the element is on the page *)
  env_value : nat -> string -> string;          (* [.value] of an input *)
  Date_now : nat -> Z;
  env_Number : JValue -> option Z;              (* [Number(v)]; [None] is NaN *)
  env_getIdToken : nat -> Outcome string;
  env_fetch : nat -> string -> RequestInit -> Outcome Response;
  env_rtdb_get : nat -> string -> Outcome JValue;  (* [snap.val()], [null] when nothing is stored *)
  env_rtdb_set : nat -> string -> Outcome unit;
  env_rtdb_remove : nat -> string -> Outcome unit;
  env_signIn : nat -> string -> string -> Outcome unit;
  env_signOut : nat -> Outcome unit;
  env_reauthenticate : nat -> Outcome unit;
  env_updatePassword : nat -> Outcome unit;
  env_getUserMedia : nat -> Outcome unit;
  env_frame_ready : nat -> bool;                (* [readyState === HAVE_ENOUGH_DATA] *)
  env_toDataURL : nat -> string
}.

(** main.js:41 *)
Definition HIGH_LABELS : gset string :=
  list_to_set ["weapons"; "weapon"; "other_coverings"; "otherCoverings"; "other_Coverings"].

(** [HIGH_LABELS.has(v)]: only a string can be in the set. *)
Definition HIGH_LABELS_has (v : JValue) : bool :=
  match v with
  | JStr s => bool_decide (s ∈ HIGH_LABELS)
  | _ => false
  end.

(** main.js:45 *)
Definition SIREN_COOLDOWN_MS : Z := 3000.

Definition PLACEHOLDER_SRC : string := "/static/placeholder.jpg".

(** main.js:38 *)
Definition socket_namespace : string := "/stream".

Record Options : Type := mkOptions { opt_method : option string; opt_body : option JValue }.
Definition GET : Options := mkOptions None None.
Definition POST (b : option JValue) : Options := mkOptions (Some "POST") b.

(** An [Error] object as the console shows it. *)
Definition err_value (e : JsError) : JValue := JObj [("message", JStr (message e))].

(** [v.k] where the script does not guard [v] *)
Definition getProp (v : JValue) (k : string) : M JValue :=
  match v with
  | JUndefined | JNull => throw TypeError
  | _ => ret (prop v k)
  end.

Definition alert (msg : string) : M unit := emit (EAlert msg).
Definition console_log (args : list JValue) : M unit := emit (EConsole LogLevel args).
Definition console_error (args : list JValue) : M unit := emit (EConsole ErrorLevel args).
Definition console_debug (args : list JValue) : M unit := emit (EConsole DebugLevel args).

Definition setInterval (cb : Callback) (ms : Z) : M nat :=
  id <- gets next_timer ;;
  modify (fun s => set_timers (timers s ++ [mkTimer id cb ms]) (S id) s) ;;;
  emit (ESetInterval id cb ms) ;;;
  ret id.

Definition clearInterval (id : nat) : M unit :=
  modify (fun s => set_timers (List.filter (fun t => negb (Nat.eqb (timer_id t) id)) (timers s))
                              (next_timer s) s) ;;;
  emit (EClearInterval id).

Definition setTimeout (cb : Callback) (ms : Z) : M unit := emit (ESetTimeout cb ms).

Definition set_location_hash' (h : string) : M unit :=
  modify (set_location_hash h) ;;; emit (ESetHash h).

Definition imgEl_src (src : string) : M unit :=
  modify (fun s => set_img src (img_live s) s) ;;; emit (EImgSrc src).

Definition imgEl_live (v : string) : M unit :=
  modify (fun s => set_img (img_src s) (Some v) s).

(** main.js:27-35 *)
Definition addInterval (cb : Callback) (ms : Z) : M nat :=
  id <- setInterval cb ms ;;
  modify (fun s => set_pageIntervals (pageIntervals s ++ [id]) s) ;;;
  ret id.

Definition clearPageIntervals : M unit :=
  ids <- gets pageIntervals ;;
  forEach ids clearInterval ;;;
  modify (set_pageIntervals []).

(** ** The script *)

Section Script.

Variable env : Env.

Definition getElementById (id : string) : M bool := ask (fun n => env_element env n id).
Definition input_value (id : string) : M string := ask (fun n => env_value env n id).
Definition dom (op : string) (args : list JValue) : M unit := emit (EDom op args).

Definition rtdb_get (path : string) : M JValue :=
  emit (ERtdbGet path) ;;; await (fun n => env_rtdb_get env n path).
Definition rtdb_set (path : string) (v : JValue) : M unit :=
  emit (ERtdbSet path v) ;;; await (fun n => env_rtdb_set env n path).
Definition rtdb_remove (path : string) : M unit :=
  emit (ERtdbRemove path) ;;; await (fun n => env_rtdb_remove env n path).

(** main.js:47-67 *)
Definition isHigh (payload : JValue) : bool :=
  if truthy payload && truthy (prop payload "label") && HIGH_LABELS_has (prop payload "label")
  then true
  else if truthy payload && isArray (prop payload "detections")
  then existsb (fun d => truthy d && truthy (prop d "label") && HIGH_LABELS_has (prop d "label"))
               (elements (prop payload "detections"))
  else false.

Definition maybePlaySiren (payload : JValue) : M unit :=
  if negb (sirenEl env) then ret tt else
  if negb (isHigh payload) then ret tt else
  now <- ask (Date_now env) ;;
  last <- gets lastSirenAt ;;
  if now - last <? SIREN_COOLDOWN_MS then ret tt else
  modify (set_lastSirenAt now) ;;;
  (* [sirenEl.play().catch(() => {})] inside [try {} catch (_) {}] *)
  try_catch (emit (ESirenPlay now)) (fun _ => ret tt).

(** main.js:88-100 *)
Definition showLoader (show : bool) : M unit :=
  if loaderEl env then dom "loader.hidden" [JBool (negb show)] else ret tt.

Definition setSidebarVisible (vis : bool) : M unit :=
  dom "sidebar.hidden" [JBool (negb vis)] ;;;
  if negb vis then
    dom "sidebar.open" [JBool false] ;;;
    (if menuToggleBtn env then dom "menuToggle.open" [JBool false] else ret tt)
  else ret tt.

Definition setMenuToggleVisible (vis : bool) : M unit :=
  if menuToggleBtn env then dom "menuToggle.hidden" [JBool (negb vis)] else ret tt.

(** main.js:103-120 *)
Definition showLogin : M unit :=
  clearPageIntervals ;;;
  setSidebarVisible false ;;;
  setMenuToggleVisible false ;;;
  emit (ERender "loginTpl").

(** The submit listener of [loginForm], main.js:109-119. *)
Definition loginSubmit : M unit :=
  showLoader true ;;;
  finally
    (try_catch
       (email <- input_value "email" ;;
        password <- input_value "password" ;;
        emit (ESignIn email password) ;;;
        await (fun n => env_signIn env n email password))
       (fun err => alert (message err)))
    (showLoader false).

(** main.js:122-126 *)
Definition resolveRole (uid : string) : M JValue :=
  snap <- rtdb_get ("/users/" +:+ uid) ;;
  let data := or_else snap (JObj []) in
  ret (or_else (prop data "role") (JStr "personnel")).

(** main.js:129-133 *)
Definition refreshIdToken : M (option string) :=
  u <- gets auth_currentUser ;;
  match u with
  | None => ret None
  | Some _ =>
      t <- await (env_getIdToken env) ;;
      modify (set_idToken (Some t)) ;;;
      ret (Some t)
  end.

(** ['Bearer ' + token] *)
Definition bearer (token : option string) : string :=
  "Bearer " +:+ match token with Some t => t | None => "null" end.

(** [throw new Error(text || ('HTTP ' + res.status))] after
    [res.text().catch(() => String(res.status))] *)
Definition error_message (res : Response) : string :=
  let text := match text res with Ok t => t | Throw _ => pretty (status res) end in
  if String.eqb text "" then "HTTP " +:+ pretty (status res) else text.

(** main.js:135-151 *)
Definition api (path : string) (options : Options) : M JValue :=
  token <- refreshIdToken ;;
  let init := mkInit (opt_method options) (opt_body options) (bearer token) in
  emit (EFetch path init) ;;;
  res <- await (fun n => env_fetch env n path init) ;;
  if negb (ok res) then throw (Err (error_message res))
  else match json res with
       | Ok v => ret v
       | Throw e => throw e
       end.

(** *** The live picture, main.js:253-284 *)

Definition LIVE_SRC : M string :=
  now <- ask (Date_now env) ;;
  ret ("/api/video_feed?ts=" +:+ pretty now).

Definition gt0 (n : option Z) : bool := match n with Some z => 0 <? z | None => false end.
Definition eq0 (n : option Z) : bool := match n with Some z => z =? 0 | None => false end.
Definition live_is (l : option string) (v : string) : bool :=
  match l with Some x => String.eqb x v | None => false end.

Definition checkAndSwap : M unit :=
  try_catch
    (data <- api "/api/status" GET ;;
     camerasActive <- getProp data "camerasActive" ;;
     let active := env_Number env (or_else camerasActive (JNum 0)) in
     live <- gets img_live ;;
     if gt0 active && negb (live_is live "1") then
       src <- LIVE_SRC ;;
       imgEl_src src ;;;
       imgEl_live "1"
     else if eq0 active && negb (live_is live "0") then
       imgEl_src PLACEHOLDER_SRC ;;;
       imgEl_live "0"
     else ret tt)
    (fun e => console_debug [JStr "status poll failed";
                             or_else (JStr (message e)) (err_value e)]).

Definition attachLiveVideo (imgEl : bool) : M unit :=
  if negb imgEl then ret tt else
  imgEl_src PLACEHOLDER_SRC ;;;
  imgEl_live "0" ;;;
  no_await checkAndSwap ;;;
  _ <- addInterval CheckAndSwap 2000 ;;
  ret tt.

(** [imgEl.onerror], main.js:278-283 *)
Definition imgOnError : M unit :=
  live <- gets img_live ;;
  if live_is live "1" then
    imgEl_src PLACEHOLDER_SRC ;;;
    imgEl_live "0"
  else ret tt.

(** *** Browser webcam upload, main.js:287-320 *)

Definition sendFrame (video : string) : M unit :=
  ready <- ask (env_frame_ready env) ;;
  (if ready then
     b64 <- ask (env_toDataURL env) ;;
     try_catch
       (res <- api "/api/upload_frame" (POST (Some (JObj [("frame", JStr b64)]))) ;;
        maybePlaySiren res)
       (fun err => console_error [JStr "upload_frame failed"; JStr (message err)])
   else ret tt) ;;;
  setTimeout (SendFrame video) 1000.

Definition startBrowserCamera (video : string) : M unit :=
  try_catch
    (emit EGetUserMedia ;;;
     await (env_getUserMedia env) ;;;
     dom "video.play" [JStr video] ;;;
     no_await (sendFrame video))
    (fun err => console_error [JStr "Could not access webcam:"; err_value err]).

(** *** Pages, main.js:323-534 *)

(** main.js:362-367 *)
Definition setPill (id : string) (text level : JValue) : M unit :=
  el <- getElementById id ;;
  if negb el then ret tt else
  dom "pill" [JStr id; text; JStr ("pill " +:+ (if is_str level "high" then "high" else "low"))].

(** main.js:351-360.  [slice] and [forEach] exist on arrays only. *)
Definition renderAlertsToday (containerId : string) (items : JValue) : M unit :=
  el <- getElementById containerId ;;
  if negb el then ret tt else
  dom "clear" [JStr containerId] ;;;
  match or_else items (JArr []) with
  | JArr l =>
      forEach (firstn 3 l) (fun i =>
        label <- getProp i "label" ;;
        dom "li" [JStr containerId;
                  nullish (nullish label (prop i "name")) (JStr "event");
                  prop i "camera";
                  nullish (nullish (prop i "conf") (prop i "confidence")) (JStr "-")])
  | _ => throw TypeError
  end.

(** The four statements that paint a status record; they are written
    out at main.js:329-332, 337-340, 372-375 and 380-383.  Reading a
    field of [null] throws.  The camera count is shown through
    [String(...)]; the effect keeps the value itself. *)
Definition paintStatus (prefix : string) (data : JValue) : M unit :=
  status <- getProp data "status" ;;
  let threatLevel := prop data "threatLevel" in
  let camerasActive := prop data "camerasActive" in
  let alertsToday := prop data "alertsToday" in
  setPill (prefix +:+ "statusText")
          (JStr (if truthy status then "running" else "offline"))
          (JStr (if truthy status then "low" else "high")) ;;;
  setPill (prefix +:+ "threatText") threatLevel threatLevel ;;;
  setPill (prefix +:+ "cameraCount") camerasActive (JStr "low") ;;;
  renderAlertsToday (prefix +:+ "alertsToday") alertsToday.

(** The interval body of [renderAdminDashboard], main.js:334-342 *)
Definition adminStatusPoll : M unit :=
  try_catch
    (data <- api "/api/status" GET ;;
     paintStatus "" data)
    (fun e => ret tt).

(** The interval body of [renderPersonnelDashboard], main.js:377-385 *)
Definition personnelStatusPoll : M unit :=
  try_catch
    (data <- api "/api/status" GET ;;
     paintStatus "p_" data)
    (fun e => ret tt).

(** main.js:323-349 *)
Definition renderAdminDashboard : M unit :=
  emit (ERender "adminDashboardTpl") ;;;
  videoEl <- getElementById "videoStream" ;;
  (if videoEl then attachLiveVideo videoEl else ret tt) ;;;
  data <- api "/api/status" GET ;;
  paintStatus "" data ;;;
  _ <- addInterval AdminStatusPoll 2000 ;;
  browserCamEl <- getElementById "browserCam" ;;
  if browserCamEl then no_await (startBrowserCamera "browserCam") else ret tt.

(** main.js:369-392 *)
Definition renderPersonnelDashboard : M unit :=
  emit (ERender "personnelDashboardTpl") ;;;
  data <- api "/api/status" GET ;;
  paintStatus "p_" data ;;;
  _ <- addInterval PersonnelStatusPoll 2000 ;;
  browserCamEl <- getElementById "p_browserCam" ;;
  if browserCamEl then no_await (startBrowserCamera "p_browserCam") else ret tt.

(** main.js:394-396 *)
Definition renderAdminAlerts : M unit := emit (ERender "adminAlertsTpl").

(** main.js:398-429.  [map] exists on arrays only. *)
Definition renderPending (payload : JValue) : M unit :=
  list <- getElementById "pendingList" ;;
  if negb list then ret tt else
  time <- getProp payload "time" ;;
  match prop payload "detections" with
  | JArr ds =>
      forEach ds (fun d => _ <- getProp d "label" ;; ret tt) ;;;
      dom "pending.prepend" [time; prop payload "camera"; JArr ds; prop payload "threatLevel"]
  | _ => throw TypeError
  end.

(** The request body of the two buttons, main.js:415 and 422 *)
Definition resolve_body (action : string) (payload label : JValue) : JValue :=
  JObj [("action", JStr action);
        ("detection", JObj [("label", label);
                            ("time", prop payload "time");
                            ("camera", prop payload "camera");
                            ("threatLevel", prop payload "threatLevel")])].

(** [btnV.onclick] and [btnD.onclick], main.js:412-425 *)
Definition resolveClick (action : string) (payload : JValue) : M unit :=
  detections <- getProp payload "detections" ;;
  d0 <- match detections with
        | JUndefined | JNull => throw TypeError
        | _ => ret (first detections)
        end ;;
  label <- getProp d0 "label" ;;
  _ <- api "/api/alerts/resolve" (POST (Some (resolve_body action payload label))) ;;
  dom "pending.remove" [].

(** main.js:431-444 *)
Definition renderAdminActivity : M unit :=
  emit (ERender "adminActivityTpl") ;;;
  snap <- rtdb_get "/detections" ;;
  let data := or_else snap (JObj []) in
  let rows := values data in
  tbody <- getElementById "activityTable tbody" ;;
  if negb tbody then ret tt else
  dom "clear" [JStr "activityTable tbody"] ;;;
  forEach rows (fun r =>
    name <- getProp r "name" ;;
    dom "tr" [name; prop r "time"; prop r "camera"; prop r "threatLevel"; prop r "status"]).

(** [refresh] of [renderAdminCameras], main.js:448-459 *)
Definition refresh : M unit :=
  cams <- api "/api/cameras" GET ;;
  list <- getElementById "cameraList" ;;
  if negb list then ret tt else
  dom "clear" [JStr "cameraList"] ;;;
  match cams with
  | JUndefined | JNull => throw TypeError
  | _ =>
      forEach (entries cams) (fun '(id, c) =>
        name <- getProp c "name" ;;
        dom "camera" [name; prop c "source";
                      JStr (if truthy (prop c "active") then "active" else "inactive")])
  end.

(** main.js:446-469 *)
Definition renderAdminCameras : M unit :=
  emit (ERender "adminCamerasTpl") ;;;
  refresh.

(** The submit listener of [addCameraForm], main.js:462-468 *)
Definition addCameraSubmit : M unit :=
  name <- input_value "camName" ;;
  src <- input_value "camSrc" ;;
  let source := match env_Number env (JStr src) with
                | None => JStr src
                | Some n => JNum n
                end in
  _ <- api "/api/cameras" (POST (Some (JObj [("name", JStr name); ("source", source)]))) ;;
  refresh.

(** The submit listeners of [langForm] and [p_langForm],
    main.js:474-479 and 512-517 *)
Definition langSubmit (inputId : string) : M unit :=
  language <- input_value inputId ;;
  _ <- api "/api/user_language" (POST (Some (JObj [("language", JStr language)]))) ;;
  alert "Language saved".

(** The submit listener of [addUserForm], main.js:481-490 *)
Definition addUserSubmit : M unit :=
  name <- input_value "newName" ;;
  email <- input_value "newEmail" ;;
  password <- input_value "newPassword" ;;
  role <- input_value "newRole" ;;
  _ <- api "/api/add_user"
         (POST (Some (JObj [("name", JStr name); ("email", JStr email);
                            ("password", JStr password); ("role", JStr role)]))) ;;
  alert "User created" ;;;
  dom "form.reset" [].

(** The submit listeners of [adminPwForm] and [p_pwForm],
    main.js:493-506 and 520-533 *)
Definition pwSubmit (oldId newId : string) : M unit :=
  oldPw <- input_value oldId ;;
  newPw <- input_value newId ;;
  try_catch
    (u <- gets auth_currentUser ;;
     match u with
     | None => throw TypeError
     | Some u =>
         emit (EReauthenticate (email u) oldPw) ;;;
         await (env_reauthenticate env) ;;;
         emit (EUpdatePassword newPw) ;;;
         await (env_updatePassword env) ;;;
         alert "Password updated successfully" ;;;
         dom "form.reset" []
     end)
    (fun err => alert ("Error updating password: " +:+ message err)).

(** main.js:471-507 and 509-534: the listeners above are attached *)
Definition renderAdminSettings : M unit := emit (ERender "adminSettingsTpl").
Definition renderPersonnelSettings : M unit := emit (ERender "personnelSettingsTpl").

(** *** Routing and authentication state, main.js:153-250 *)

(** A sidebar link is shown when it carries no role or the current one. *)
Definition link_shown (allowed : option string) (role : JValue) : bool :=
  match allowed with
  | None => true
  | Some a => String.eqb a "" || is_str role a
  end.

(** main.js:229-250 *)
Definition route : M unit :=
  clearPageIntervals ;;;
  h <- gets location_hash ;;
  let hash := if String.eqb h "" then "#/login" else h in
  user <- gets currentUser ;;
  match user with
  | None => showLogin
  | Some _ =>
      role <- gets currentRole ;;
      forEach (sidebar_links env) (fun allowed =>
        dom "link.display" [JStr (if link_shown allowed role then "block" else "none")]) ;;;
      if String.eqb hash "#/admin/dashboard" && is_str role "admin" then renderAdminDashboard
      else if String.eqb hash "#/admin/alerts" && is_str role "admin" then renderAdminAlerts
      else if String.eqb hash "#/admin/activity" && is_str role "admin" then renderAdminActivity
      else if String.eqb hash "#/admin/cameras" && is_str role "admin" then renderAdminCameras
      else if String.eqb hash "#/admin/settings" && is_str role "admin" then renderAdminSettings
      else if String.eqb hash "#/personnel/dashboard" && is_str role "personnel"
           then renderPersonnelDashboard
      else if String.eqb hash "#/personnel/settings" && is_str role "personnel"
           then renderPersonnelSettings
      else set_location_hash' (if is_str role "admin" then "#/admin/dashboard"
                               else "#/personnel/dashboard")
  end.

(** [if (adminPresenceRef) { await adminPresenceRef.remove();
    adminPresenceRef = null; }], main.js:159-162, 193-196, 218-221 *)
Definition removePresence : M unit :=
  r <- gets adminPresenceRef ;;
  match r with
  | Some p => rtdb_remove p ;;; modify (set_adminPresenceRef None)
  | None => ret tt
  end.

(** main.js:177-182 *)
Definition startCameras : M unit :=
  try_catch
    (_ <- api "/api/start_cameras" (POST None) ;;
     console_log [JStr "Cameras started"])
    (fun err => console_error [JStr "Could not start cameras:"; err_value err]).

(** main.js:199-204 *)
Definition stopCameras : M unit :=
  try_catch
    (_ <- api "/api/stop_cameras" (POST None) ;;
     console_log [JStr "Cameras stopped (last admin logged out)"])
    (fun err => console_error [JStr "Could not stop cameras:"; err_value err]).

(** The callback given to [auth.onAuthStateChanged], main.js:156-188 *)
Definition onAuthStateChanged (user : option User) : M unit :=
  match user with
  | None =>
      try_catch removePresence (fun _ => ret tt) ;;;
      modify (set_currentUser None) ;;;
      modify (set_currentRole JNull) ;;;
      showLogin
  | Some u =>
      modify (set_currentUser (Some u)) ;;;
      role <- resolveRole (uid u) ;;
      modify (set_currentRole role) ;;;
      (if is_str role "admin" then
         let p := "/activeAdmins/" +:+ uid u in
         modify (set_adminPresenceRef (Some p)) ;;;
         rtdb_set p (JBool true) ;;;
         emit (ERtdbOnDisconnectRemove p) ;;;
         startCameras
       else ret tt) ;;;
      setSidebarVisible true ;;;
      setMenuToggleVisible true ;;;
      no_await route
  end.

(** [snap.exists()] *)
Definition snap_exists (v : JValue) : bool :=
  match v with JNull | JUndefined => false | _ => true end.

(** The click listener of [logoutBtn], main.js:190-213 *)
Definition logoutClick : M unit :=
  role <- gets currentRole ;;
  (if is_str role "admin" then
     try_catch
       (removePresence ;;;
        snap <- rtdb_get "/activeAdmins" ;;
        if negb (snap_exists snap) then stopCameras else ret tt)
       (fun _ => ret tt)
   else ret tt) ;;;
  emit ESignOut ;;;
  await (env_signOut env) ;;;
  setMenuToggleVisible false ;;;
  dom "sidebar.open" [JBool false] ;;;
  if menuToggleBtn env then dom "menuToggle.open" [JBool false] else ret tt.

(** The [beforeunload] listener, main.js:215-227 *)
Definition beforeUnload : M unit :=
  role <- gets currentRole ;;
  if is_str role "admin" then
    try_catch removePresence (fun _ => ret tt) ;;;
    try_catch (emit (EBeacon "/api/check_stop_cameras" (JObj []))) (fun _ => ret tt)
  else ret tt.

(** *** Socket.IO listeners, main.js:69-77 *)

Definition on_pending_detection (payload : JValue) : M unit :=
  h <- gets location_hash ;;
  if String.eqb h "#/admin/alerts" then renderPending payload else ret tt.

Definition on_high_threat (payload : JValue) : M unit := maybePlaySiren payload.

(** Every [socket.on] of the script, in order. *)
Definition socket_listeners : list (string * (JValue -> M unit)) :=
  [("pending_detection", on_pending_detection); ("high_threat", on_high_threat)].

(** The server emits [event]: the listeners registered for it run. *)
Definition socket_emit (event : string) (payload : JValue) : M unit :=
  forEach (List.filter (fun l => String.eqb (fst l) event) socket_listeners)
          (fun l => no_await (snd l payload)).

(** *** Boot, main.js:537-538 *)
Definition boot : M unit :=
  h <- gets location_hash ;;
  (if String.eqb h "" then set_location_hash' "#/login" else ret tt) ;;;
  no_await route.

(** *** What the browser can ask of the script *)

Inductive UIEvent : Type :=
| Boot
| HashChange
| AuthStateChanged (user : option User)
| LogoutClick
| BeforeUnload
| SocketEvent (event : string) (payload : JValue)
| LoginSubmit
| TimerFires (cb : Callback)
| ImgError
| ResolveClick (action : string) (payload : JValue)
| AddCameraSubmit
| LangSubmit (inputId : string)
| AddUserSubmit
| PwSubmit (oldId newId : string)
| Styling (op : string).    (* theme switch, menu toggle, cursor glow: main.js:80-86, 544-569 *)

Definition run_callback (cb : Callback) : M unit :=
  match cb with
  | CheckAndSwap => checkAndSwap
  | AdminStatusPoll => adminStatusPoll
  | PersonnelStatusPoll => personnelStatusPoll
  | SendFrame video => sendFrame video
  end.

(** One turn of the event loop.  Any listener may be asked to run in
    any store: which listeners are attached at a given moment depends
    on the markup, so the model allows all of them.  Firebase updates
    [auth.currentUser] before it calls the auth listener. *)
Definition handle (ev : UIEvent) : M unit :=
  match ev with
  | Boot => boot
  | HashChange => route
  | AuthStateChanged user =>
      modify (set_auth_currentUser user) ;;; onAuthStateChanged user
  | LogoutClick => logoutClick
  | BeforeUnload => beforeUnload
  | SocketEvent event payload => socket_emit event payload
  | LoginSubmit => loginSubmit
  | TimerFires cb => run_callback cb
  | ImgError => imgOnError
  | ResolveClick action payload => resolveClick action payload
  | AddCameraSubmit => addCameraSubmit
  | LangSubmit inputId => langSubmit inputId
  | AddUserSubmit => addUserSubmit
  | PwSubmit oldId newId => pwSubmit oldId newId
  | Styling op => dom op []
  end.

(** Stores the page can be in: opened at some hash, then any events. *)
Inductive reachable : Store -> Prop :=
| reach_init (hash : string) : reachable (initial_store hash)
| reach_step (s : Store) (ev : UIEvent) :
    reachable s -> reachable (run (handle ev) s).

End Script.

Arguments reachable env s : assert.

(** ** Reasoning about handlers *)

Lemma bind_ok {A B} (m : M A) (f : A -> M B) s a s1 :
  m s = (Ok a, s1) -> bind m f s = f a s1.
Proof. intros H. unfold bind. now rewrite H. Qed.

Lemma bind_throw {A B} (m : M A) (f : A -> M B) s e s1 :
  m s = (Throw e, s1) -> bind m f s = (Throw e, s1).
Proof. intros H. unfold bind. now rewrite H. Qed.

Lemma try_catch_ok {A} (m : M A) h s a s1 :
  m s = (Ok a, s1) -> try_catch m h s = (Ok a, s1).
Proof. intros H. unfold try_catch. now rewrite H. Qed.

Lemma try_catch_throw {A} (m : M A) h s e s1 :
  m s = (Throw e, s1) -> try_catch m h s = h e s1.
Proof. intros H. unfold try_catch. now rewrite H. Qed.

Lemma bind_ret {A B} (a : A) (k : A -> M B) s : bind (ret a) k s = k a s.
Proof. reflexivity. Qed.

Lemma bind_gets {A B} (f : Store -> A) (k : A -> M B) s : bind (gets f) k s = k (f s) s.
Proof. reflexivity. Qed.

Lemma bind_modify {B} (f : Store -> Store) (k : unit -> M B) s :
  bind (modify f) k s = k tt (f s).
Proof. reflexivity. Qed.

Lemma bind_emit {B} (e : Effect) (k : unit -> M B) s :
  bind (emit e) k s = k tt (set_trace (trace s ++ [e]) s).
Proof. reflexivity. Qed.

Lemma bind_ask {A B} (f : nat -> A) (k : A -> M B) s :
  bind (ask f) k s = k (f (tick s)) (set_tick (S (tick s)) s).
Proof. reflexivity. Qed.

Lemma bind_assoc {A B C} (m : M A) (f : A -> M B) (g : B -> M C) s :
  bind (bind m f) g s = bind m (fun a => bind (f a) g) s.
Proof. unfold bind. destruct (m s) as [[a|e] s1]; reflexivity. Qed.

(** [String(n)] is never the empty string. *)
Lemma pretty_N_go_nonempty (x : N) : forall s, s <> "" -> pretty_N_go x s <> "".
Proof.
  induction (N.lt_wf_0 x) as [x _ IH]. intros s Hs.
  destruct (N.eq_dec x 0%N) as [->|Hx].
  - now rewrite pretty_N_go_0.
  - rewrite pretty_N_go_step by lia.
    apply IH; [apply N.div_lt; lia | discriminate].
Qed.

Lemma pretty_nat_nonempty (n : nat) : pretty n <> "".
Proof.
  unfold pretty, pretty_nat, pretty, pretty_N.
  destruct (decide (N.of_nat n = 0%N)); [discriminate|].
  rewrite pretty_N_go_step by lia.
  apply pretty_N_go_nonempty. discriminate.
Qed.

(** ** Invariants in general

    [preserves P m]: running [m] in a store where [P] holds gives a store
    where [P] holds.  The lemmas follow the combinators; what is left is
    one obligation per store update. *)

Section Preserves.

Variable P : Store -> Prop.

Definition preserves {A} (m : M A) : Prop := forall s, P s -> P (run m s).

Lemma preserves_ret {A} (a : A) : preserves (ret a).
Proof. intros s H. exact H. Qed.

Lemma preserves_throw {A} e : preserves (@throw A e).
Proof. intros s H. exact H. Qed.

Lemma preserves_gets {A} (f : Store -> A) : preserves (gets f).
Proof. intros s H. exact H. Qed.

Lemma preserves_modify f : (forall s, P s -> P (f s)) -> preserves (modify f).
Proof. intros Hf s H. exact (Hf s H). Qed.

Lemma preserves_emit e :
  (forall s, P s -> P (set_trace (trace s ++ [e]) s)) -> preserves (emit e).
Proof. intros Hf s H. exact (Hf s H). Qed.

Lemma preserves_ask {A} (f : nat -> A) :
  (forall s, P s -> P (set_tick (S (tick s)) s)) -> preserves (ask f).
Proof. intros Hf s H. exact (Hf s H). Qed.

Lemma preserves_await {A} (f : nat -> Outcome A) :
  (forall s, P s -> P (set_tick (S (tick s)) s)) -> preserves (await f).
Proof. intros Hf s H. exact (Hf s H). Qed.

Lemma preserves_bind {A B} (m : M A) (f : A -> M B) :
  preserves m -> (forall a, preserves (f a)) -> preserves (bind m f).
Proof.
  intros Hm Hf s H. specialize (Hm s H). unfold run, bind in *.
  destruct (m s) as [[a|e] s1]; simpl in *; [|exact Hm].
  exact (Hf a s1 Hm).
Qed.

Lemma preserves_try_catch {A} (m : M A) h :
  preserves m -> (forall e, preserves (h e)) -> preserves (try_catch m h).
Proof.
  intros Hm Hh s H. specialize (Hm s H). unfold run, try_catch in *.
  destruct (m s) as [[a|e] s1]; simpl in *; [exact Hm|].
  exact (Hh e s1 Hm).
Qed.

Lemma preserves_finally {A} (m : M A) f : preserves m -> preserves f -> preserves (finally m f).
Proof.
  intros Hm Hf s H. specialize (Hm s H). unfold run, finally in *.
  destruct (m s) as [r s1]; simpl in *. specialize (Hf s1 Hm). unfold run in Hf.
  destruct (f s1) as [[[]|e] s2]; exact Hf.
Qed.

Lemma preserves_no_await m : preserves m -> preserves (no_await m).
Proof. intros Hm. apply preserves_try_catch; [exact Hm|]. intros e. apply preserves_ret. Qed.

Lemma preserves_forEach {A} (l : list A) f :
  (forall x, preserves (f x)) -> preserves (forEach l f).
Proof.
  intros Hf. induction l as [|x l IH]; simpl.
  - apply preserves_ret.
  - apply preserves_bind; [apply Hf | intros _; exact IH].
Qed.

End Preserves.

Ltac head_of t :=
  lazymatch t with
  | ?f _ => head_of f
  | _ => t
  end.

(** Follow the program; [update] proves the obligation of a store
    update; a function of the script is opened at the place of its call. *)
Ltac preserves_step update :=
  lazymatch goal with
  | |- preserves _ (bind _ _) => apply preserves_bind; [|intros]
  | |- preserves _ (ret _) => apply preserves_ret
  | |- preserves _ (throw _) => apply preserves_throw
  | |- preserves _ (gets _) => apply preserves_gets
  | |- preserves _ (ask _) => apply preserves_ask; update
  | |- preserves _ (await _) => apply preserves_await; update
  | |- preserves _ (try_catch _ _) => apply preserves_try_catch; [|intros]
  | |- preserves _ (finally _ _) => apply preserves_finally
  | |- preserves _ (no_await _) => apply preserves_no_await
  | |- preserves _ (forEach _ _) => apply preserves_forEach; intros
  | |- preserves _ (emit _) => apply preserves_emit; update
  | |- preserves _ (modify _) => apply preserves_modify; update
  | |- preserves _ (if ?b then _ else _) => destruct b
  | |- preserves _ (match ?x with _ => _ end) => destruct x
  | |- preserves _ ?m => let h := head_of m in unfold h
  end.

(** Read the fields of an updated store. *)
Ltac store_simpl :=
  unfold ret, throw, emit, modify, gets;
  cbn [idToken currentUser currentRole adminPresenceRef pageIntervals lastSirenAt
       location_hash auth_currentUser img_src img_live timers next_timer tick trace
       set_idToken set_currentUser set_currentRole set_adminPresenceRef
       set_pageIntervals set_lastSirenAt set_location_hash set_auth_currentUser
       set_img set_timers set_tick set_trace fst snd].

(** The trace only grows. *)
Definition grows (base : list Effect) (s : Store) : Prop :=
  exists l, trace s = (base ++ l)%list.

Ltac grows_update :=
  let s := fresh "s" in let l := fresh "l" in let H := fresh "H" in
  intros s [l H]; unfold grows; store_simpl;
  first [ exists l; exact H
        | rewrite H; rewrite <- app_assoc; eexists; reflexivity ].

Lemma grows_refl s : grows (trace s) s.
Proof. exists []. now rewrite app_nil_r. Qed.

(** What is left of a trace after its base. *)
Lemma skipn_length_app {A} (l l' : list A) : skipn (length l) (l ++ l') = l'.
Proof. induction l; simpl; auto. Qed.

(** [m] ends with a value in every store. *)
Definition never_throws {A} (m : M A) : Prop := forall s, exists a, result m s = Ok a.

Lemma never_throws_ret {A} (a : A) : never_throws (ret a).
Proof. intros s. now exists a. Qed.

Lemma never_throws_gets {A} (f : Store -> A) : never_throws (gets f).
Proof. intros s. now exists (f s). Qed.

Lemma never_throws_modify f : never_throws (modify f).
Proof. intros s. now exists tt. Qed.

Lemma never_throws_emit e : never_throws (emit e).
Proof. intros s. now exists tt. Qed.

Lemma never_throws_ask {A} (f : nat -> A) : never_throws (ask f).
Proof. intros s. now exists (f (tick s)). Qed.

Lemma never_throws_bind {A B} (m : M A) (f : A -> M B) :
  never_throws m -> (forall a, never_throws (f a)) -> never_throws (bind m f).
Proof.
  intros Hm Hf s. destruct (Hm s) as [a Ha]. unfold result, bind in *.
  destruct (m s) as [[a'|e] s1]; simpl in Ha; [|discriminate Ha].
  exact (Hf a' s1).
Qed.

Lemma never_throws_try_catch {A} (m : M A) h :
  (forall e, never_throws (h e)) -> never_throws (try_catch m h).
Proof.
  intros Hh s. unfold result, try_catch.
  destruct (m s) as [[a|e] s1]; [now exists a | exact (Hh e s1)].
Qed.

Lemma never_throws_finally {A} (m : M A) f :
  never_throws m -> never_throws f -> never_throws (finally m f).
Proof.
  intros Hm Hf s. destruct (Hm s) as [a Ha]. unfold result, finally in *.
  destruct (m s) as [r s1]; simpl in Ha. subst r.
  destruct (Hf s1) as [[] Hu]. unfold result in Hu.
  destruct (f s1) as [[[]|e] s2]; simpl in Hu; [now exists a | discriminate Hu].
Qed.

Lemma never_throws_forEach {A} (l : list A) f :
  (forall x, never_throws (f x)) -> never_throws (forEach l f).
Proof.
  intros Hf. induction l as [|x l IH]; simpl.
  - apply never_throws_ret.
  - apply never_throws_bind; [apply Hf | intros _; exact IH].
Qed.

Ltac never_throws_step :=
  lazymatch goal with
  | |- never_throws (bind _ _) => apply never_throws_bind; [|intros]
  | |- never_throws (ret _) => apply never_throws_ret
  | |- never_throws (gets _) => apply never_throws_gets
  | |- never_throws (ask _) => apply never_throws_ask
  | |- never_throws (try_catch _ _) => apply never_throws_try_catch; intros
  | |- never_throws (finally _ _) => apply never_throws_finally
  | |- never_throws (no_await _) => apply never_throws_try_catch; intros
  | |- never_throws (forEach _ _) => apply never_throws_forEach; intros
  | |- never_throws (emit _) => apply never_throws_emit
  | |- never_throws (modify _) => apply never_throws_modify
  | |- never_throws (throw _) => fail
  | |- never_throws (await _) => fail
  | |- never_throws (if ?b then _ else _) => destruct b
  | |- never_throws (match ?x with _ => _ end) => destruct x
  | |- never_throws ?m => let h := head_of m in unfold h
  end.

Lemma never_throws_unit (m : M unit) s : never_throws m -> exists s', m s = (Ok tt, s').
Proof.
  intros H. destruct (H s) as [[] Ha]. unfold result in Ha.
  destruct (m s) as [r s']. simpl in Ha. subst r. now exists s'.
Qed.

(** ** A concrete world to run the model in

    The clock starts at [t0] and moves [dt] per question, every element
    is on the page, every request gets [answer], every database read
    gets [db]; sign-in and webcam access are refused. *)
Definition world (answer : string -> Outcome Response) (db : string -> JValue)
    (t0 dt : Z) : Env :=
  mkEnv true true true true [Some "admin"; Some "personnel"; None]
        (fun _ _ => true)
        (fun _ id => id)
        (fun n => t0 + dt * Z.of_nat n)
        (fun v => match v with JNum n => Some n | _ => None end)
        (fun _ => Ok "token")
        (fun _ path _ => answer path)
        (fun _ path => Ok (db path))
        (fun _ _ => Ok tt)
        (fun _ _ => Ok tt)
        (fun _ _ _ => Throw (Err "auth/wrong-password"))
        (fun _ => Ok tt)
        (fun _ => Ok tt)
        (fun _ => Ok tt)
        (fun _ => Throw (Err "NotAllowedError"))
        (fun _ => true)
        (fun _ => "data:image/jpeg;base64,").

(** An empty database. *)
Definition no_records : string -> JValue := fun _ => JNull.

(** The server is down: every request is answered 500 with an empty body. *)
Definition server_down : string -> Outcome Response :=
  fun _ => Ok (mkResponse false 500 (Ok "") (Throw (Err "SyntaxError"))).

(** The server answers every request with the JSON value [v]. *)
Definition server_says (v : JValue) : string -> Outcome Response :=
  fun _ => Ok (mkResponse true 200 (Ok "") (Ok v)).

Definition alice : User := mkUser "alice" "alice@example.org".

(** ** [api] and the response it gets (C7) *)

(** The message the claim gives the thrown error: the body, or the status
    code when the body cannot be read. *)
Definition message_as_claimed (res : Response) : string :=
  match text res with
  | Ok t => t
  | Throw _ => pretty (status res)
  end.

Definition api_throws_body_or_status : Prop :=
  forall env path options s token s1 res,
    refreshIdToken env s = (Ok token, s1) ->
    env_fetch env (tick s1) path
              (mkInit (opt_method options) (opt_body options) (bearer token)) = Ok res ->
    ok res = false ->
    result (api env path options) s = Throw (Err (message_as_claimed res)).

Lemma api_run env path options s token s1 res :
  refreshIdToken env s = (Ok token, s1) ->
  env_fetch env (tick s1) path
            (mkInit (opt_method options) (opt_body options) (bearer token)) = Ok res ->
  result (api env path options) s =
    if ok res then json res else Throw (Err (error_message res)).
Proof.
  intros Htok Hres. unfold result, api.
  rewrite (bind_ok _ _ _ _ _ Htok).
  unfold bind, emit, modify, await; simpl. rewrite Hres.
  destruct (ok res); simpl; [|reflexivity].
  now destruct (json res).
Qed.

(** C7, as the code has it: on a response that is not ok [api] throws and
    the message is the body when it is not empty, ['HTTP ' + status] when
    it is empty, and the status code when the body cannot be read; on an
    ok response [api] yields what [res.json()] yields. *)
Theorem api_outcome env path options s token s1 res :
  refreshIdToken env s = (Ok token, s1) ->
  env_fetch env (tick s1) path
            (mkInit (opt_method options) (opt_body options) (bearer token)) = Ok res ->
  result (api env path options) s =
    if ok res then json res
    else Throw (Err (match text res with
                     | Ok "" => "HTTP " +:+ pretty (status res)
                     | Ok t => t
                     | Throw _ => pretty (status res)
                     end)).
Proof.
  intros Htok Hres. rewrite (api_run _ _ _ _ _ _ _ Htok Hres).
  destruct (ok res); [reflexivity|]. f_equal. f_equal.
  unfold error_message. destruct (text res) as [t|e].
  - destruct t; reflexivity.
  - destruct (String.eqb_spec (pretty (status res)) ""); [|reflexivity].
    now destruct (pretty_nat_nonempty (status res)).
Qed.

Lemma api_outcome_witness :
  result (api (world server_down no_records 0 1) "/api/status" GET) (initial_store "") =
  Throw (Err "HTTP 500").
Proof.
  exact (api_outcome (world server_down no_records 0 1) "/api/status" GET (initial_store "")
           None (initial_store "")
           (mkResponse false 500 (Ok "") (Throw (Err "SyntaxError")))
           eq_refl eq_refl).
Defined.

(** Against C7 as stated: with an empty error body the message is
    ['HTTP 500'], which is neither the body nor the status code. *)
Lemma api_empty_body_message : ~ api_throws_body_or_status.
Proof.
  intros H.
  specialize (H (world server_down no_records 0 1) "/api/status" GET (initial_store "")
                None (initial_store "")
                (mkResponse false 500 (Ok "") (Throw (Err "SyntaxError")))
                eq_refl eq_refl eq_refl).
  vm_compute in H. discriminate H.
Qed.

(** ** Routing (C8) *)

(** The pages of main.js:241-247, the hash that names each, the role each
    is for, and its renderer. *)
Inductive Page : Type :=
| AdminDashboard | AdminAlerts | AdminActivity | AdminCameras | AdminSettings
| PersonnelDashboard | PersonnelSettings.

Definition all_pages : list Page :=
  [AdminDashboard; AdminAlerts; AdminActivity; AdminCameras; AdminSettings;
   PersonnelDashboard; PersonnelSettings].

Definition page_hash (p : Page) : string :=
  match p with
  | AdminDashboard => "#/admin/dashboard"
  | AdminAlerts => "#/admin/alerts"
  | AdminActivity => "#/admin/activity"
  | AdminCameras => "#/admin/cameras"
  | AdminSettings => "#/admin/settings"
  | PersonnelDashboard => "#/personnel/dashboard"
  | PersonnelSettings => "#/personnel/settings"
  end.

Definition page_role (p : Page) : string :=
  match p with
  | PersonnelDashboard | PersonnelSettings => "personnel"
  | _ => "admin"
  end.

Definition renderer (env : Env) (p : Page) : M unit :=
  match p with
  | AdminDashboard => renderAdminDashboard env
  | AdminAlerts => renderAdminAlerts
  | AdminActivity => renderAdminActivity env
  | AdminCameras => renderAdminCameras env
  | AdminSettings => renderAdminSettings
  | PersonnelDashboard => renderPersonnelDashboard env
  | PersonnelSettings => renderPersonnelSettings
  end.

(** The page [hash] names, if the current role may see it. *)
Definition permitted_page (hash : string) (role : JValue) : option Page :=
  find (fun p => String.eqb hash (page_hash p) && is_str role (page_role p)) all_pages.

(** The two dashboards among the pages. *)
Definition is_dashboard (p : Page) : bool :=
  match p with
  | AdminDashboard | PersonnelDashboard => true
  | _ => false
  end.

(** The dashboard of a role: the dashboard page that role may see.  A
    role for which [route] has no page has no dashboard. *)
Definition dashboard_of (role : JValue) : option Page :=
  find (fun p => is_dashboard p && is_str role (page_role p)) all_pages.

Definition link_effect (role : JValue) (allowed : option string) : Effect :=
  EDom "link.display" [JStr (if link_shown allowed role then "block" else "none")].

(** What [route] does before it looks at the hash: timers of the page
    that is left are cleared, sidebar links are filtered by role. *)
Definition route_prelude (env : Env) (s : Store) : Store :=
  set_trace (trace s ++ map EClearInterval (pageIntervals s)
                     ++ map (link_effect (currentRole s)) (sidebar_links env))
    (set_pageIntervals []
       (set_timers
          (fold_left (fun ts id => List.filter (fun t => negb (Nat.eqb (timer_id t) id)) ts)
                     (pageIntervals s) (timers s))
          (next_timer s) s)).

Lemma forEach_clearInterval ids : forall s,
  forEach ids clearInterval s =
  (Ok tt,
   set_trace (trace s ++ map EClearInterval ids)
     (set_timers
        (fold_left (fun ts id => List.filter (fun t => negb (Nat.eqb (timer_id t) id)) ts)
                   ids (timers s))
        (next_timer s) s)).
Proof.
  induction ids as [|id ids IH]; intros s; simpl.
  - unfold ret. destruct s; simpl. now rewrite app_nil_r.
  - unfold bind at 1. unfold clearInterval, bind, modify, emit; simpl.
    rewrite IH. destruct s; simpl. now rewrite <- app_assoc.
Qed.

Lemma clearPageIntervals_run s :
  clearPageIntervals s =
  (Ok tt,
   set_pageIntervals []
     (set_trace (trace s ++ map EClearInterval (pageIntervals s))
        (set_timers
           (fold_left (fun ts id => List.filter (fun t => negb (Nat.eqb (timer_id t) id)) ts)
                      (pageIntervals s) (timers s))
           (next_timer s) s))).
Proof.
  unfold clearPageIntervals, bind, gets; simpl.
  rewrite forEach_clearInterval. reflexivity.
Qed.

Lemma forEach_links role links : forall s,
  forEach links (fun allowed =>
    dom "link.display" [JStr (if link_shown allowed role then "block" else "none")]) s =
  (Ok tt, set_trace (trace s ++ map (link_effect role) links) s).
Proof.
  induction links as [|l links IH]; intros s; simpl.
  - unfold ret. destruct s; simpl. now rewrite app_nil_r.
  - unfold bind at 1. unfold dom, emit, modify; simpl.
    rewrite IH. destruct s; simpl. now rewrite <- app_assoc.
Qed.

Lemma is_str_eq v lit : is_str v lit = true -> v = JStr lit.
Proof.
  destruct v; simpl; try discriminate.
  intros H. apply String.eqb_eq in H. now subst.
Qed.

Lemma permitted_page_sound hash role p :
  permitted_page hash role = Some p -> hash = page_hash p /\ role = JStr (page_role p).
Proof.
  intros H. apply find_some in H as [_ H].
  apply andb_true_iff in H as [H1 H2].
  split; [now apply String.eqb_eq | now apply is_str_eq].
Qed.

Lemma permitted_page_complete hash role :
  permitted_page hash role = None ->
  forall p, ~ (hash = page_hash p /\ role = JStr (page_role p)).
Proof.
  intros H p [-> ->].
  assert (Hin : In p all_pages) by (destruct p; simpl; tauto).
  pose proof (find_none _ _ H p Hin) as Hp. simpl in Hp.
  rewrite !String.eqb_refl in Hp. discriminate Hp.
Qed.

Lemma route_signed_out env s :
  currentUser s = None ->
  route env s = bind clearPageIntervals (fun _ => showLogin env) s.
Proof.
  intros Hu. unfold route.
  rewrite !(bind_ok _ _ _ _ _ (clearPageIntervals_run s)).
  rewrite !bind_gets. cbn [currentUser set_pageIntervals set_trace set_timers].
  now rewrite Hu.
Qed.

Lemma route_signed_in env s u :
  currentUser s = Some u ->
  let hash := if String.eqb (location_hash s) "" then "#/login" else location_hash s in
  route env s =
  match permitted_page hash (currentRole s) with
  | Some p => renderer env p (route_prelude env s)
  | None =>
      set_location_hash' (if is_str (currentRole s) "admin" then "#/admin/dashboard"
                          else "#/personnel/dashboard") (route_prelude env s)
  end.
Proof.
  intros Hu hash. unfold route.
  rewrite (bind_ok _ _ _ _ _ (clearPageIntervals_run s)).
  rewrite !bind_gets.
  cbn [currentUser currentRole location_hash set_pageIntervals set_trace set_timers].
  rewrite Hu, bind_gets.
  cbn [currentUser currentRole location_hash set_pageIntervals set_trace set_timers].
  rewrite (bind_ok _ _ _ _ _ (forEach_links _ _ _)).
  fold hash.
  replace (set_trace _ _) with (route_prelude env s)
    by (unfold route_prelude; destruct s; simpl; now rewrite <- app_assoc).
  unfold permitted_page. simpl find.
  destruct (is_str (currentRole s) "admin") eqn:Ra;
    destruct (is_str (currentRole s) "personnel") eqn:Rp;
    rewrite ?andb_true_r, ?andb_false_r;
    repeat match goal with
           | |- context [String.eqb hash ?l] => destruct (String.eqb hash l)
           end; reflexivity.
Qed.

(** A personnel user who asks for an admin page is sent to the personnel
    dashboard and nothing is rendered. *)
Example personnel_kept_out :
  let s := set_currentRole (JStr "personnel")
             (set_currentUser (Some alice) (initial_store "#/admin/cameras")) in
  route (world server_down no_records 0 1) s =
  (Ok tt,
   set_trace [EDom "link.display" [JStr "none"]; EDom "link.display" [JStr "block"];
              EDom "link.display" [JStr "block"]; ESetHash "#/personnel/dashboard"]
     (set_location_hash "#/personnel/dashboard" s)).
Proof. reflexivity. Qed.

Lemma showLogin_renders env s :
  exists s', showLogin env s = (Ok tt, set_trace (trace s' ++ [ERender "loginTpl"]) s').
Proof.
  unfold showLogin.
  rewrite (bind_ok _ _ _ _ _ (clearPageIntervals_run s)).
  unfold setSidebarVisible, setMenuToggleVisible, dom.
  destruct (menuToggleBtn env); cbn [negb]; rewrite ?bind_emit;
    repeat (rewrite bind_assoc || rewrite bind_emit || rewrite bind_ret);
    eexists; reflexivity.
Qed.

(** The redirect as the claim words it: whenever the hash names no page
    the current role may see, the hash [route] sets is the dashboard of
    that role. *)
Definition redirects_to_own_dashboard : Prop :=
  forall env s u,
    reachable env s ->
    currentUser s = Some u ->
    permitted_page (if String.eqb (location_hash s) "" then "#/login" else location_hash s)
                   (currentRole s) = None ->
    exists d, dashboard_of (currentRole s) = Some d /\
              location_hash (run (route env) s) = page_hash d.

(** Alice's record carries a role the script has no page for. *)
Definition alice_is_manager : string -> JValue :=
  fun path => if String.eqb path "/users/alice" then JObj [("role", JStr "manager")] else JNull.

(** She opens the admin dashboard and signs in. *)
Definition manager_session : Store :=
  run (handle (world server_down alice_is_manager 0 1) (AuthStateChanged (Some alice)))
      (initial_store "#/admin/dashboard").

(** The role is stored as it is, nothing was rendered, and the hash is
    now the personnel dashboard. *)
Example manager_session_state :
  currentUser manager_session = Some alice /\
  currentRole manager_session = JStr "manager" /\
  location_hash manager_session = "#/personnel/dashboard" /\
  List.filter (fun e => match e with ERender _ => true | _ => false end)
              (trace manager_session) = [].
Proof. vm_compute. repeat split. Qed.

(** A role other than ['admin'] and ['personnel'] has no dashboard, yet
    [route] sends it to the personnel dashboard. *)
Lemma manager_sent_to_personnel_dashboard : ~ redirects_to_own_dashboard.
Proof.
  intros H.
  destruct (H (world server_down alice_is_manager 0 1) manager_session alice)
    as (d & Hd & _).
  - apply reach_step, reach_init.
  - reflexivity.
  - reflexivity.
  - vm_compute in Hd. discriminate Hd.
Qed.

(** C8.  [route] clears the timers of the page it leaves and then: with no
    signed-in user it shows the login screen; with a user it runs the
    renderer of the page the hash names only if that page is for the
    current role (so an admin renderer runs only for ['admin'], a
    personnel renderer only for ['personnel']); for every other hash it
    renders nothing and only sets [location.hash]: to the dashboard of
    the role when the role is ['admin'] or ['personnel'], and to
    [#/personnel/dashboard] for any other role, which has no page at
    all. *)
Theorem route_role_gated env s :
  let hash := if String.eqb (location_hash s) "" then "#/login" else location_hash s in
  let role := currentRole s in
  match currentUser s with
  | None =>
      route env s = bind clearPageIntervals (fun _ => showLogin env) s /\
      result (route env) s = Ok tt /\
      exists pre, trace (run (route env) s) = (pre ++ [ERender "loginTpl"])%list
  | Some _ =>
      match permitted_page hash role with
      | Some p =>
          hash = page_hash p /\ role = JStr (page_role p) /\
          route env s = renderer env p (route_prelude env s)
      | None =>
          (forall p, ~ (hash = page_hash p /\ role = JStr (page_role p))) /\
          result (route env) s = Ok tt /\
          trace (run (route env) s) =
            (trace s ++ map EClearInterval (pageIntervals s)
                     ++ map (link_effect role) (sidebar_links env)
                     ++ [ESetHash (location_hash (run (route env) s))])%list /\
          match dashboard_of role with
          | Some d =>
              is_dashboard d = true /\ role = JStr (page_role d) /\
              location_hash (run (route env) s) = page_hash d
          | None =>
              location_hash (run (route env) s) = "#/personnel/dashboard" /\
              forall h, permitted_page h role = None
          end
      end
  end.
Proof.
  intros hash role. destruct (currentUser s) as [u|] eqn:Hu.
  - pose proof (route_signed_in env s u Hu) as Hr. cbv zeta in Hr.
    fold hash role in Hr.
    destruct (permitted_page hash role) as [p|] eqn:Hp.
    + destruct (permitted_page_sound _ _ _ Hp) as [Hh Hrole]. auto.
    + split; [exact (permitted_page_complete _ _ Hp)|].
      unfold result, run. rewrite Hr.
      unfold set_location_hash', route_prelude.
      rewrite bind_modify. store_simpl.
      split; [reflexivity|]. split; [now rewrite <- !app_assoc|].
      unfold dashboard_of. cbn [find all_pages is_dashboard page_role andb].
      destruct (is_str role "admin") eqn:Ra.
      * repeat split. now apply is_str_eq.
      * destruct (is_str role "personnel") eqn:Rp.
        -- repeat split. now apply is_str_eq.
        -- split; [reflexivity|]. intros h. unfold permitted_page.
           cbn [find all_pages page_role]. now rewrite Ra, Rp, !andb_false_r.
  - pose proof (route_signed_out env s Hu) as Hr.
    split; [exact Hr|].
    unfold result, run. rewrite Hr.
    destruct (clearPageIntervals s) as [[[]|e] s0] eqn:Hc;
      [|rewrite clearPageIntervals_run in Hc; discriminate Hc].
    rewrite (bind_ok _ _ _ _ _ Hc).
    destruct (showLogin_renders env s0) as [s' Hs']. rewrite Hs'.
    split; [reflexivity|]. exists (trace s'). reflexivity.
Qed.

(** ** What every handler respects *)

(** The endpoints of the back end, as section 6 of the specification
    lists them. *)
Definition ENDPOINTS : list string :=
  ["/api/status"; "/api/start_cameras"; "/api/stop_cameras"; "/api/check_stop_cameras";
   "/api/video_feed"; "/api/upload_frame"; "/api/cameras"; "/api/alerts/resolve";
   "/api/user_language"; "/api/add_user"].

(** The record families of the Realtime Database. *)
Definition FAMILIES : list string := ["users"; "detections"; "cameras"; "activeAdmins"].

(** The period of the status polls, main.js:277, 342, 385. *)
Definition STATUS_POLL_MS : Z := 2000.

Definition mem (x : string) (l : list string) : bool := existsb (String.eqb x) l.

(** The text of [s] before the first [stop]. *)
Fixpoint before (stop : Ascii.ascii) (s : string) : string :=
  match s with
  | EmptyString => EmptyString
  | String c rest => if Ascii.eqb c stop then EmptyString else String c (before stop rest)
  end.

(** The first segment of a database path: ["/users/abc"] is under
    ["users"]. *)
Definition family (path : string) : string :=
  match path with
  | String c rest =>
      if Ascii.eqb c "/"%char then before "/"%char rest else before "/"%char path
  | EmptyString => EmptyString
  end.

(** A URL without its query string. *)
Definition url_path (url : string) : string := before "?"%char url.

Definition is_status_poll (cb : Callback) : bool :=
  match cb with
  | SendFrame _ => false
  | _ => true
  end.

Definition request_ok (e : Effect) : bool :=
  match e with
  | EFetch path _ | EBeacon path _ => mem path ENDPOINTS
  | EImgSrc src => String.eqb src PLACEHOLDER_SRC || String.eqb (url_path src) "/api/video_feed"
  | _ => true
  end.

Definition rtdb_ok (e : Effect) : bool :=
  match e with
  | ERtdbGet path | ERtdbSet path _ | ERtdbRemove path | ERtdbOnDisconnectRemove path =>
      mem (family path) FAMILIES
  | _ => true
  end.

Definition interval_ok (e : Effect) : bool :=
  match e with
  | ESetInterval _ cb ms => (ms =? STATUS_POLL_MS) && is_status_poll cb
  | _ => true
  end.

Definition effect_ok (e : Effect) : bool := request_ok e && rtdb_ok e && interval_ok e.

Definition timer_ok (t : Timer) : bool :=
  (timer_ms t =? STATUS_POLL_MS) && is_status_poll (timer_cb t).

(** The clock readings at which the siren was started, oldest first. *)
Definition play_times (tr : list Effect) : list Z :=
  flat_map (fun e => match e with ESirenPlay t => [t] | _ => [] end) tr.

(** Any two readings, in order, are a cooldown apart. *)
Fixpoint spaced (l : list Z) : Prop :=
  match l with
  | [] => True
  | t :: rest => Forall (fun t' => t' - t >= SIREN_COOLDOWN_MS) rest /\ spaced rest
  end.

Record sound (s : Store) : Prop := mkSound {
  sound_trace : forallb effect_ok (trace s) = true;
  sound_presence : match adminPresenceRef s with
                   | Some p => mem (family p) FAMILIES = true
                   | None => True
                   end;
  sound_timers : forallb timer_ok (timers s) = true;
  sound_spaced : spaced (play_times (trace s));
  sound_last : Forall (fun t => t <= lastSirenAt s) (play_times (trace s))
}.

Definition keeps {A} (m : M A) : Prop := forall s, sound s -> sound (run m s).

(** A store update that touches none of the fields [sound] reads. *)
Definition harmless (f : Store -> Store) : Prop :=
  forall s, trace (f s) = trace s /\ adminPresenceRef (f s) = adminPresenceRef s /\
            timers (f s) = timers s /\ lastSirenAt (f s) = lastSirenAt s.

Lemma sound_harmless f s : harmless f -> sound s -> sound (f s).
Proof.
  intros Hf [H1 H2 H3 H4 H5]. destruct (Hf s) as (E1 & E2 & E3 & E4).
  constructor; rewrite ?E1, ?E2, ?E3, ?E4; assumption.
Qed.

Lemma keeps_ret {A} (a : A) : keeps (ret a).
Proof. intros s H. exact H. Qed.

Lemma keeps_throw {A} e : keeps (@throw A e).
Proof. intros s H. exact H. Qed.

Lemma keeps_gets {A} (f : Store -> A) : keeps (gets f).
Proof. intros s H. exact H. Qed.

Lemma keeps_modify f : harmless f -> keeps (modify f).
Proof. intros Hf s H. now apply sound_harmless. Qed.

Lemma keeps_ask {A} (f : nat -> A) : keeps (ask f).
Proof. intros s H. unfold run, ask; simpl. apply sound_harmless; [|exact H]. now intros ?. Qed.

Lemma keeps_await {A} (f : nat -> Outcome A) : keeps (await f).
Proof. intros s H. unfold run, await; simpl. apply sound_harmless; [|exact H]. now intros ?. Qed.

Lemma keeps_bind {A B} (m : M A) (f : A -> M B) :
  keeps m -> (forall a, keeps (f a)) -> keeps (bind m f).
Proof.
  intros Hm Hf s H. specialize (Hm s H). unfold run, bind in *.
  destruct (m s) as [[a|e] s1]; simpl in *; [|exact Hm].
  exact (Hf a s1 Hm).
Qed.

Lemma keeps_try_catch {A} (m : M A) h :
  keeps m -> (forall e, keeps (h e)) -> keeps (try_catch m h).
Proof.
  intros Hm Hh s H. specialize (Hm s H). unfold run, try_catch in *.
  destruct (m s) as [[a|e] s1]; simpl in *; [exact Hm|].
  exact (Hh e s1 Hm).
Qed.

Lemma keeps_finally {A} (m : M A) f : keeps m -> keeps f -> keeps (finally m f).
Proof.
  intros Hm Hf s H. specialize (Hm s H). unfold run, finally in *.
  destruct (m s) as [r s1]; simpl in *. specialize (Hf s1 Hm). unfold run in Hf.
  destruct (f s1) as [[[]|e] s2]; exact Hf.
Qed.

Lemma keeps_no_await m : keeps m -> keeps (no_await m).
Proof. intros Hm. apply keeps_try_catch; [exact Hm|]. intros e. apply keeps_ret. Qed.

Lemma keeps_forEach {A} (l : list A) f : (forall x, keeps (f x)) -> keeps (forEach l f).
Proof.
  intros Hf. induction l as [|x l IH]; simpl.
  - apply keeps_ret.
  - apply keeps_bind; [apply Hf | intros _; exact IH].
Qed.

Lemma play_times_app tr1 tr2 : play_times (tr1 ++ tr2) = (play_times tr1 ++ play_times tr2)%list.
Proof. unfold play_times. apply flat_map_app. Qed.

Lemma keeps_emit e :
  effect_ok e = true -> play_times [e] = [] -> keeps (emit e).
Proof.
  intros He Hp s [H1 H2 H3 H4 H5]. unfold run, emit, modify; simpl.
  constructor; simpl; try assumption.
  - rewrite forallb_app, H1. simpl. now rewrite He.
  - rewrite play_times_app, Hp, app_nil_r. exact H4.
  - rewrite play_times_app, Hp, app_nil_r. exact H5.
Qed.

Lemma keeps_setInterval cb :
  is_status_poll cb = true -> keeps (setInterval cb STATUS_POLL_MS).
Proof.
  intros Hcb s [H1 H2 H3 H4 H5]. unfold run, setInterval.
  rewrite bind_gets, bind_modify, bind_emit. unfold ret. simpl.
  constructor; simpl; try assumption.
  - rewrite forallb_app, H1. simpl. unfold effect_ok. simpl. now rewrite Hcb.
  - rewrite forallb_app, H3. simpl. unfold timer_ok. simpl. now rewrite Hcb.
  - now rewrite play_times_app, app_nil_r.
  - now rewrite play_times_app, app_nil_r.
Qed.

Lemma keeps_clearInterval id : keeps (clearInterval id).
Proof.
  intros s [H1 H2 H3 H4 H5]. unfold run, clearInterval.
  rewrite bind_modify. unfold emit, modify. simpl.
  constructor; simpl; try assumption.
  - rewrite forallb_app, H1. reflexivity.
  - rewrite forallb_forall in H3 |- *. intros t Ht.
    apply filter_In in Ht as [Ht _]. now apply H3.
  - now rewrite play_times_app, app_nil_r.
  - now rewrite play_times_app, app_nil_r.
Qed.

Lemma keeps_set_presence r :
  match r with Some p => mem (family p) FAMILIES = true | None => True end ->
  keeps (modify (set_adminPresenceRef r)).
Proof. intros Hr s [H1 H2 H3 H4 H5]. constructor; simpl; assumption. Qed.

Ltac harmless_tac := intros ?; repeat split; reflexivity.

(** One step of a proof that a handler keeps the store sound: follow the
    shape of the program. *)
Ltac keeps_step :=
  match goal with
  | |- keeps (bind _ _) => apply keeps_bind; [|intros]
  | |- keeps (ret _) => apply keeps_ret
  | |- keeps (throw _) => apply keeps_throw
  | |- keeps (gets _) => apply keeps_gets
  | |- keeps (ask _) => apply keeps_ask
  | |- keeps (await _) => apply keeps_await
  | |- keeps (try_catch _ _) => apply keeps_try_catch; [|intros]
  | |- keeps (finally _ _) => apply keeps_finally
  | |- keeps (no_await _) => apply keeps_no_await
  | |- keeps (forEach _ _) => apply keeps_forEach; intros
  | |- keeps (emit _) => apply keeps_emit; reflexivity
  | |- keeps (setInterval _ _) => apply keeps_setInterval; reflexivity
  | |- keeps (clearInterval _) => apply keeps_clearInterval
  | |- keeps (modify (set_adminPresenceRef _)) =>
      apply keeps_set_presence; first [reflexivity | exact I]
  | |- keeps (modify _) => apply keeps_modify; harmless_tac
  | |- keeps (if ?b then _ else _) => destruct b
  | |- keeps (match ?x with _ => _ end) => destruct x
  | |- keeps (let (_, _) := ?x in _) => destruct x
  end.

Create HintDb keeps.

Ltac keeps_auto := repeat (first [ solve [auto 1 with keeps] | keeps_step ]).

Section Keeps.

Variable env : Env.

Lemma keeps_addInterval cb :
  is_status_poll cb = true -> keeps (addInterval cb 2000).
Proof.
  intros H. unfold addInterval.
  apply keeps_bind; [now apply keeps_setInterval|]. intros. keeps_auto.
Qed.

Lemma keeps_clearPageIntervals : keeps clearPageIntervals.
Proof. unfold clearPageIntervals. keeps_auto. Qed.

Lemma keeps_getElementById id : keeps (getElementById env id).
Proof. unfold getElementById. keeps_auto. Qed.

Lemma keeps_input_value id : keeps (input_value env id).
Proof. unfold input_value. keeps_auto. Qed.

Lemma keeps_dom op args : keeps (dom op args).
Proof. unfold dom. keeps_auto. Qed.

Lemma keeps_getProp v k : keeps (getProp v k).
Proof. unfold getProp. keeps_auto. Qed.

Lemma keeps_alert msg : keeps (alert msg).
Proof. unfold alert. keeps_auto. Qed.

Lemma keeps_console_log args : keeps (console_log args).
Proof. unfold console_log. keeps_auto. Qed.

Lemma keeps_console_error args : keeps (console_error args).
Proof. unfold console_error. keeps_auto. Qed.

Lemma keeps_console_debug args : keeps (console_debug args).
Proof. unfold console_debug. keeps_auto. Qed.

Lemma keeps_setTimeout cb ms : keeps (setTimeout cb ms).
Proof. unfold setTimeout. keeps_auto. Qed.

Lemma keeps_set_location_hash h : keeps (set_location_hash' h).
Proof. unfold set_location_hash'. keeps_auto. Qed.

Lemma keeps_imgEl_live v : keeps (imgEl_live v).
Proof. unfold imgEl_live. keeps_auto. Qed.

Lemma keeps_imgEl_src src :
  String.eqb src PLACEHOLDER_SRC || String.eqb (url_path src) "/api/video_feed" = true ->
  keeps (imgEl_src src).
Proof.
  intros H. unfold imgEl_src. keeps_step; [keeps_auto|]. intros.
  apply keeps_emit; [|reflexivity].
  unfold effect_ok, request_ok, rtdb_ok, interval_ok. now rewrite H.
Qed.

Hint Resolve keeps_clearPageIntervals keeps_getElementById keeps_input_value keeps_dom
  keeps_getProp keeps_alert keeps_console_log keeps_console_error keeps_console_debug
  keeps_setTimeout keeps_set_location_hash keeps_imgEl_live : keeps.

Lemma keeps_rtdb_get path : mem (family path) FAMILIES = true -> keeps (rtdb_get env path).
Proof.
  intros H. unfold rtdb_get. keeps_step; [|keeps_auto].
  apply keeps_emit; [|reflexivity].
  unfold effect_ok, request_ok, rtdb_ok, interval_ok. now rewrite H.
Qed.

Lemma keeps_rtdb_set path v : mem (family path) FAMILIES = true -> keeps (rtdb_set env path v).
Proof.
  intros H. unfold rtdb_set. keeps_step; [|keeps_auto].
  apply keeps_emit; [|reflexivity].
  unfold effect_ok, request_ok, rtdb_ok, interval_ok. now rewrite H.
Qed.

Lemma keeps_rtdb_remove path : mem (family path) FAMILIES = true -> keeps (rtdb_remove env path).
Proof.
  intros H. unfold rtdb_remove. keeps_step; [|keeps_auto].
  apply keeps_emit; [|reflexivity].
  unfold effect_ok, request_ok, rtdb_ok, interval_ok. now rewrite H.
Qed.

Lemma spaced_snoc l t :
  spaced l -> Forall (fun a => t - a >= SIREN_COOLDOWN_MS) l -> spaced (l ++ [t]).
Proof.
  induction l as [|a l IH]; simpl; intros Hs Hl.
  - split; [constructor | exact I].
  - destruct Hs as [Ha Hs]. inversion Hl; subst. split.
    + apply Forall_app. split; [exact Ha | repeat constructor; assumption].
    + now apply IH.
Qed.

Lemma keeps_maybePlaySiren payload : keeps (maybePlaySiren env payload).
Proof.
  unfold maybePlaySiren.
  destruct (negb (sirenEl env)); [apply keeps_ret|].
  destruct (negb (isHigh payload)); [apply keeps_ret|].
  intros s [H1 H2 H3 H4 H5]. unfold run.
  rewrite bind_ask, bind_gets. cbn [lastSirenAt set_tick].
  destruct (Z.ltb_spec (Date_now env (tick s) - lastSirenAt s) SIREN_COOLDOWN_MS) as [Hlt|Hge].
  - constructor; simpl; assumption.
  - rewrite bind_modify. unfold try_catch, emit, modify. simpl.
    constructor; simpl; try assumption.
    + rewrite forallb_app, H1. reflexivity.
    + rewrite play_times_app. apply spaced_snoc; [exact H4|].
      eapply List.Forall_impl; [|exact H5]. simpl. intros a Ha. lia.
    + rewrite play_times_app. apply Forall_app. split.
      * eapply List.Forall_impl; [|exact H5]. simpl. intros a Ha.
        unfold SIREN_COOLDOWN_MS in Hge. lia.
      * repeat constructor. lia.
Qed.

Lemma keeps_showLoader show : keeps (showLoader env show).
Proof. unfold showLoader. keeps_auto. Qed.

Lemma keeps_setSidebarVisible vis : keeps (setSidebarVisible env vis).
Proof. unfold setSidebarVisible. keeps_auto. Qed.

Lemma keeps_setMenuToggleVisible vis : keeps (setMenuToggleVisible env vis).
Proof. unfold setMenuToggleVisible. keeps_auto. Qed.

Hint Resolve keeps_maybePlaySiren keeps_showLoader keeps_setSidebarVisible
  keeps_setMenuToggleVisible : keeps.

Lemma keeps_showLogin : keeps (showLogin env).
Proof. unfold showLogin. keeps_auto. Qed.

Lemma keeps_loginSubmit : keeps (loginSubmit env).
Proof. unfold loginSubmit. keeps_auto. Qed.

Lemma keeps_resolveRole uid : keeps (resolveRole env uid).
Proof.
  unfold resolveRole. keeps_step; [|keeps_auto].
  apply keeps_rtdb_get. reflexivity.
Qed.

Lemma keeps_refreshIdToken : keeps (refreshIdToken env).
Proof. unfold refreshIdToken. keeps_auto. Qed.

Lemma keeps_api path options : mem path ENDPOINTS = true -> keeps (api env path options).
Proof.
  intros H. unfold api. keeps_step; [apply keeps_refreshIdToken|].
  keeps_step; [|keeps_auto].
  apply keeps_emit; [|reflexivity].
  unfold effect_ok, request_ok, rtdb_ok, interval_ok. now rewrite H.
Qed.

Hint Resolve keeps_showLogin keeps_loginSubmit keeps_resolveRole keeps_refreshIdToken : keeps.
Hint Extern 1 (keeps (api _ _ _)) => (apply keeps_api; reflexivity) : keeps.
Hint Extern 1 (keeps (addInterval _ _)) => (apply keeps_addInterval; reflexivity) : keeps.
Hint Extern 1 (keeps (rtdb_get _ _)) => (apply keeps_rtdb_get; reflexivity) : keeps.
Hint Extern 1 (keeps (imgEl_src _)) => (apply keeps_imgEl_src; reflexivity) : keeps.
Hint Extern 1 (keeps (rtdb_set _ _ _)) => (apply keeps_rtdb_set; reflexivity) : keeps.

Lemma keeps_LIVE_SRC_then {B} (k : string -> M B) :
  (forall now : Z, keeps (k ("/api/video_feed?ts=" +:+ pretty now))) ->
  keeps (bind (LIVE_SRC env) k).
Proof.
  intros Hk s H. unfold run, LIVE_SRC. rewrite bind_assoc, bind_ask, bind_ret.
  apply (Hk _ (set_tick _ s)). apply sound_harmless; [harmless_tac | exact H].
Qed.

Lemma keeps_checkAndSwap : keeps (checkAndSwap env).
Proof.
  unfold checkAndSwap.
  apply keeps_try_catch; [|intros; keeps_auto].
  do 3 (keeps_step; [keeps_auto|]).
  destruct (_ && _); [|keeps_auto].
  apply keeps_LIVE_SRC_then. intros now. keeps_auto.
Qed.

Hint Resolve keeps_checkAndSwap : keeps.

Lemma keeps_attachLiveVideo imgEl : keeps (attachLiveVideo env imgEl).
Proof. unfold attachLiveVideo. keeps_auto. Qed.

Lemma keeps_imgOnError : keeps imgOnError.
Proof. unfold imgOnError. keeps_auto. Qed.

Lemma keeps_sendFrame video : keeps (sendFrame env video).
Proof. unfold sendFrame. keeps_auto. Qed.

Hint Resolve keeps_attachLiveVideo keeps_imgOnError keeps_sendFrame : keeps.

Lemma keeps_startBrowserCamera video : keeps (startBrowserCamera env video).
Proof. unfold startBrowserCamera. keeps_auto. Qed.

Lemma keeps_setPill id text level : keeps (setPill env id text level).
Proof. unfold setPill. keeps_auto. Qed.

Lemma keeps_renderAlertsToday id items : keeps (renderAlertsToday env id items).
Proof. unfold renderAlertsToday. keeps_auto. Qed.

Hint Resolve keeps_startBrowserCamera keeps_setPill keeps_renderAlertsToday : keeps.

Lemma keeps_paintStatus prefix data : keeps (paintStatus env prefix data).
Proof. unfold paintStatus. keeps_auto. Qed.

Hint Resolve keeps_paintStatus : keeps.

Lemma keeps_adminStatusPoll : keeps (adminStatusPoll env).
Proof. unfold adminStatusPoll. keeps_auto. Qed.

Lemma keeps_personnelStatusPoll : keeps (personnelStatusPoll env).
Proof. unfold personnelStatusPoll. keeps_auto. Qed.

Lemma keeps_renderAdminDashboard : keeps (renderAdminDashboard env).
Proof. unfold renderAdminDashboard. keeps_auto. Qed.

Lemma keeps_renderPersonnelDashboard : keeps (renderPersonnelDashboard env).
Proof. unfold renderPersonnelDashboard. keeps_auto. Qed.

Lemma keeps_renderPending payload : keeps (renderPending env payload).
Proof. unfold renderPending. keeps_auto. Qed.

Lemma keeps_resolveClick action payload : keeps (resolveClick env action payload).
Proof. unfold resolveClick. keeps_auto. Qed.

Lemma keeps_renderAdminActivity : keeps (renderAdminActivity env).
Proof. unfold renderAdminActivity. keeps_auto. Qed.

Lemma keeps_refresh : keeps (refresh env).
Proof. unfold refresh. keeps_auto. Qed.

Hint Resolve keeps_adminStatusPoll keeps_personnelStatusPoll keeps_renderAdminDashboard
  keeps_renderPersonnelDashboard keeps_renderPending keeps_resolveClick
  keeps_renderAdminActivity keeps_refresh : keeps.

Lemma keeps_renderAdminCameras : keeps (renderAdminCameras env).
Proof. unfold renderAdminCameras. keeps_auto. Qed.

Lemma keeps_addCameraSubmit : keeps (addCameraSubmit env).
Proof. unfold addCameraSubmit. keeps_auto. Qed.

Lemma keeps_langSubmit inputId : keeps (langSubmit env inputId).
Proof. unfold langSubmit. keeps_auto. Qed.

Lemma keeps_addUserSubmit : keeps (addUserSubmit env).
Proof. unfold addUserSubmit. keeps_auto. Qed.

Lemma keeps_pwSubmit oldId newId : keeps (pwSubmit env oldId newId).
Proof. unfold pwSubmit. keeps_auto. Qed.

Hint Resolve keeps_renderAdminCameras keeps_addCameraSubmit keeps_langSubmit
  keeps_addUserSubmit keeps_pwSubmit : keeps.

Lemma keeps_route : keeps (route env).
Proof.
  unfold route, renderAdminAlerts, renderAdminSettings, renderPersonnelSettings.
  keeps_auto.
Qed.

Lemma keeps_removePresence : keeps (removePresence env).
Proof.
  intros s H. unfold run, removePresence. rewrite bind_gets.
  pose proof (sound_presence s H) as Hp.
  destruct (adminPresenceRef s) as [p|]; [|exact H].
  assert (Hk : keeps (rtdb_remove env p;;; modify (set_adminPresenceRef None))).
  { apply keeps_bind; [now apply keeps_rtdb_remove|]. intros. keeps_auto. }
  exact (Hk s H).
Qed.

Lemma keeps_startCameras : keeps (startCameras env).
Proof. unfold startCameras. keeps_auto. Qed.

Lemma keeps_stopCameras : keeps (stopCameras env).
Proof. unfold stopCameras. keeps_auto. Qed.

Hint Resolve keeps_route keeps_removePresence keeps_startCameras keeps_stopCameras : keeps.

Lemma keeps_onAuthStateChanged user : keeps (onAuthStateChanged env user).
Proof. unfold onAuthStateChanged. keeps_auto. Qed.

Lemma keeps_logoutClick : keeps (logoutClick env).
Proof. unfold logoutClick. keeps_auto. Qed.

Lemma keeps_beforeUnload : keeps (beforeUnload env).
Proof. unfold beforeUnload. keeps_auto. Qed.

Lemma keeps_socket_emit event payload : keeps (socket_emit env event payload).
Proof.
  unfold socket_emit, socket_listeners. cbn [List.filter fst].
  destruct (String.eqb "pending_detection" event);
    destruct (String.eqb "high_threat" event);
    cbn [forEach snd]; unfold on_pending_detection, on_high_threat; keeps_auto.
Qed.

Lemma keeps_boot : keeps (boot env).
Proof. unfold boot. keeps_auto. Qed.

Hint Resolve keeps_onAuthStateChanged keeps_logoutClick keeps_beforeUnload
  keeps_socket_emit keeps_boot : keeps.

Lemma keeps_handle ev : keeps (handle env ev).
Proof. destruct ev as [| | | | | | |cb| | | | | | |]; simpl; try destruct cb; simpl; keeps_auto. Qed.

Lemma initial_store_sound hash : sound (initial_store hash).
Proof. constructor; simpl; auto. Qed.

Lemma reachable_sound s : reachable env s -> sound s.
Proof.
  induction 1 as [hash|s ev _ IH].
  - apply initial_store_sound.
  - exact (keeps_handle ev s IH).
Qed.

End Keeps.

Lemma mem_In x l : mem x l = true -> In x l.
Proof.
  unfold mem. intros H. apply existsb_exists in H as (y & Hy & E).
  apply String.eqb_eq in E. now subst.
Qed.

Lemma sound_effect s e : sound s -> In e (trace s) -> effect_ok e = true.
Proof. intros H Hin. pose proof (sound_trace s H) as Ht. rewrite forallb_forall in Ht. auto. Qed.

Lemma effect_ok_parts e :
  effect_ok e = true -> request_ok e = true /\ rtdb_ok e = true /\ interval_ok e = true.
Proof.
  unfold effect_ok. intros H. apply andb_true_iff in H as [H H3].
  apply andb_true_iff in H as [H1 H2]. auto.
Qed.

(** ** Scenarios used to exercise the theorems *)

Definition status_record : JValue :=
  JObj [("status", JBool true); ("threatLevel", JStr "low");
        ("camerasActive", JNum 1); ("alertsToday", JArr [])].

(** Alice is an admin; nobody else has a record. *)
Definition alice_is_admin : string -> JValue :=
  fun path => if String.eqb path "/users/alice" then JObj [("role", JStr "admin")] else JNull.

Definition healthy : Env := world (server_says status_record) alice_is_admin 10000 1000.
Definition outage : Env := world server_down no_records 10000 1000.

(** Alice opens the admin dashboard and signs in. *)
Definition admin_session : Store :=
  run (handle healthy (AuthStateChanged (Some alice))) (initial_store "#/admin/dashboard").

Lemma admin_session_reachable : reachable healthy admin_session.
Proof. apply reach_step, reach_init. Qed.

(** Four high-threat events, one second apart. *)
Definition weapon_seen : JValue := JObj [("label", JStr "weapon")].

Definition alarm_session : Store :=
  fold_left (fun s ev => run (handle healthy ev) s)
            (List.repeat (SocketEvent "high_threat" weapon_seen) 4) (initial_store "").

Lemma alarm_session_reachable : reachable healthy alarm_session.
Proof.
  unfold alarm_session. cbn [fold_left List.repeat].
  repeat apply reach_step. apply reach_init.
Qed.

Ltac in_list := vm_compute; repeat (first [left; reflexivity | right]).

(** ** External interfaces (C3) *)

(** The endpoint an effect sends a request to. *)
Definition target (e : Effect) : option string :=
  match e with
  | EFetch path _ | EBeacon path _ => Some path
  | EImgSrc src => Some (url_path src)
  | _ => None
  end.

Definition targets (path : string) (e : Effect) : bool :=
  match target e with
  | Some p => String.eqb p path
  | None => false
  end.

(** An admin signs in on the dashboard, adds a camera, verifies an alert,
    saves a language, creates a user, uploads a frame, closes the tab and
    logs out. *)
Definition busy_day : list UIEvent :=
  [AuthStateChanged (Some alice); AddCameraSubmit;
   ResolveClick "verify" (JObj [("detections", JArr [JObj [("label", JStr "weapon")]])]);
   LangSubmit "language"; AddUserSubmit; TimerFires (SendFrame "browserCam");
   BeforeUnload; LogoutClick].

Definition busy_session : Store :=
  fold_left (fun s ev => run (handle healthy ev) s) busy_day
            (initial_store "#/admin/dashboard").

Lemma busy_session_reachable : reachable healthy busy_session.
Proof.
  unfold busy_session, busy_day. cbn [fold_left].
  repeat apply reach_step. apply reach_init.
Qed.

(** C3.  In every store the page can reach, each request made through
    [api]/[fetch] or [navigator.sendBeacon] targets one of the ten listed
    endpoints; pictures are loaded from [/api/video_feed] or the static
    placeholder; the script listens for exactly the Socket.IO events
    [pending_detection] and [high_threat], on the namespace [/stream];
    and each of the ten endpoints is used in some session. *)
Theorem requests_target_listed_endpoints env s :
  reachable env s ->
  (forall path init, In (EFetch path init) (trace s) -> In path ENDPOINTS) /\
  (forall path data, In (EBeacon path data) (trace s) -> In path ENDPOINTS) /\
  (forall src, In (EImgSrc src) (trace s) ->
     src = PLACEHOLDER_SRC \/ url_path src = "/api/video_feed") /\
  map fst (socket_listeners env) = ["pending_detection"; "high_threat"] /\
  socket_namespace = "/stream" /\
  exists env' s', reachable env' s' /\
    forallb (fun path => existsb (targets path) (trace s')) ENDPOINTS = true.
Proof.
  intros Hr. pose proof (reachable_sound env s Hr) as Hs.
  split; [|split; [|split; [|split; [|split]]]].
  - intros path init Hin.
    destruct (effect_ok_parts _ (sound_effect _ _ Hs Hin)) as (H & _ & _).
    now apply mem_In.
  - intros path data Hin.
    destruct (effect_ok_parts _ (sound_effect _ _ Hs Hin)) as (H & _ & _).
    now apply mem_In.
  - intros src Hin.
    destruct (effect_ok_parts _ (sound_effect _ _ Hs Hin)) as (H & _ & _).
    simpl in H. apply orb_true_iff in H as [H|H]; apply String.eqb_eq in H; auto.
  - reflexivity.
  - reflexivity.
  - exists healthy, busy_session. split; [exact busy_session_reachable|].
    vm_compute. reflexivity.
Qed.

Lemma requests_target_listed_endpoints_witness :
  In "/api/start_cameras" ENDPOINTS /\
  url_path "/api/video_feed?ts=17000" = "/api/video_feed".
Proof.
  destruct (requests_target_listed_endpoints healthy admin_session
              admin_session_reachable) as (Hfetch & _ & Himg & _).
  split.
  - apply (Hfetch "/api/start_cameras" (mkInit (Some "POST") None "Bearer token")).
    in_list.
  - destruct (Himg "/api/video_feed?ts=17000") as [H|H].
    + in_list.
    + discriminate H.
    + exact H.
Defined.

(** ** Polling (C4) *)

(** Run in [s], [m] registers [cb] as an interval of the page with the
    period [ms]: [setInterval] is called, the timer is active when [m]
    ends, and its id is kept in [pageIntervals]. *)
Definition registers (m : M unit) (cb : Callback) (ms : Z) (s : Store) : Prop :=
  exists id,
    In (ESetInterval id cb ms) (skipn (length (trace s)) (trace (run m s))) /\
    In (mkTimer id cb ms) (timers (run m s)) /\
    In id (pageIntervals (run m s)).

(** Since the trace was [base], [cb] has been registered and not
    cleared. *)
Definition registered (cb : Callback) (ms : Z) (base : list Effect) (s : Store) : Prop :=
  exists id l,
    trace s = (base ++ l)%list /\ In (ESetInterval id cb ms) l /\
    In (mkTimer id cb ms) (timers s) /\ In id (pageIntervals s).

Ltac registered_update :=
  let s := fresh "s" in let id := fresh "id" in let l := fresh "l" in
  let Ht := fresh "Ht" in let Hl := fresh "Hl" in
  let Htm := fresh "Htm" in let Hpi := fresh "Hpi" in
  intros s (id & l & Ht & Hl & Htm & Hpi); unfold registered; store_simpl;
  first [ exists id, l; repeat split; assumption
        | rewrite Ht, <- app_assoc; exists id; eexists; split; [reflexivity|];
          repeat split; [apply in_or_app; left; exact Hl | exact Htm | exact Hpi] ].

Lemma registered_registers m cb ms s :
  registered cb ms (trace s) (run m s) -> registers m cb ms s.
Proof.
  intros (id & l & Ht & Hl & Htm & Hpi). exists id.
  rewrite Ht, skipn_length_app. auto.
Qed.

(** [m] registers [cb] whenever it ends without an error. *)
Definition registers_on_return (base : list Effect) (m : M unit) (cb : Callback) (ms : Z) : Prop :=
  forall s, grows base s -> result m s = Ok tt -> registered cb ms base (run m s).

(** The steps before the registration only add to the trace. *)
Lemma registers_after {A} base (m : M A) (f : A -> M unit) cb ms :
  preserves (grows base) m ->
  (forall a, registers_on_return base (f a) cb ms) ->
  registers_on_return base (bind m f) cb ms.
Proof.
  intros Hm Hf s Hs Hok. specialize (Hm s Hs). unfold result, run, bind in *.
  destruct (m s) as [[a|e] s1]; cbn [fst snd] in *; [|discriminate Hok].
  exact (Hf a s1 Hm Hok).
Qed.

(** The registration itself, and the steps after it, which leave the
    timer alone. *)
Lemma registers_here base (f : nat -> M unit) cb ms :
  (forall id, preserves (registered cb ms base) (f id)) ->
  registers_on_return base (bind (addInterval cb ms) f) cb ms.
Proof.
  intros Hf s [l Hl] _.
  unfold run, addInterval, setInterval.
  repeat (rewrite bind_assoc || rewrite bind_gets || rewrite bind_modify
          || rewrite bind_emit || rewrite bind_ret).
  apply (Hf (next_timer s)). exists (next_timer s), (l ++ [ESetInterval (next_timer s) cb ms])%list.
  store_simpl. rewrite Hl, <- app_assoc.
  repeat split; apply in_or_app; right; now left.
Qed.

Section Polls.

Variable env : Env.

Lemma attachLiveVideo_registers s :
  result (attachLiveVideo env true) s = Ok tt /\
  registers (attachLiveVideo env true) CheckAndSwap 2000 s.
Proof.
  assert (Hnt : never_throws (attachLiveVideo env true)).
  { unfold attachLiveVideo. cbn [negb]. repeat never_throws_step. }
  destruct (Hnt s) as [[] Hok]. split; [exact Hok|].
  apply registered_registers.
  enough (H : registers_on_return (trace s) (attachLiveVideo env true) CheckAndSwap 2000)
    by exact (H s (grows_refl s) Hok).
  unfold attachLiveVideo. cbn [negb].
  apply registers_after; [repeat preserves_step grows_update | intros _].
  apply registers_after; [repeat preserves_step grows_update | intros _].
  apply registers_after; [repeat preserves_step grows_update | intros _].
  apply registers_here. intros id. repeat preserves_step registered_update.
Qed.

Lemma renderAdminDashboard_registers s :
  result (renderAdminDashboard env) s = Ok tt ->
  registers (renderAdminDashboard env) AdminStatusPoll 2000 s.
Proof.
  intros Hok. apply registered_registers.
  enough (H : registers_on_return (trace s) (renderAdminDashboard env) AdminStatusPoll 2000)
    by exact (H s (grows_refl s) Hok).
  unfold renderAdminDashboard.
  apply registers_after; [repeat preserves_step grows_update | intros _].
  apply registers_after; [repeat preserves_step grows_update | intros videoEl].
  apply registers_after; [repeat preserves_step grows_update | intros _].
  apply registers_after; [repeat preserves_step grows_update | intros data].
  apply registers_after; [repeat preserves_step grows_update | intros _].
  apply registers_here. intros id. repeat preserves_step registered_update.
Qed.

Lemma renderPersonnelDashboard_registers s :
  result (renderPersonnelDashboard env) s = Ok tt ->
  registers (renderPersonnelDashboard env) PersonnelStatusPoll 2000 s.
Proof.
  intros Hok. apply registered_registers.
  enough (H : registers_on_return (trace s) (renderPersonnelDashboard env) PersonnelStatusPoll 2000)
    by exact (H s (grows_refl s) Hok).
  unfold renderPersonnelDashboard.
  apply registers_after; [repeat preserves_step grows_update | intros _].
  apply registers_after; [repeat preserves_step grows_update | intros data].
  apply registers_after; [repeat preserves_step grows_update | intros _].
  apply registers_here. intros id. repeat preserves_step registered_update.
Qed.

End Polls.

(** Nobody has a record: whoever signs in is taken for personnel. *)
Definition staff : Env := world (server_says status_record) no_records 10000 1000.

(** Alice opens the personnel dashboard and signs in. *)
Definition staff_session : Store :=
  run (handle staff (AuthStateChanged (Some alice))) (initial_store "#/personnel/dashboard").

Lemma staff_session_reachable : reachable staff staff_session.
Proof. apply reach_step, reach_init. Qed.

(** C4.  Every interval the script registers, and every timer that is
    active, has the period 2000 ms and runs one of the three status
    polls; each of these starts with a request to [/api/status].  Each of
    the three places registers its poll with that period:
    [attachLiveVideo], given an image, always does; the admin dashboard
    and the personnel dashboard do whenever they are rendered without an
    error. *)
Theorem status_polls_fixed_period env s :
  reachable env s ->
  (forall id cb ms, In (ESetInterval id cb ms) (trace s) ->
     ms = 2000 /\ is_status_poll cb = true) /\
  Forall (fun t => timer_ms t = 2000 /\ is_status_poll (timer_cb t) = true) (timers s) /\
  (forall cb, is_status_poll cb = true ->
     exists k h, run_callback env cb = try_catch (bind (api env "/api/status" GET) k) h) /\
  (result (attachLiveVideo env true) s = Ok tt /\
   registers (attachLiveVideo env true) CheckAndSwap 2000 s) /\
  (result (renderAdminDashboard env) s = Ok tt ->
   registers (renderAdminDashboard env) AdminStatusPoll 2000 s) /\
  (result (renderPersonnelDashboard env) s = Ok tt ->
   registers (renderPersonnelDashboard env) PersonnelStatusPoll 2000 s).
Proof.
  intros Hr. pose proof (reachable_sound env s Hr) as Hs.
  split; [|split; [|split; [|split; [|split]]]].
  - intros id cb ms H.
    destruct (effect_ok_parts _ (sound_effect _ _ Hs H)) as (_ & _ & Hi).
    simpl in Hi. apply andb_true_iff in Hi as [Hi1 Hi2]. apply Z.eqb_eq in Hi1. auto.
  - apply List.Forall_forall. intros t Ht.
    pose proof (sound_timers s Hs) as H. rewrite forallb_forall in H.
    specialize (H t Ht). unfold timer_ok in H. apply andb_true_iff in H as [H1 H2].
    apply Z.eqb_eq in H1. auto.
  - intros cb Hcb. destruct cb; try discriminate Hcb; simpl;
      unfold checkAndSwap, adminStatusPoll, personnelStatusPoll; eauto.
  - apply attachLiveVideo_registers.
  - apply renderAdminDashboard_registers.
  - apply renderPersonnelDashboard_registers.
Qed.

Lemma status_polls_fixed_period_witness :
  Forall (fun t => timer_ms t = 2000 /\ is_status_poll (timer_cb t) = true)
         [mkTimer 0 CheckAndSwap 2000; mkTimer 1 AdminStatusPoll 2000] /\
  Forall (fun t => timer_ms t = 2000 /\ is_status_poll (timer_cb t) = true)
         [mkTimer 0 PersonnelStatusPoll 2000] /\
  registers (attachLiveVideo staff true) CheckAndSwap 2000 staff_session /\
  registers (renderAdminDashboard healthy) AdminStatusPoll 2000 admin_session /\
  registers (renderPersonnelDashboard staff) PersonnelStatusPoll 2000 staff_session.
Proof.
  pose proof (status_polls_fixed_period healthy admin_session admin_session_reachable)
    as (_ & Ha & _ & _ & Hadmin & _).
  pose proof (status_polls_fixed_period staff staff_session staff_session_reachable)
    as (_ & Hp & _ & Hlive & _ & Hpersonnel).
  split; [exact Ha|]. split; [exact Hp|]. split; [exact (proj2 Hlive)|].
  split; [apply Hadmin | apply Hpersonnel]; vm_compute; reflexivity.
Defined.

(** ** Realtime Database records (C2) *)

Definition rtdb_path (e : Effect) : option string :=
  match e with
  | ERtdbGet path | ERtdbSet path _ | ERtdbRemove path | ERtdbOnDisconnectRemove path =>
      Some path
  | _ => None
  end.

(** The second half of the claim, read on [resolveRole]: what is stored
    under [role] comes back as it is, with no default supplied by the
    client. *)
Definition role_passed_through : Prop :=
  forall env uid s record,
    env_rtdb_get env (tick s) ("/users/" +:+ uid) = Ok record ->
    result (resolveRole env uid) s = Ok (prop record "role").

Lemma resolveRole_run env uid s :
  result (resolveRole env uid) s =
  match env_rtdb_get env (tick s) ("/users/" +:+ uid) with
  | Ok record => Ok (or_else (prop (or_else record (JObj [])) "role") (JStr "personnel"))
  | Throw e => Throw e
  end.
Proof.
  unfold result, resolveRole, rtdb_get.
  rewrite bind_assoc, bind_emit. unfold bind, await. simpl.
  now destruct (env_rtdb_get env (tick s) ("/users/" +:+ uid)).
Qed.

(** Against C2 as stated: a user record without a role is given the role
    ['personnel'] by the client. *)
Lemma role_defaults_to_personnel : ~ role_passed_through.
Proof.
  intros H.
  specialize (H (world server_down (fun _ => JObj [("name", JStr "Bob")]) 0 1)
                "bob" (initial_store "") (JObj [("name", JStr "Bob")]) eq_refl).
  vm_compute in H. discriminate H.
Qed.

(** C2, as the code has it.  Every Realtime Database path the script
    reads or writes lies under [users], [detections], [cameras] or
    [activeAdmins]; [resolveRole] returns the stored role when it is
    truthy and ['personnel'] when the record or its role is missing or
    falsy. *)
Theorem rtdb_families_and_role_default env s :
  reachable env s ->
  (forall e path, In e (trace s) -> rtdb_path e = Some path -> In (family path) FAMILIES) /\
  (forall uid s' record,
     env_rtdb_get env (tick s') ("/users/" +:+ uid) = Ok record ->
     result (resolveRole env uid) s' =
       Ok (if truthy record && truthy (prop record "role")
           then prop record "role" else JStr "personnel")).
Proof.
  intros Hr. pose proof (reachable_sound env s Hr) as Hs. split.
  - intros e path Hin Hp.
    destruct (effect_ok_parts _ (sound_effect _ _ Hs Hin)) as (_ & H & _).
    destruct e; try discriminate Hp; injection Hp as ->; now apply mem_In.
  - intros uid s' record Hget. rewrite resolveRole_run, Hget. f_equal.
    unfold or_else. destruct (truthy record) eqn:Ht; simpl.
    + reflexivity.
    + destruct record; try discriminate Ht; reflexivity.
Qed.

Lemma rtdb_families_and_role_default_witness :
  In (family "/activeAdmins/alice") FAMILIES /\
  result (resolveRole healthy "alice") (initial_store "") = Ok (JStr "admin") /\
  result (resolveRole healthy "bob") (initial_store "") = Ok (JStr "personnel").
Proof.
  destruct (rtdb_families_and_role_default healthy admin_session
              admin_session_reachable) as [Hpath Hrole].
  split; [|split].
  - apply (Hpath (ERtdbSet "/activeAdmins/alice" (JBool true))); [in_list | reflexivity].
  - exact (Hrole "alice" (initial_store "") (JObj [("role", JStr "admin")]) eq_refl).
  - exact (Hrole "bob" (initial_store "") JNull eq_refl).
Defined.

(** ** The siren (C6) *)

(** The payload carries a high-threat label, as its own [label] or as the
    [label] of one of its [detections]. *)
Definition carries_high_label (payload : JValue) : Prop :=
  (exists l, prop payload "label" = JStr l /\ l ∈ HIGH_LABELS) \/
  (exists d l, In d (elements (prop payload "detections")) /\
               prop d "label" = JStr l /\ l ∈ HIGH_LABELS).

Lemma HIGH_LABELS_elements l :
  l ∈ HIGH_LABELS <->
  In l ["weapons"; "weapon"; "other_coverings"; "otherCoverings"; "other_Coverings"].
Proof. unfold HIGH_LABELS. now rewrite elem_of_list_to_set, list_elem_of_In. Qed.

Lemma HIGH_LABELS_has_true v :
  HIGH_LABELS_has v = true -> exists l, v = JStr l /\ l ∈ HIGH_LABELS.
Proof.
  destruct v; simpl; try discriminate. intros H.
  apply bool_decide_eq_true in H. eauto.
Qed.

Lemma isHigh_carries payload : isHigh payload = true -> carries_high_label payload.
Proof.
  unfold isHigh.
  destruct (truthy payload && truthy (prop payload "label")
            && HIGH_LABELS_has (prop payload "label")) eqn:E1.
  - intros _. apply andb_true_iff in E1 as [_ E1].
    left. now apply HIGH_LABELS_has_true.
  - destruct (truthy payload && isArray (prop payload "detections")); [|discriminate].
    intros H. apply existsb_exists in H as (d & Hd & H).
    apply andb_true_iff in H as [_ H].
    apply HIGH_LABELS_has_true in H as (l & Hl & Hin).
    right. eauto.
Qed.

Example isHigh_own_label : isHigh (JObj [("label", JStr "weapon")]) = true.
Proof. reflexivity. Qed.

Example isHigh_detection_label :
  isHigh (JObj [("detections", JArr [JObj [("label", JStr "person")];
                                     JObj [("label", JStr "other_Coverings")]])]) = true.
Proof. reflexivity. Qed.

Example isHigh_low_label :
  isHigh (JObj [("label", JStr "person"); ("detections", JArr [JNull])]) = false.
Proof. reflexivity. Qed.

(** A truthy [label] that is not high-threat does not hide the
    detections: the first test fails as a whole. *)
Example isHigh_low_label_high_detection :
  isHigh (JObj [("label", JStr "person");
                ("detections", JArr [JObj [("label", JStr "weapons")]])]) = true.
Proof. reflexivity. Qed.

(** What one call does: nothing at all, or only a look at the clock, or a
    play at the reading [now] of the clock. *)
Lemma maybePlaySiren_run env payload s :
  let now := Date_now env (tick s) in
  maybePlaySiren env payload s =
  if negb (sirenEl env) || negb (isHigh payload) then (Ok tt, s)
  else if now - lastSirenAt s <? SIREN_COOLDOWN_MS then (Ok tt, set_tick (S (tick s)) s)
  else (Ok tt, set_trace (trace s ++ [ESirenPlay now])
                 (set_lastSirenAt now (set_tick (S (tick s)) s))).
Proof.
  unfold maybePlaySiren.
  destruct (negb (sirenEl env)); [reflexivity|].
  destruct (negb (isHigh payload)); [reflexivity|]. cbn [orb].
  rewrite bind_ask, bind_gets. cbn [lastSirenAt set_tick].
  destruct (_ <? _); reflexivity.
Qed.

Lemma spaced_pair l a b :
  spaced l -> forall l1 l2 l3, l = (l1 ++ a :: l2 ++ b :: l3)%list -> b - a >= SIREN_COOLDOWN_MS.
Proof.
  intros Hs l1. revert l Hs. induction l1 as [|x l1 IH]; intros l Hs l2 l3 ->; simpl in Hs.
  - destruct Hs as [Ha _]. rewrite List.Forall_forall in Ha.
    apply Ha. apply in_or_app. right. now left.
  - destruct Hs as [_ Hs]. exact (IH _ Hs l2 l3 eq_refl).
Qed.

(** C6.  A call to [maybePlaySiren] starts the siren only for a payload
    that carries a high-threat label, and then only when the clock is
    at least 3000 ms past the last start, which it records; a call made
    less than 3000 ms after the last start plays nothing and leaves the
    record as it is; and in every store the page can reach, any two
    starts of the siren are at least 3000 ms apart. *)
Theorem siren_gated_and_debounced env :
  SIREN_COOLDOWN_MS = 3000 /\
  (forall payload s,
     let s' := run (maybePlaySiren env payload) s in
     let now := Date_now env (tick s) in
     trace s' = trace s /\ lastSirenAt s' = lastSirenAt s \/
     carries_high_label payload /\ sirenEl env = true /\
     now - lastSirenAt s >= 3000 /\
     trace s' = (trace s ++ [ESirenPlay now])%list /\ lastSirenAt s' = now) /\
  (forall payload s,
     Date_now env (tick s) - lastSirenAt s < 3000 ->
     trace (run (maybePlaySiren env payload) s) = trace s /\
     lastSirenAt (run (maybePlaySiren env payload) s) = lastSirenAt s) /\
  (forall s, reachable env s ->
     forall t1 t2 before between after,
       play_times (trace s) = (before ++ t1 :: between ++ t2 :: after)%list ->
       t2 - t1 >= 3000).
Proof.
  split; [reflexivity|]. split; [|split].
  - intros payload s. cbv zeta. unfold run. rewrite maybePlaySiren_run. cbv zeta.
    destruct (sirenEl env) eqn:Hsiren; [|left; split; reflexivity].
    destruct (isHigh payload) eqn:Hhigh; [|left; split; reflexivity].
    cbn [negb orb].
    destruct (Z.ltb_spec (Date_now env (tick s) - lastSirenAt s) SIREN_COOLDOWN_MS)
      as [Hlt|Hge].
    + left. split; reflexivity.
    + right. unfold SIREN_COOLDOWN_MS in Hge.
      repeat split; [now apply isHigh_carries | lia].
  - intros payload s Hlt. unfold run. rewrite maybePlaySiren_run. cbv zeta.
    destruct (negb (sirenEl env) || negb (isHigh payload)); [split; reflexivity|].
    destruct (Z.ltb_spec (Date_now env (tick s) - lastSirenAt s) SIREN_COOLDOWN_MS)
      as [_|Hge]; [split; reflexivity|].
    unfold SIREN_COOLDOWN_MS in Hge. lia.
  - intros s Hr t1 t2 l1 l2 l3 Heq.
    pose proof (sound_spaced s (reachable_sound env s Hr)) as Hs.
    exact (spaced_pair _ _ _ Hs _ _ _ Heq).
Qed.

Lemma siren_gated_and_debounced_witness :
  play_times (trace alarm_session) = [10000; 13000] /\ 13000 - 10000 >= 3000 /\
  trace (run (maybePlaySiren healthy weapon_seen) alarm_session) = trace alarm_session.
Proof.
  destruct (siren_gated_and_debounced healthy) as (_ & _ & Hcool & Hapart).
  split; [reflexivity|]. split.
  - exact (Hapart alarm_session alarm_session_reachable 10000 13000 [] [] [] eq_refl).
  - apply (Hcool weapon_seen alarm_session). vm_compute. reflexivity.
Defined.

(** ** Failures (C1, C5) *)

(** An effect the user or the developer gets to see. *)
Definition surfaces (e : Effect) : bool :=
  match e with
  | EAlert _ | EConsole _ _ => true
  | _ => false
  end.

(** What a computation adds to the trace. *)
Definition new_effects {A} (m : M A) (s : Store) : list Effect :=
  skipn (length (trace s)) (trace (run m s)).

(** The bindings of the script and the browser state it steers, without
    the token cache and the bookkeeping of the model. *)
Definition script_state (s : Store) :=
  (currentUser s, currentRole s, adminPresenceRef s, pageIntervals s, lastSirenAt s,
   location_hash s, auth_currentUser s, img_src s, img_live s, timers s, next_timer s).

(** [api] step by step: the request goes out with the token at hand, and
    the answer decides. *)
Definition api_request (env : Env) (path : string) (options : Options)
    (token : option string) (s : Store) : Outcome JValue * Store :=
  let init := mkInit (opt_method options) (opt_body options) (bearer token) in
  let sent := set_trace (trace s ++ [EFetch path init]) s in
  (match env_fetch env (tick s) path init with
   | Ok res => if ok res then json res else Throw (Err (error_message res))
   | Throw e => Throw e
   end,
   set_tick (S (tick s)) sent).

Lemma api_unfold env path options s :
  api env path options s =
  match auth_currentUser s with
  | None => api_request env path options None s
  | Some _ =>
      match env_getIdToken env (tick s) with
      | Ok t => api_request env path options (Some t)
                  (set_idToken (Some t) (set_tick (S (tick s)) s))
      | Throw e => (Throw e, set_tick (S (tick s)) s)
      end
  end.
Proof.
  unfold api, api_request, refreshIdToken, bind, gets, await, emit, modify, ret, throw.
  destruct (auth_currentUser s); [destruct (env_getIdToken env (tick s))|];
    cbv beta iota zeta; cbn [tick trace set_tick set_trace set_idToken]; try reflexivity;
    match goal with
    | |- context [env_fetch ?a ?b ?c ?d] => destruct (env_fetch a b c d) as [res|e]
    end; try reflexivity;
    destruct (ok res); cbn [negb]; try reflexivity; destruct (json res); reflexivity.
Qed.

(** [api] makes at most one request, shows nothing, and touches nothing
    but the token cache. *)
Lemma api_effects env path options s :
  script_state (run (api env path options) s) = script_state s /\
  (new_effects (api env path options) s = [] \/
   exists init, new_effects (api env path options) s = [EFetch path init]).
Proof.
  unfold new_effects, run. rewrite api_unfold. unfold api_request.
  destruct (auth_currentUser s) eqn:Hu; [destruct (env_getIdToken env (tick s))|];
    cbn [snd trace set_tick set_trace set_idToken].
  - split; [unfold script_state; simpl; now rewrite Hu|].
    right. eexists. apply skipn_length_app.
  - split; [unfold script_state; simpl; now rewrite Hu|].
    left. rewrite <- (app_nil_r (trace s)) at 2. apply skipn_length_app.
  - split; [unfold script_state; simpl; now rewrite Hu|].
    right. eexists. apply skipn_length_app.
Qed.

Lemma new_effects_app {A} (m : M A) s l :
  trace (run m s) = (trace s ++ l)%list -> new_effects m s = l.
Proof. intros H. unfold new_effects. rewrite H. apply skipn_length_app. Qed.

Lemma api_shows_nothing env path options s :
  existsb surfaces (new_effects (api env path options) s) = false.
Proof.
  destruct (api_effects env path options s) as [_ [H|[init H]]]; now rewrite H.
Qed.

Section Failures.

Variable env : Env.

Lemma startCameras_on_failure s e s1 :
  api env "/api/start_cameras" (POST None) s = (Throw e, s1) ->
  startCameras env s =
  (Ok tt, run (console_error [JStr "Could not start cameras:"; err_value e]) s1).
Proof.
  intros H. unfold startCameras.
  now rewrite (try_catch_throw _ _ _ _ _ (bind_throw _ _ _ _ _ H)).
Qed.

Lemma stopCameras_on_failure s e s1 :
  api env "/api/stop_cameras" (POST None) s = (Throw e, s1) ->
  stopCameras env s =
  (Ok tt, run (console_error [JStr "Could not stop cameras:"; err_value e]) s1).
Proof.
  intros H. unfold stopCameras.
  now rewrite (try_catch_throw _ _ _ _ _ (bind_throw _ _ _ _ _ H)).
Qed.

Lemma checkAndSwap_on_failure s e s1 :
  api env "/api/status" GET s = (Throw e, s1) ->
  checkAndSwap env s =
  (Ok tt, run (console_debug [JStr "status poll failed";
                              or_else (JStr (message e)) (err_value e)]) s1).
Proof.
  intros H. unfold checkAndSwap.
  now rewrite (try_catch_throw _ _ _ _ _ (bind_throw _ _ _ _ _ H)).
Qed.

Lemma adminStatusPoll_on_failure s e s1 :
  api env "/api/status" GET s = (Throw e, s1) -> adminStatusPoll env s = (Ok tt, s1).
Proof.
  intros H. unfold adminStatusPoll.
  now rewrite (try_catch_throw _ _ _ _ _ (bind_throw _ _ _ _ _ H)).
Qed.

Lemma personnelStatusPoll_on_failure s e s1 :
  api env "/api/status" GET s = (Throw e, s1) -> personnelStatusPoll env s = (Ok tt, s1).
Proof.
  intros H. unfold personnelStatusPoll.
  now rewrite (try_catch_throw _ _ _ _ _ (bind_throw _ _ _ _ _ H)).
Qed.

(** The frame [sendFrame] uploads when it runs in [s], and the store in
    which the upload starts. *)
Definition frame_upload (s : Store) : Options :=
  POST (Some (JObj [("frame", JStr (env_toDataURL env (S (tick s))))])).

Definition before_upload (s : Store) : Store := set_tick (S (S (tick s))) s.

Lemma sendFrame_on_failure video s e s1 :
  env_frame_ready env (tick s) = true ->
  api env "/api/upload_frame" (frame_upload s) (before_upload s) = (Throw e, s1) ->
  sendFrame env video s =
  (Ok tt, run (console_error [JStr "upload_frame failed"; JStr (message e)] ;;;
               setTimeout (SendFrame video) 1000) s1).
Proof.
  intros Hready H. unfold sendFrame. rewrite bind_ask, Hready.
  rewrite bind_assoc, bind_ask. cbn [tick set_tick].
  unfold frame_upload, before_upload in H.
  replace (set_tick (S (S (tick s))) (set_tick (S (tick s)) s))
    with (set_tick (S (S (tick s))) s) by (now destruct s).
  erewrite bind_ok; [|exact (try_catch_throw _ _ _ _ _ (bind_throw _ _ _ _ _ H))].
  reflexivity.
Qed.

Lemma sendFrame_on_success video s res s1 :
  env_frame_ready env (tick s) = true ->
  api env "/api/upload_frame" (frame_upload s) (before_upload s) = (Ok res, s1) ->
  sendFrame env video s =
  (Ok tt, run (maybePlaySiren env res ;;; setTimeout (SendFrame video) 1000) s1).
Proof.
  intros Hready H. unfold sendFrame. rewrite bind_ask, Hready.
  rewrite bind_assoc, bind_ask. cbn [tick set_tick].
  unfold frame_upload, before_upload in H.
  replace (set_tick (S (S (tick s))) (set_tick (S (tick s)) s))
    with (set_tick (S (S (tick s))) s) by (now destruct s).
  unfold run. unfold bind at 3. rewrite maybePlaySiren_run. cbv zeta.
  unfold try_catch, bind at 1 2. rewrite H. rewrite maybePlaySiren_run. cbv zeta.
  destruct (_ || _); [reflexivity|]. destruct (_ <? _); reflexivity.
Qed.

Lemma startBrowserCamera_on_refusal video s err :
  env_getUserMedia env (tick s) = Throw err ->
  startBrowserCamera env video s =
  (Ok tt, run (console_error [JStr "Could not access webcam:"; err_value err])
              (set_tick (S (tick s)) (set_trace (trace s ++ [EGetUserMedia]) s))).
Proof.
  intros H. unfold startBrowserCamera.
  erewrite try_catch_throw; [reflexivity|].
  rewrite bind_emit. apply bind_throw. unfold await. cbn [tick set_trace]. now rewrite H.
Qed.

Lemma loginSubmit_on_refusal s err :
  env_signIn env (S (S (tick s))) (env_value env (tick s) "email")
             (env_value env (S (tick s)) "password") = Throw err ->
  result (loginSubmit env) s = Ok tt /\
  In (EAlert (message err)) (new_effects (loginSubmit env) s).
Proof.
  intros H.
  assert (Hrun : forall s0, tick s0 = tick s ->
            try_catch
              (email <- input_value env "email" ;;
               password <- input_value env "password" ;;
               emit (ESignIn email password) ;;;
               await (fun n => env_signIn env n email password))
              (fun err => alert (message err)) s0 =
            (Ok tt, run (alert (message err))
                        (set_tick (S (S (S (tick s))))
                           (set_trace (trace s0 ++ [ESignIn (env_value env (tick s) "email")
                                                        (env_value env (S (tick s)) "password")])
                              s0)))).
  { intros s0 Ht. erewrite try_catch_throw; [reflexivity|].
    unfold input_value. rewrite bind_ask. rewrite bind_ask. rewrite bind_emit.
    unfold await. cbn [tick set_tick set_trace]. rewrite Ht, H. now destruct s0. }
  unfold result, new_effects, run, loginSubmit, showLoader, finally, dom.
  destruct (loaderEl env).
  - rewrite bind_emit. rewrite Hrun by reflexivity. cbn.
    split; [reflexivity|]. rewrite <- !app_assoc, skipn_length_app. cbn. tauto.
  - rewrite bind_ret. rewrite Hrun by reflexivity. cbn.
    split; [reflexivity|]. rewrite <- !app_assoc, skipn_length_app. cbn. tauto.
Qed.

Lemma refresh_on_failure s e s1 :
  api env "/api/cameras" GET s = (Throw e, s1) -> refresh env s = (Throw e, s1).
Proof. intros H. unfold refresh. now apply bind_throw. Qed.

Lemma langSubmit_on_failure inputId s e s1 :
  api env "/api/user_language"
      (POST (Some (JObj [("language", JStr (env_value env (tick s) inputId))])))
      (set_tick (S (tick s)) s) = (Throw e, s1) ->
  langSubmit env inputId s = (Throw e, s1).
Proof.
  intros H. unfold langSubmit, input_value. rewrite bind_ask. now apply bind_throw.
Qed.

Lemma resolveClick_on_failure action fields d ds s e s1 :
  assoc "detections" fields = JArr (JObj d :: ds) ->
  api env "/api/alerts/resolve"
      (POST (Some (resolve_body action (JObj fields) (assoc "label" d)))) s = (Throw e, s1) ->
  resolveClick env action (JObj fields) s = (Throw e, s1).
Proof.
  intros Hd H. unfold resolveClick, getProp. cbn [prop]. rewrite bind_ret, Hd.
  rewrite bind_ret. cbn [first hd prop]. rewrite bind_ret. now apply bind_throw.
Qed.

End Failures.

(** *** Where failures go (C1) *)

(** The claim, read on the status polls: a poll whose request fails
    leaves an alert or a console entry. *)
Definition failed_poll_surfaces : Prop :=
  forall env cb s e s1,
    is_status_poll cb = true ->
    api env "/api/status" GET s = (Throw e, s1) ->
    existsb surfaces (new_effects (run_callback env cb) s) = true.

(** Against C1 as stated: the interval of the admin dashboard drops the
    failure; after a failed poll the trace holds the request and nothing
    else. *)
Lemma dashboard_poll_is_silent : ~ failed_poll_surfaces.
Proof.
  intros H.
  specialize (H outage AdminStatusPoll (initial_store "")
                (Err "HTTP 500")
                (run (api outage "/api/status" GET) (initial_store ""))
                eq_refl eq_refl).
  vm_compute in H. discriminate H.
Qed.

(** C1, as the code has it.  [api] itself shows nothing.  A refused
    sign-in is alerted.  A refused webcam, a failed start or stop of the
    cameras, a failed poll of the live picture and a failed frame upload
    are written to the console.  The repeating polls of the two
    dashboards drop a failure without a trace.  A failed request in
    [refresh], in a language form or behind the Verify and Dismiss
    buttons is not caught: the handler ends with that error and the
    script neither alerts nor logs it. *)
Theorem failures_alerted_logged_or_dropped env :
  (forall path options s, existsb surfaces (new_effects (api env path options) s) = false) /\
  (forall s err,
     env_signIn env (S (S (tick s))) (env_value env (tick s) "email")
                (env_value env (S (tick s)) "password") = Throw err ->
     result (loginSubmit env) s = Ok tt /\
     In (EAlert (message err)) (new_effects (loginSubmit env) s)) /\
  (forall video s err,
     env_getUserMedia env (tick s) = Throw err ->
     startBrowserCamera env video s =
     (Ok tt, run (console_error [JStr "Could not access webcam:"; err_value err])
                 (set_tick (S (tick s)) (set_trace (trace s ++ [EGetUserMedia]) s)))) /\
  (forall s e s1,
     api env "/api/start_cameras" (POST None) s = (Throw e, s1) ->
     startCameras env s =
     (Ok tt, run (console_error [JStr "Could not start cameras:"; err_value e]) s1)) /\
  (forall s e s1,
     api env "/api/stop_cameras" (POST None) s = (Throw e, s1) ->
     stopCameras env s =
     (Ok tt, run (console_error [JStr "Could not stop cameras:"; err_value e]) s1)) /\
  (forall s e s1,
     api env "/api/status" GET s = (Throw e, s1) ->
     checkAndSwap env s =
     (Ok tt, run (console_debug [JStr "status poll failed";
                                 or_else (JStr (message e)) (err_value e)]) s1) /\
     adminStatusPoll env s = (Ok tt, s1) /\
     personnelStatusPoll env s = (Ok tt, s1)) /\
  (forall video s e s1,
     env_frame_ready env (tick s) = true ->
     api env "/api/upload_frame" (frame_upload env s) (before_upload s) = (Throw e, s1) ->
     sendFrame env video s =
     (Ok tt, run (console_error [JStr "upload_frame failed"; JStr (message e)] ;;;
                  setTimeout (SendFrame video) 1000) s1)) /\
  (forall s e s1,
     api env "/api/cameras" GET s = (Throw e, s1) -> refresh env s = (Throw e, s1)) /\
  (forall inputId s e s1,
     api env "/api/user_language"
         (POST (Some (JObj [("language", JStr (env_value env (tick s) inputId))])))
         (set_tick (S (tick s)) s) = (Throw e, s1) ->
     langSubmit env inputId s = (Throw e, s1)) /\
  (forall action fields d ds s e s1,
     assoc "detections" fields = JArr (JObj d :: ds) ->
     api env "/api/alerts/resolve"
         (POST (Some (resolve_body action (JObj fields) (assoc "label" d)))) s
       = (Throw e, s1) ->
     resolveClick env action (JObj fields) s = (Throw e, s1)).
Proof.
  split; [exact (api_shows_nothing env)|].
  split; [exact (loginSubmit_on_refusal env)|].
  split; [exact (startBrowserCamera_on_refusal env)|].
  split; [exact (startCameras_on_failure env)|].
  split; [exact (stopCameras_on_failure env)|].
  split.
  { intros s e s1 H. split; [|split].
    - exact (checkAndSwap_on_failure env s e s1 H).
    - exact (adminStatusPoll_on_failure env s e s1 H).
    - exact (personnelStatusPoll_on_failure env s e s1 H). }
  split; [exact (sendFrame_on_failure env)|].
  split; [exact (refresh_on_failure env)|].
  split; [exact (langSubmit_on_failure env)|].
  exact (resolveClick_on_failure env).
Qed.

Lemma failures_alerted_logged_or_dropped_witness :
  In (EAlert "auth/wrong-password") (new_effects (loginSubmit outage) (initial_store "")) /\
  new_effects (checkAndSwap outage) (initial_store "") =
    [EFetch "/api/status" (mkInit None None "Bearer null");
     EConsole DebugLevel [JStr "status poll failed"; JStr "HTTP 500"]] /\
  new_effects (adminStatusPoll outage) (initial_store "") =
    [EFetch "/api/status" (mkInit None None "Bearer null")] /\
  result (resolveClick outage "verify" (JObj [("detections", JArr [JObj [("label", JStr "weapon")]])]))
         (initial_store "") = Throw (Err "HTTP 500").
Proof.
  destruct (failures_alerted_logged_or_dropped outage)
    as (_ & Hlogin & _ & _ & _ & Hpoll & _ & _ & _ & Hclick).
  split; [|split; [|split]].
  - exact (proj2 (Hlogin (initial_store "") (Err "auth/wrong-password") eq_refl)).
  - destruct (Hpoll (initial_store "") (Err "HTTP 500")
                (run (api outage "/api/status" GET) (initial_store "")) eq_refl)
      as (H & _ & _).
    unfold new_effects, run. rewrite H. reflexivity.
  - destruct (Hpoll (initial_store "") (Err "HTTP 500")
                (run (api outage "/api/status" GET) (initial_store "")) eq_refl)
      as (_ & H & _).
    unfold new_effects, run. rewrite H. reflexivity.
  - unfold result.
    rewrite (Hclick "verify" [("detections", JArr [JObj [("label", JStr "weapon")]])]
               [("label", JStr "weapon")] [] (initial_store "") (Err "HTTP 500")
               (run (api outage "/api/alerts/resolve"
                       (POST (Some (resolve_body "verify"
                          (JObj [("detections", JArr [JObj [("label", JStr "weapon")]])])
                          (JStr "weapon")))))
                    (initial_store ""))
               eq_refl eq_refl).
    reflexivity.
Defined.

(** *** What happens after a failure (C5) *)

(** The claim, read on the live picture: after a failed load the script
    does not turn to another source. *)
Definition no_fallback_source : Prop :=
  forall s, img_src (run imgOnError s) = img_src s.

(** Against C5 as stated: in the admin session the picture shows the
    feed; when it fails to load, [imgEl.onerror] puts the placeholder in
    its place. *)
Lemma live_picture_falls_back : ~ no_fallback_source.
Proof.
  intros H. specialize (H admin_session).
  vm_compute in H. discriminate H.
Qed.

(** The next poll then asks for the feed once more. *)
Example feed_requested_again :
  new_effects (imgOnError ;;; checkAndSwap healthy) admin_session =
  [EImgSrc "/static/placeholder.jpg";
   EFetch "/api/status" (mkInit None None "Bearer token");
   EImgSrc "/api/video_feed?ts=28000"].
Proof. vm_compute. reflexivity. Qed.

Lemma imgOnError_run s :
  if live_is (img_live s) "1"
  then result imgOnError s = Ok tt /\
       img_src (run imgOnError s) = PLACEHOLDER_SRC /\
       img_live (run imgOnError s) = Some "0" /\
       new_effects imgOnError s = [EImgSrc PLACEHOLDER_SRC]
  else imgOnError s = (Ok tt, s).
Proof.
  unfold imgOnError. destruct (live_is (img_live s) "1") eqn:E.
  - unfold result, new_effects, run. rewrite bind_gets, E.
    unfold imgEl_src, imgEl_live. rewrite bind_assoc, bind_modify, bind_emit.
    unfold modify. cbn. repeat split. apply skipn_length_app.
  - now rewrite bind_gets, E.
Qed.

(** C5, as the code has it.  [api] sends at most one request and leaves
    the script's state alone, whatever the answer.  After a failed
    request the poll of the live picture only logs, the polls of the
    dashboards do nothing, and [sendFrame] logs and then schedules the
    next frame after 1000 ms exactly as it does after a success.  The
    one recovery is in the live picture: when it fails to load while
    live, [imgEl.onerror] falls back to the placeholder and marks the
    picture as not live. *)
Theorem failed_requests_not_retried env :
  (forall path options s,
     script_state (run (api env path options) s) = script_state s /\
     (new_effects (api env path options) s = [] \/
      exists init, new_effects (api env path options) s = [EFetch path init])) /\
  (forall s e s1,
     api env "/api/status" GET s = (Throw e, s1) ->
     checkAndSwap env s =
     (Ok tt, run (console_debug [JStr "status poll failed";
                                 or_else (JStr (message e)) (err_value e)]) s1) /\
     adminStatusPoll env s = (Ok tt, s1) /\
     personnelStatusPoll env s = (Ok tt, s1)) /\
  (forall video s e s1,
     env_frame_ready env (tick s) = true ->
     api env "/api/upload_frame" (frame_upload env s) (before_upload s) = (Throw e, s1) ->
     sendFrame env video s =
     (Ok tt, run (console_error [JStr "upload_frame failed"; JStr (message e)] ;;;
                  setTimeout (SendFrame video) 1000) s1)) /\
  (forall video s res s1,
     env_frame_ready env (tick s) = true ->
     api env "/api/upload_frame" (frame_upload env s) (before_upload s) = (Ok res, s1) ->
     sendFrame env video s =
     (Ok tt, run (maybePlaySiren env res ;;; setTimeout (SendFrame video) 1000) s1)) /\
  (forall s,
     if live_is (img_live s) "1"
     then result imgOnError s = Ok tt /\
          img_src (run imgOnError s) = PLACEHOLDER_SRC /\
          img_live (run imgOnError s) = Some "0" /\
          new_effects imgOnError s = [EImgSrc PLACEHOLDER_SRC]
     else imgOnError s = (Ok tt, s)).
Proof.
  split; [exact (api_effects env)|].
  split.
  { intros s e s1 H. split; [|split].
    - exact (checkAndSwap_on_failure env s e s1 H).
    - exact (adminStatusPoll_on_failure env s e s1 H).
    - exact (personnelStatusPoll_on_failure env s e s1 H). }
  split; [exact (sendFrame_on_failure env)|].
  split; [exact (sendFrame_on_success env)|].
  exact imgOnError_run.
Qed.

Lemma failed_requests_not_retried_witness :
  new_effects (sendFrame outage "browserCam") (initial_store "") =
    [EFetch "/api/upload_frame"
            (mkInit (Some "POST") (Some (JObj [("frame", JStr "data:image/jpeg;base64,")]))
                    "Bearer null");
     EConsole ErrorLevel [JStr "upload_frame failed"; JStr "HTTP 500"];
     ESetTimeout (SendFrame "browserCam") 1000] /\
  new_effects (personnelStatusPoll outage) (initial_store "") =
    [EFetch "/api/status" (mkInit None None "Bearer null")] /\
  img_src (run imgOnError admin_session) = "/static/placeholder.jpg".
Proof.
  destruct (failed_requests_not_retried outage) as (_ & Hpoll & Hframe & _ & _).
  destruct (failed_requests_not_retried healthy) as (_ & _ & _ & _ & Himg).
  split; [|split].
  - unfold new_effects, run.
    rewrite (Hframe "browserCam" (initial_store "") (Err "HTTP 500")
               (run (api outage "/api/upload_frame" (frame_upload outage (initial_store ""))
                       ) (before_upload (initial_store "")))
               eq_refl eq_refl).
    reflexivity.
  - destruct (Hpoll (initial_store "") (Err "HTTP 500")
                (run (api outage "/api/status" GET) (initial_store "")) eq_refl)
      as (_ & _ & H).
    unfold new_effects, run. rewrite H. reflexivity.
  - specialize (Himg admin_session).
    change (live_is (img_live admin_session) "1") with true in Himg.
    exact (proj1 (proj2 Himg)).
Defined.

(** * Further properties of the script *)

(** ** What the script keeps in order *)

(** [s.startsWith(p)] *)
Fixpoint starts_with (p s : string) : bool :=
  match p with
  | EmptyString => true
  | String a p' =>
      match s with
      | EmptyString => false
      | String b s' => Ascii.eqb a b && starts_with p' s'
      end
  end.

Definition is_post (m : option string) : bool :=
  match m with Some v => String.eqb v "POST" | None => false end.

Definition absent {A} (o : option A) : bool :=
  match o with Some _ => false | None => true end.

(** The method and body each endpoint is called with, main.js:178, 200,
    262, 304, 328, 336, 371, 379, 413, 420, 449, 466, 477, 487, 515. *)
Definition request_shape (path : string) (init : RequestInit) : bool :=
  if String.eqb path "/api/status" then absent (method init) && absent (body init)
  else if String.eqb path "/api/cameras" then
    (absent (method init) && absent (body init)) ||
    (is_post (method init) && negb (absent (body init)))
  else if String.eqb path "/api/start_cameras" || String.eqb path "/api/stop_cameras" then
    is_post (method init) && absent (body init)
  else is_post (method init) && negb (absent (body init)).

(** What the script does with the database: it reads a user record, the
    detections and the presence list, and it writes, removes and
    disconnect-guards presence flags only. *)
Definition effect_tidy (e : Effect) : bool :=
  match e with
  | ERtdbGet path =>
      starts_with "/users/" path || String.eqb path "/detections"
      || String.eqb path "/activeAdmins"
  | ERtdbSet path v =>
      starts_with "/activeAdmins/" path && match v with JBool true => true | _ => false end
  | ERtdbRemove path | ERtdbOnDisconnectRemove path => starts_with "/activeAdmins/" path
  | EFetch path init => request_shape path init
  | EBeacon path _ => String.eqb path "/api/check_stop_cameras"
  | _ => true
  end.

(** The flag [dataset.live] against the source of the picture. *)
Definition picture_ok (src : string) (live : option string) : bool :=
  match live with
  | None => String.eqb src ""
  | Some v =>
      if String.eqb v "1" then String.eqb (url_path src) "/api/video_feed"
      else if String.eqb v "0" then String.eqb src PLACEHOLDER_SRC
      else false
  end.

Record tidy (s : Store) : Prop := mkTidy {
  tidy_timers : map timer_id (timers s) = pageIntervals s;
  tidy_picture : picture_ok (img_src s) (img_live s) = true;
  tidy_siren : lastSirenAt s = List.last (play_times (trace s)) 0;
  tidy_trace : forallb effect_tidy (trace s) = true;
  tidy_presence : match adminPresenceRef s with
                  | Some p => starts_with "/activeAdmins/" p = true
                  | None => True
                  end
}.

(** The obligation of an update that leaves the five parts alone or adds
    an effect that is in order. *)
Ltac tidy_update :=
  let s := fresh "s" in
  intros s [? ? ? ? ?]; constructor; store_simpl;
  try assumption;
  first
    [ rewrite play_times_app; cbn [play_times flat_map app]; rewrite app_nil_r; assumption
    | rewrite forallb_app; apply andb_true_iff; split; [assumption | reflexivity]
    | reflexivity
    | exact I ].

Lemma cleared_all ids : forall ts,
  (forall t, In t ts -> In (timer_id t) ids) ->
  fold_left (fun ts id => List.filter (fun t => negb (Nat.eqb (timer_id t) id)) ts) ids ts = [].
Proof.
  induction ids as [|id ids IH]; intros ts H; simpl.
  - destruct ts as [|t ts]; [reflexivity|]. destruct (H t (or_introl eq_refl)).
  - apply IH. intros t Ht. apply filter_In in Ht as [Ht Hne].
    destruct (H t Ht) as [E|Hin]; [|exact Hin].
    subst id. rewrite Nat.eqb_refl in Hne. discriminate Hne.
Qed.

Lemma play_times_clear ids : play_times (map EClearInterval ids) = [].
Proof. induction ids; simpl; auto. Qed.

Lemma effect_tidy_clear ids : forallb effect_tidy (map EClearInterval ids) = true.
Proof. induction ids; simpl; auto. Qed.

Lemma tidy_clearPageIntervals : preserves tidy clearPageIntervals.
Proof.
  intros s [H1 H2 H3 H4 H5]. unfold run. rewrite clearPageIntervals_run.
  constructor; store_simpl; try assumption.
  - rewrite cleared_all; [reflexivity|].
    intros t Ht. rewrite <- H1. now apply in_map.
  - now rewrite play_times_app, play_times_clear, app_nil_r.
  - now rewrite forallb_app, H4, effect_tidy_clear.
Qed.

Lemma tidy_addInterval cb ms : preserves tidy (addInterval cb ms).
Proof.
  intros s [H1 H2 H3 H4 H5]. unfold run, addInterval, setInterval.
  rewrite bind_assoc, bind_gets, bind_assoc, bind_modify, bind_assoc, bind_emit,
    bind_ret, bind_modify.
  constructor; store_simpl; try assumption.
  - now rewrite List.map_app, H1.
  - now rewrite play_times_app, app_nil_r.
  - now rewrite forallb_app, H4.
Qed.

Lemma tidy_maybePlaySiren env payload : preserves tidy (maybePlaySiren env payload).
Proof.
  intros s [H1 H2 H3 H4 H5]. unfold run. rewrite maybePlaySiren_run. cbv zeta.
  destruct (_ || _); [now constructor|].
  destruct (_ <? _); constructor; store_simpl; try assumption.
  - rewrite play_times_app. cbn [play_times flat_map app]. now rewrite List.last_last.
  - now rewrite forallb_app, H4.
Qed.

Lemma tidy_removePresence env : preserves tidy (removePresence env).
Proof.
  intros s H. unfold run, removePresence. rewrite bind_gets.
  pose proof (tidy_presence s H) as Hp.
  destruct (adminPresenceRef s) as [p|]; [|exact H].
  assert (Hk : preserves tidy (rtdb_remove env p;;; modify (set_adminPresenceRef None))).
  { apply preserves_bind; [|intros; repeat preserves_step tidy_update].
    unfold rtdb_remove.
    apply preserves_bind; [|intros; repeat preserves_step tidy_update].
    apply preserves_emit.
    intros s0 [? ? ? ? ?]; constructor; store_simpl; try assumption.
    - now rewrite play_times_app, app_nil_r.
    - rewrite forallb_app. cbn [forallb effect_tidy].
      rewrite Hp. now apply andb_true_iff. }
  exact (Hk s H).
Qed.

(** The source and the flag of the picture change together. *)
Lemma tidy_picture_set src v (k : M unit) :
  picture_ok src (Some v) = true -> preserves tidy k ->
  preserves tidy (imgEl_src src ;;; imgEl_live v ;;; k).
Proof.
  intros Hok Hk s [H1 H2 H3 H4 H5]. unfold run, imgEl_src, imgEl_live.
  rewrite bind_assoc, bind_modify, bind_emit, bind_modify.
  apply Hk. constructor; store_simpl; try assumption.
  - now rewrite play_times_app, app_nil_r.
  - now rewrite forallb_app, H4.
Qed.

Lemma tidy_picture_set_last src v :
  picture_ok src (Some v) = true -> preserves tidy (imgEl_src src ;;; imgEl_live v).
Proof.
  intros Hok s [H1 H2 H3 H4 H5]. unfold run, imgEl_src, imgEl_live.
  rewrite bind_assoc, bind_modify, bind_emit.
  constructor; store_simpl; try assumption.
  - now rewrite play_times_app, app_nil_r.
  - now rewrite forallb_app, H4.
Qed.

Lemma tidy_picture_live env :
  preserves tidy (src <- LIVE_SRC env ;; imgEl_src src ;;; imgEl_live "1").
Proof.
  intros s H. unfold run, LIVE_SRC. rewrite bind_assoc, bind_ask, bind_ret.
  apply (tidy_picture_set_last _ "1"); [reflexivity|].
  revert s H. tidy_update.
Qed.

Ltac tidy_step :=
  lazymatch goal with
  | |- preserves tidy clearPageIntervals => apply tidy_clearPageIntervals
  | |- preserves tidy (addInterval _ _) => apply tidy_addInterval
  | |- preserves tidy (maybePlaySiren _ _) => apply tidy_maybePlaySiren
  | |- preserves tidy (removePresence _) => apply tidy_removePresence
  | |- preserves tidy (bind (LIVE_SRC _) _) => apply tidy_picture_live
  | |- preserves tidy (bind (imgEl_src _) (fun _ => bind (imgEl_live _) _)) =>
      apply tidy_picture_set; [reflexivity|]
  | |- preserves tidy (bind (imgEl_src _) (fun _ => imgEl_live _)) =>
      apply tidy_picture_set_last; reflexivity
  | |- _ => preserves_step tidy_update
  end.

Lemma tidy_handle env ev : preserves tidy (handle env ev).
Proof.
  destruct ev as [| | | | |event payload| |cb| | | | | | |]; cbn [handle].
  6: { unfold socket_emit, socket_listeners. cbn [List.filter fst].
       destruct (String.eqb "pending_detection" event);
         destruct (String.eqb "high_threat" event); cbn [forEach snd];
         repeat tidy_step. }
  7: { destruct cb; cbn [run_callback]; repeat tidy_step. }
  all: repeat tidy_step.
Qed.

Lemma reachable_tidy env s : reachable env s -> tidy s.
Proof.
  induction 1 as [hash|s ev _ IH].
  - constructor; reflexivity || exact I.
  - exact (tidy_handle env ev s IH).
Qed.

(** *** Page-scoped intervals, main.js:25-35 *)

Lemma no_timers_showLogin env : preserves (fun s => timers s = []) (showLogin env).
Proof.
  unfold showLogin. apply preserves_bind.
  - intros s H. unfold run. rewrite clearPageIntervals_run. store_simpl.
    rewrite H. apply cleared_all. intros t [].
  - intros. repeat preserves_step ltac:(intros ? ?; assumption).
Qed.

(** X1.  The intervals the browser runs are exactly the ones recorded in
    [pageIntervals], in the order of their registration; so
    [clearPageIntervals] stops every interval, and when [route] shows the
    login screen or only redirects, no interval is left running. *)
Theorem intervals_are_page_scoped env s :
  reachable env s ->
  map timer_id (timers s) = pageIntervals s /\
  timers (run clearPageIntervals s) = [] /\
  pageIntervals (run clearPageIntervals s) = [] /\
  (currentUser s = None -> timers (run (route env) s) = []) /\
  (forall u, currentUser s = Some u ->
     permitted_page (if String.eqb (location_hash s) "" then "#/login" else location_hash s)
                    (currentRole s) = None ->
     timers (run (route env) s) = []).
Proof.
  intros Hr. pose proof (tidy_timers s (reachable_tidy env s Hr)) as Ht.
  assert (Hclear : timers (run clearPageIntervals s) = []).
  { unfold run. rewrite clearPageIntervals_run. store_simpl.
    apply cleared_all. intros t Hin. rewrite <- Ht. now apply in_map. }
  split; [exact Ht|]. split; [exact Hclear|]. split; [|split].
  - unfold run. now rewrite clearPageIntervals_run.
  - intros Hu. unfold run at 1. rewrite (route_signed_out env s Hu).
    pose proof (clearPageIntervals_run s) as Hc.
    rewrite (bind_ok _ _ _ _ _ Hc).
    apply (no_timers_showLogin env). unfold run in Hclear. now rewrite Hc in Hclear.
  - intros u Hu Hp. unfold run at 1. rewrite (route_signed_in env s u Hu). cbv zeta.
    rewrite Hp. unfold set_location_hash', route_prelude.
    rewrite bind_modify. store_simpl.
    unfold run in Hclear. rewrite clearPageIntervals_run in Hclear. exact Hclear.
Qed.

Lemma intervals_are_page_scoped_witness :
  map timer_id (timers admin_session) = [0%nat; 1%nat] /\
  timers (run clearPageIntervals admin_session) = [].
Proof.
  destruct (intervals_are_page_scoped healthy admin_session admin_session_reachable)
    as (H1 & H2 & _).
  vm_compute in H1. vm_compute in H2. split; [exact H1 | exact H2].
Defined.

(** *** The live picture, main.js:253-284 *)

(** X2.  The flag [dataset.live] always tells what the picture shows:
    it is only ever ['0'] or ['1'], with ['1'] the source is the video
    feed, and with ['0'] it is the placeholder. *)
Theorem live_flag_matches_source env s v :
  reachable env s ->
  img_live s = Some v ->
  (v = "0" /\ img_src s = PLACEHOLDER_SRC) \/
  (v = "1" /\ url_path (img_src s) = "/api/video_feed").
Proof.
  intros Hr Hv. pose proof (tidy_picture s (reachable_tidy env s Hr)) as H.
  unfold picture_ok in H. rewrite Hv in H.
  destruct (String.eqb_spec v "1") as [E|_].
  - right. apply String.eqb_eq in H. auto.
  - destruct (String.eqb_spec v "0") as [E|_]; [|discriminate H].
    left. apply String.eqb_eq in H. auto.
Qed.

Lemma live_flag_matches_source_witness :
  url_path (img_src admin_session) = "/api/video_feed".
Proof.
  pose proof (live_flag_matches_source healthy admin_session "1"
                admin_session_reachable eq_refl) as H.
  vm_compute in H. vm_compute.
  destruct H as [[H _]|[_ H]]; [discriminate H | exact H].
Defined.

(** *** The siren's memory, main.js:43-61 *)

(** X3.  [lastSirenAt] is 0 until the siren is first started and from
    then on the clock reading of the latest start: nothing else moves
    it. *)
Theorem lastSirenAt_is_latest_start env s :
  reachable env s -> lastSirenAt s = List.last (play_times (trace s)) 0.
Proof. intros Hr. exact (tidy_siren s (reachable_tidy env s Hr)). Qed.

Lemma lastSirenAt_is_latest_start_witness : lastSirenAt alarm_session = 13000.
Proof.
  pose proof (lastSirenAt_is_latest_start healthy alarm_session alarm_session_reachable) as H.
  vm_compute in H. vm_compute. exact H.
Defined.

(** *** Use of the database, main.js:122-126, 156-227, 431-444 *)

Lemma tidy_effect s e : tidy s -> In e (trace s) -> effect_tidy e = true.
Proof. intros H Hin. pose proof (tidy_trace s H) as Ht. rewrite forallb_forall in Ht. auto. Qed.

(** X4.  The script reads a user's record, the detections and the
    presence list, and nothing else; the only value it writes is the
    presence flag [true] under [/activeAdmins/], and it removes or
    disconnect-guards presence flags only.  Users and detections are
    never written. *)
Theorem database_is_read_except_presence env s :
  reachable env s ->
  (forall path, In (ERtdbGet path) (trace s) ->
     starts_with "/users/" path = true \/ path = "/detections" \/ path = "/activeAdmins") /\
  (forall path v, In (ERtdbSet path v) (trace s) ->
     starts_with "/activeAdmins/" path = true /\ v = JBool true) /\
  (forall path, In (ERtdbRemove path) (trace s) ->
     starts_with "/activeAdmins/" path = true) /\
  (forall path, In (ERtdbOnDisconnectRemove path) (trace s) ->
     starts_with "/activeAdmins/" path = true).
Proof.
  intros Hr. pose proof (reachable_tidy env s Hr) as Ht.
  split; [|split; [|split]].
  - intros path Hin. pose proof (tidy_effect _ _ Ht Hin) as H. cbn [effect_tidy] in H.
    apply orb_true_iff in H as [H|H]; [apply orb_true_iff in H as [H|H]|].
    + auto.
    + apply String.eqb_eq in H. auto.
    + apply String.eqb_eq in H. auto.
  - intros path v Hin. pose proof (tidy_effect _ _ Ht Hin) as H. cbn [effect_tidy] in H.
    apply andb_true_iff in H as [H1 H2]. split; [exact H1|].
    destruct v as [| |[|]| | | |]; try discriminate H2. reflexivity.
  - intros path Hin. exact (tidy_effect _ _ Ht Hin).
  - intros path Hin. exact (tidy_effect _ _ Ht Hin).
Qed.

Lemma database_is_read_except_presence_witness :
  starts_with "/activeAdmins/" "/activeAdmins/alice" = true /\ JBool true = JBool true.
Proof.
  destruct (database_is_read_except_presence healthy admin_session admin_session_reachable)
    as (_ & Hset & _).
  apply (Hset "/activeAdmins/alice" (JBool true)). in_list.
Defined.

(** *** The shape of the requests *)

(** X5.  [/api/status] is only ever asked with the default method and no
    body; the cameras are started and stopped by a POST without body;
    frames, alert resolutions, the language and new users are sent by a
    POST with a body; [/api/cameras] is read without body or posted with
    one; and the only beacon goes to [/api/check_stop_cameras]. *)
Theorem requests_have_fixed_shape env s :
  reachable env s ->
  (forall path init, In (EFetch path init) (trace s) -> request_shape path init = true) /\
  (forall init, In (EFetch "/api/status" init) (trace s) ->
     method init = None /\ body init = None) /\
  (forall path data, In (EBeacon path data) (trace s) -> path = "/api/check_stop_cameras").
Proof.
  intros Hr. pose proof (reachable_tidy env s Hr) as Ht.
  split; [|split].
  - intros path init Hin. exact (tidy_effect _ _ Ht Hin).
  - intros init Hin. pose proof (tidy_effect _ _ Ht Hin) as H.
    cbn in H. apply andb_true_iff in H as [H1 H2].
    destruct (method init); [discriminate H1|]. destruct (body init); [discriminate H2|].
    auto.
  - intros path data Hin. pose proof (tidy_effect _ _ Ht Hin) as H.
    now apply String.eqb_eq in H.
Qed.

Lemma requests_have_fixed_shape_witness :
  request_shape "/api/start_cameras" (mkInit (Some "POST") None "Bearer token") = true.
Proof.
  destruct (requests_have_fixed_shape healthy admin_session admin_session_reachable)
    as (H & _ & _).
  apply H. in_list.
Defined.

(** ** Handlers that cannot fail *)

(** X6.  The callbacks the script hands to [setInterval] and
    [setTimeout] (the poll of the live picture, the polls of the two
    dashboards and the frame upload) never end with an error, whatever
    the server, the token service or the page do. *)
Theorem timer_callbacks_never_throw env cb s : result (run_callback env cb) s = Ok tt.
Proof.
  assert (H : never_throws (run_callback env cb)).
  { destruct cb; cbn [run_callback]; repeat never_throws_step. }
  destruct (H s) as [[] Ha]. exact Ha.
Qed.

(** [sendFrame] leaves the interval tables alone. *)
Definition same_intervals (s0 s : Store) : Prop :=
  timers s = timers s0 /\ pageIntervals s = pageIntervals s0.

Ltac same_intervals_update :=
  let s := fresh "s" in let H := fresh "H" in
  intros s H; unfold same_intervals in *; store_simpl; exact H.

(** X7.  [sendFrame] always ends by scheduling itself again after 1000
    ms: when the video is not ready, after an upload, and after a failed
    upload alike.  It touches neither the browser's intervals nor
    [pageIntervals], so [clearPageIntervals] does not stop the loop. *)
Theorem sendFrame_always_reschedules env video s :
  exists s',
    sendFrame env video s =
      (Ok tt, set_trace (trace s' ++ [ESetTimeout (SendFrame video) 1000]) s') /\
    timers s' = timers s /\ pageIntervals s' = pageIntervals s.
Proof.
  set (upload := fun ready : bool =>
         if ready then
           b64 <- ask (env_toDataURL env) ;;
           try_catch
             (res <- api env "/api/upload_frame" (POST (Some (JObj [("frame", JStr b64)]))) ;;
              maybePlaySiren env res)
             (fun err => console_error [JStr "upload_frame failed"; JStr (message err)])
         else ret tt).
  assert (Hnt : forall ready, never_throws (upload ready)).
  { intros ready. unfold upload. repeat never_throws_step. }
  assert (Hsame : forall ready, preserves (same_intervals s) (upload ready)).
  { intros ready. unfold upload. repeat preserves_step same_intervals_update. }
  unfold sendFrame. rewrite bind_ask. fold (upload (env_frame_ready env (tick s))).
  destruct (never_throws_unit _ (set_tick (S (tick s)) s) (Hnt (env_frame_ready env (tick s))))
    as [s1 H1].
  rewrite (bind_ok _ _ _ _ _ H1). exists s1. split; [reflexivity|].
  pose proof (Hsame (env_frame_ready env (tick s)) (set_tick (S (tick s)) s)) as H.
  unfold run in H. rewrite H1 in H. apply H. split; reflexivity.
Qed.

(** Run a handler symbolically: open the combinators, then read the
    store. *)
Ltac script_simpl := cbv beta iota zeta; store_simpl.

Tactic Notation "script_run" constr(f) :=
  unfold f, input_value, getElementById, getProp, alert, console_log, console_error,
    console_debug, dom, try_catch, finally, bind, ask, await;
  script_simpl.

Lemma new_effects_In {A} (m : M A) s l1 e l2 :
  trace (run m s) = (trace s ++ l1 ++ e :: l2)%list -> In e (new_effects m s).
Proof.
  intros H. rewrite (new_effects_app m s _ H). apply in_or_app. right. now left.
Qed.

(** *** Logging out, main.js:190-213 *)

(** X8.  A click on the logout button always reaches [auth.signOut()]: a
    failed removal of the presence flag, a failed read of the presence
    list or a failed stop of the cameras does not prevent it. *)
Theorem logout_always_signs_out env s : In ESignOut (new_effects (logoutClick env) s).
Proof.
  set (cleanup := fun role : JValue =>
         if is_str role "admin" then
           try_catch
             (removePresence env ;;;
              snap <- rtdb_get env "/activeAdmins" ;;
              if negb (snap_exists snap) then stopCameras env else ret tt)
             (fun _ => ret tt)
         else ret tt).
  set (rest := await (env_signOut env) ;;;
               setMenuToggleVisible env false ;;;
               dom "sidebar.open" [JBool false] ;;;
               (if menuToggleBtn env then dom "menuToggle.open" [JBool false] else ret tt)).
  assert (Hnt : never_throws (cleanup (currentRole s))).
  { unfold cleanup. repeat never_throws_step. }
  assert (Hgrow : preserves (grows (trace s)) (cleanup (currentRole s))).
  { unfold cleanup. repeat preserves_step grows_update. }
  destruct (never_throws_unit _ s Hnt) as [s1 H1].
  destruct (Hgrow s (grows_refl s)) as [l1 Hl1]. unfold run in Hl1. rewrite H1 in Hl1.
  cbn [snd] in Hl1.
  assert (Hrest : forall base, preserves (grows base) rest).
  { intros base. unfold rest. repeat preserves_step grows_update. }
  set (s2 := set_trace (trace s1 ++ [ESignOut]) s1).
  destruct (Hrest (trace s2) s2 (grows_refl s2)) as [l2 Hl2].
  apply (new_effects_In _ _ l1 ESignOut l2).
  unfold run, logoutClick. rewrite bind_gets. fold (cleanup (currentRole s)).
  rewrite (bind_ok _ _ _ _ _ H1), bind_emit. fold rest. fold s2.
  unfold run in Hl2. rewrite Hl2. unfold s2. store_simpl. rewrite Hl1.
  now rewrite <- !app_assoc.
Qed.

(** *** The login form, main.js:109-119 *)

(** X9.  Submitting the login form never ends with an error, and the
    loader that is shown at the start is hidden again at the end,
    whether the sign-in went through or not. *)
Theorem login_always_hides_loader env s :
  result (loginSubmit env) s = Ok tt /\
  (loaderEl env = true ->
   exists mid, new_effects (loginSubmit env) s =
               (EDom "loader.hidden" [JBool false] :: mid
                  ++ [EDom "loader.hidden" [JBool true]])%list).
Proof.
  set (attempt := try_catch
         (email <- input_value env "email" ;;
          password <- input_value env "password" ;;
          emit (ESignIn email password) ;;;
          await (fun n => env_signIn env n email password))
         (fun err => alert (message err))).
  assert (Hnt : never_throws attempt).
  { unfold attempt. repeat never_throws_step. }
  assert (Hgrow : forall base, preserves (grows base) attempt).
  { intros base. unfold attempt. repeat preserves_step grows_update. }
  split.
  - assert (H : never_throws (loginSubmit env)).
    { unfold loginSubmit. fold attempt. unfold showLoader.
      destruct (loaderEl env); repeat never_throws_step; exact Hnt. }
    destruct (H s) as [[] Ha]. exact Ha.
  - intros Hloader. unfold new_effects, run, loginSubmit, showLoader. fold attempt.
    rewrite Hloader. cbn [negb]. unfold dom. rewrite bind_emit.
    set (s0 := set_trace (trace s ++ [EDom "loader.hidden" [JBool false]]) s).
    destruct (never_throws_unit _ s0 Hnt) as [s1 H1].
    destruct (Hgrow (trace s0) s0 (grows_refl s0)) as [mid Hmid].
    unfold run in Hmid. rewrite H1 in Hmid. cbn [snd] in Hmid.
    unfold finally. rewrite H1. store_simpl. rewrite Hmid. unfold s0. store_simpl.
    exists mid. rewrite <- !app_assoc. apply skipn_length_app.
Qed.

Lemma login_always_hides_loader_witness :
  exists mid, new_effects (loginSubmit outage) (initial_store "") =
              (EDom "loader.hidden" [JBool false] :: mid
                 ++ [EDom "loader.hidden" [JBool true]])%list.
Proof. exact (proj2 (login_always_hides_loader outage (initial_store "")) eq_refl). Defined.

(** *** Changing the password, main.js:493-506 and 520-533 *)

(** X10.  The password forms never end with an error.  The password is
    sent for update only after the re-authentication with the old one
    has succeeded; when that is refused, the refusal is alerted and
    nothing else happens. *)
Theorem password_needs_reauthentication env oldId newId s :
  result (pwSubmit env oldId newId) s = Ok tt /\
  (forall pw, In (EUpdatePassword pw) (new_effects (pwSubmit env oldId newId) s) ->
     env_reauthenticate env (S (S (tick s))) = Ok tt) /\
  (forall u err,
     auth_currentUser s = Some u ->
     env_reauthenticate env (S (S (tick s))) = Throw err ->
     new_effects (pwSubmit env oldId newId) s =
       [EReauthenticate (email u) (env_value env (tick s) oldId);
        EAlert ("Error updating password: " +:+ message err)]).
Proof.
  split; [|split].
  - assert (H : never_throws (pwSubmit env oldId newId)).
    { unfold pwSubmit. repeat never_throws_step. }
    destruct (H s) as [[] Ha]. exact Ha.
  - intros pw. unfold new_effects, run. script_run pwSubmit.
    destruct (auth_currentUser s) as [u|]; script_simpl.
    + destruct (env_reauthenticate env (S (S (tick s)))) as [[]|err]; [reflexivity|].
      script_simpl. rewrite <- !app_assoc, skipn_length_app.
      intros [H|[H|[]]]; discriminate H.
    + rewrite skipn_length_app. intros [H|[]]; discriminate H.
  - intros u err Hu Hre. unfold new_effects, run. script_run pwSubmit.
    rewrite Hu. script_simpl. rewrite Hre. script_simpl.
    rewrite <- !app_assoc. apply skipn_length_app.
Qed.

(** A world in which the old password is not accepted. *)
Definition wrong_password : Env :=
  mkEnv true true true true [] (fun _ _ => true) (fun _ id => id)
        (fun _ => 0) (fun _ => None) (fun _ => Ok "token")
        (fun _ _ _ => Throw (Err "offline")) (fun _ _ => Ok JNull)
        (fun _ _ => Ok tt) (fun _ _ => Ok tt) (fun _ _ _ => Ok tt)
        (fun _ => Ok tt) (fun _ => Throw (Err "auth/wrong-password"))
        (fun _ => Ok tt) (fun _ => Ok tt) (fun _ => false) (fun _ => "").

Lemma password_needs_reauthentication_witness :
  new_effects (pwSubmit wrong_password "adminOldPw" "adminNewPw")
              (set_auth_currentUser (Some alice) (initial_store "")) =
  [EReauthenticate "alice@example.org" "adminOldPw";
   EAlert "Error updating password: auth/wrong-password"].
Proof.
  exact (proj2 (proj2 (password_needs_reauthentication wrong_password
                         "adminOldPw" "adminNewPw"
                         (set_auth_currentUser (Some alice) (initial_store ""))))
               alice (Err "auth/wrong-password") eq_refl eq_refl).
Defined.

(** *** The auth listener, main.js:156-188 *)

Definition session_is (u : option User) (r : JValue) (p : option string) (s : Store) : Prop :=
  currentUser s = u /\ currentRole s = r /\ adminPresenceRef s = p.

Ltac session_update :=
  let s := fresh "s" in let H := fresh "H" in
  intros s H; unfold session_is in *; store_simpl; exact H.

Lemma showLogin_keeps_session env u r p : preserves (session_is u r p) (showLogin env).
Proof. repeat preserves_step session_update. Qed.

(** X11.  When Firebase reports that nobody is signed in, the listener
    always ends on the login screen with [currentUser] and [currentRole]
    reset to [null], and never with an error.  The presence ref is
    forgotten exactly when its removal went through: if the removal
    fails, the failure is swallowed and the ref stays. *)
Theorem sign_out_resets_session env s :
  let s' := run (onAuthStateChanged env None) s in
  result (onAuthStateChanged env None) s = Ok tt /\
  currentUser s' = None /\ currentRole s' = JNull /\
  adminPresenceRef s' =
    match adminPresenceRef s with
    | None => None
    | Some p => match env_rtdb_remove env (tick s) p with
                | Ok _ => None
                | Throw _ => Some p
                end
    end /\
  exists pre, trace s' = (pre ++ [ERender "loginTpl"])%list.
Proof.
  cbv zeta. split.
  { assert (H : never_throws (onAuthStateChanged env None)).
    { cbn [onAuthStateChanged]. repeat never_throws_step. }
    destruct (H s) as [[] Ha]. exact Ha. }
  set (p' := match adminPresenceRef s with
             | None => None
             | Some p => match env_rtdb_remove env (tick s) p with
                         | Ok _ => None
                         | Throw _ => Some p
                         end
             end).
  assert (H1 : exists s1, try_catch (removePresence env) (fun _ => ret tt) s = (Ok tt, s1)
                          /\ adminPresenceRef s1 = p').
  { unfold p', removePresence, rtdb_remove. script_run removePresence.
    destruct (adminPresenceRef s) as [p|] eqn:Hp; script_simpl.
    - destruct (env_rtdb_remove env (tick s) p) as [[]|e]; script_simpl;
        eexists; (split; [reflexivity|]); store_simpl; auto.
    - eexists. split; [reflexivity|]. exact Hp. }
  destruct H1 as (s1 & H1 & Hp1).
  unfold run. cbn [onAuthStateChanged].
  rewrite (bind_ok _ _ _ _ _ H1), !bind_modify.
  set (s2 := set_currentRole JNull (set_currentUser None s1)).
  pose proof (showLogin_keeps_session env None JNull p' s2) as Hkeep.
  destruct (showLogin_renders env s2) as [s3 H3].
  unfold run in Hkeep. rewrite H3 in *. cbn [snd] in *.
  destruct Hkeep as (Hu & Hr & Hp); [repeat split; exact Hp1|].
  repeat split; try assumption. exists (trace s3). reflexivity.
Qed.

(** X12.  When the role of the user who signed in cannot be read, the
    listener ends with that error right there: the user is recorded, the
    role keeps the value it had, no presence flag is written, no request
    is made and nothing is rendered. *)
Theorem role_lookup_failure_stops_sign_in env u s e :
  env_rtdb_get env (tick s) ("/users/" +:+ uid u) = Throw e ->
  onAuthStateChanged env (Some u) s =
  (Throw e,
   set_tick (S (tick s))
     (set_trace (trace s ++ [ERtdbGet ("/users/" +:+ uid u)])
        (set_currentUser (Some u) s))).
Proof.
  intros H. cbn [onAuthStateChanged]. rewrite bind_modify.
  apply bind_throw. unfold resolveRole, rtdb_get. apply bind_throw.
  rewrite bind_emit. unfold await. store_simpl. now rewrite H.
Qed.

(** A world whose database cannot be reached. *)
Definition database_down : Env :=
  mkEnv true true true true [] (fun _ _ => true) (fun _ id => id)
        (fun _ => 0) (fun _ => None) (fun _ => Ok "token")
        (fun _ _ _ => Throw (Err "offline")) (fun _ _ => Throw (Err "PERMISSION_DENIED"))
        (fun _ _ => Ok tt) (fun _ _ => Throw (Err "PERMISSION_DENIED")) (fun _ _ _ => Ok tt)
        (fun _ => Ok tt) (fun _ => Ok tt)
        (fun _ => Ok tt) (fun _ => Ok tt) (fun _ => false) (fun _ => "").

Lemma role_lookup_failure_stops_sign_in_witness :
  result (onAuthStateChanged database_down (Some alice)) (initial_store "") =
    Throw (Err "PERMISSION_DENIED") /\
  currentRole (run (onAuthStateChanged database_down (Some alice)) (initial_store "")) = JNull.
Proof.
  unfold result, run.
  rewrite (role_lookup_failure_stops_sign_in database_down alice (initial_store "")
             (Err "PERMISSION_DENIED") eq_refl).
  split; reflexivity.
Defined.

(** A stale presence ref survives a sign-out whose removal fails. *)
Example sign_out_keeps_stale_ref :
  adminPresenceRef
    (run (onAuthStateChanged database_down None)
         (set_adminPresenceRef (Some "/activeAdmins/alice") (initial_store ""))) =
  Some "/activeAdmins/alice".
Proof. reflexivity. Qed.

(** *** Routing for odd roles and after a redirect, main.js:229-250 *)

Lemma new_effects_none {A} (m : M A) s : trace (run m s) = trace s -> new_effects m s = [].
Proof.
  intros H. apply new_effects_app. now rewrite app_nil_r.
Qed.

(** X13.  A signed-in user whose stored role is neither ['admin'] nor
    ['personnel'] never gets a page: whatever the hash, [route] renders
    nothing and sets it to the personnel dashboard, which that user may
    not see either. *)
Theorem other_roles_get_no_page env s u :
  currentUser s = Some u ->
  is_str (currentRole s) "admin" = false ->
  is_str (currentRole s) "personnel" = false ->
  result (route env) s = Ok tt /\
  location_hash (run (route env) s) = "#/personnel/dashboard" /\
  (forall tpl, ~ In (ERender tpl) (new_effects (route env) s)) /\
  permitted_page "#/personnel/dashboard" (currentRole s) = None.
Proof.
  intros Hu Ha Hp.
  assert (Hnone : forall hash, permitted_page hash (currentRole s) = None).
  { intros hash. unfold permitted_page. cbn [find all_pages page_role].
    rewrite Ha, Hp, !andb_false_r. reflexivity. }
  pose proof (route_signed_in env s u Hu) as Hr. cbv zeta in Hr. rewrite Hnone in Hr.
  rewrite Ha in Hr.
  unfold set_location_hash' in Hr. rewrite bind_modify in Hr.
  unfold result, new_effects, run. rewrite Hr. store_simpl.
  repeat split; [|apply Hnone].
  intros tpl. unfold route_prelude. store_simpl.
  rewrite <- !app_assoc, skipn_length_app. intros Hin.
  apply in_app_or in Hin as [Hin|Hin].
  - apply in_map_iff in Hin as (x & Hx & _). discriminate Hx.
  - apply in_app_or in Hin as [Hin|[Hin|[]]].
    + apply in_map_iff in Hin as (x & Hx & _). discriminate Hx.
    + discriminate Hin.
Qed.

Lemma other_roles_get_no_page_witness :
  location_hash (run (route healthy)
                     (set_currentRole (JStr "manager")
                        (set_currentUser (Some alice) (initial_store "#/admin/alerts"))))
  = "#/personnel/dashboard".
Proof.
  exact (proj1 (proj2 (other_roles_get_no_page healthy
           (set_currentRole (JStr "manager")
              (set_currentUser (Some alice) (initial_store "#/admin/alerts")))
           alice eq_refl eq_refl eq_refl))).
Defined.

(** X14.  For an admin or a personnel user a redirect is never a dead
    end: when [route] has only set the hash, running it again, as the
    [hashchange] listener does, renders the dashboard of the role. *)
Theorem redirect_leads_to_dashboard env s u :
  currentUser s = Some u ->
  currentRole s = JStr "admin" \/ currentRole s = JStr "personnel" ->
  permitted_page (if String.eqb (location_hash s) "" then "#/login" else location_hash s)
                 (currentRole s) = None ->
  let s' := run (route env) s in
  route env s' =
  renderer env (if is_str (currentRole s) "admin" then AdminDashboard else PersonnelDashboard)
           (route_prelude env s').
Proof.
  intros Hu Hrole Hp. cbv zeta.
  pose proof (route_signed_in env s u Hu) as Hr. cbv zeta in Hr. rewrite Hp in Hr.
  unfold run at 1 2. rewrite Hr. unfold set_location_hash'. rewrite bind_modify.
  store_simpl.
  set (s' := set_trace _ _).
  assert (Hu' : currentUser s' = Some u) by exact Hu.
  rewrite (route_signed_in env s' u Hu'). cbv zeta.
  change (location_hash s')
    with (if is_str (currentRole s) "admin" then "#/admin/dashboard"
          else "#/personnel/dashboard").
  change (currentRole s') with (currentRole s).
  destruct Hrole as [E|E]; rewrite E; reflexivity.
Qed.

(** A personnel user asks for the camera page. *)
Definition kept_out : Store :=
  set_currentRole (JStr "personnel")
    (set_currentUser (Some alice) (initial_store "#/admin/cameras")).

Lemma redirect_leads_to_dashboard_witness :
  route healthy (run (route healthy) kept_out) =
  renderer healthy PersonnelDashboard (route_prelude healthy (run (route healthy) kept_out)).
Proof.
  exact (redirect_leads_to_dashboard healthy kept_out alice
           eq_refl (or_intror eq_refl) eq_refl).
Defined.

(** *** What follows a request *)

(** An answer means the request went out; an error may have come before
    or after it did. *)
Lemma api_sends env path options s :
  match api env path options s with
  | (Ok _, s1) => exists init, trace s1 = (trace s ++ [EFetch path init])%list
  | (Throw _, s1) =>
      trace s1 = trace s \/ exists init, trace s1 = (trace s ++ [EFetch path init])%list
  end.
Proof.
  rewrite api_unfold. unfold api_request.
  destruct (auth_currentUser s); [destruct (env_getIdToken env (tick s)) as [t|e]|];
    store_simpl; try (now left);
    match goal with
    | |- context [env_fetch ?a ?b ?c ?d] => destruct (env_fetch a b c d) as [res|e]
    end;
    try (right; eexists; reflexivity);
    destruct (ok res); try destruct (json res); store_simpl;
    first [ eexists; reflexivity | right; eexists; reflexivity ].
Qed.

(** A handler of the form [await api(...); then]: [then] runs exactly
    when the request was answered well. *)
Lemma after_api env path options (k : M unit) done s0 s :
  trace s = trace s0 ->
  (forall s1, k s1 = (Ok tt, set_trace (trace s1 ++ done) s1)) ->
  let m := fun _ : Store => (_ <- api env path options ;; k) s in
  (result m s0 = Ok tt /\ exists init, new_effects m s0 = EFetch path init :: done) \/
  (exists e, result m s0 = Throw e /\
             (new_effects m s0 = [] \/ exists init, new_effects m s0 = [EFetch path init])).
Proof.
  intros Htr Hk. cbv zeta. unfold result, new_effects, run, bind.
  pose proof (api_sends env path options s) as Hs.
  destruct (api env path options s) as [[v|e] s1].
  - left. destruct Hs as [init Hs]. rewrite Hk. store_simpl.
    split; [reflexivity|]. exists init.
    rewrite Hs, Htr, <- app_assoc. apply skipn_length_app.
  - right. exists e. split; [reflexivity|]. store_simpl.
    destruct Hs as [Hs|[init Hs]]; rewrite Hs, Htr.
    + left. rewrite <- (app_nil_r (trace s0)) at 2. apply skipn_length_app.
    + right. exists init. apply skipn_length_app.
Qed.

(** X15.  Behind the Verify and Dismiss buttons the entry is removed
    from the list exactly when the request was answered well: then the
    handler has made one request to [/api/alerts/resolve] and removed the
    entry; otherwise it ends with an error, has made at most that one
    request, and the entry stays. *)
Theorem entry_removed_only_after_success env action payload s :
  let m := resolveClick env action payload in
  (result m s = Ok tt /\
   exists init, new_effects m s = [EFetch "/api/alerts/resolve" init; EDom "pending.remove" []]) \/
  (exists e, result m s = Throw e /\
             (new_effects m s = [] \/
              exists init, new_effects m s = [EFetch "/api/alerts/resolve" init])).
Proof.
  cbv zeta.
  match goal with
  | |- ?G0 =>
      set (G := G0);
      assert (Hthrow : forall e, resolveClick env action payload s = (Throw e, s) -> G);
      [|assert (Hapi : forall label,
            resolveClick env action payload s =
            (_ <- api env "/api/alerts/resolve"
                    (POST (Some (resolve_body action payload label))) ;;
             dom "pending.remove" []) s -> G)]
  end.
  { intros e H. unfold G. right. exists e. unfold result, new_effects, run. rewrite H.
    split; [reflexivity|].
    left. cbn [snd]. rewrite <- (app_nil_r (trace s)) at 2. apply skipn_length_app. }
  { intros label H. unfold G.
    pose proof (after_api env "/api/alerts/resolve"
                  (POST (Some (resolve_body action payload label)))
                  (dom "pending.remove" []) [EDom "pending.remove" []] s s eq_refl
                  (fun s1 => eq_refl)) as Ha.
    cbv zeta in Ha. unfold result, new_effects, run in *. rewrite H. exact Ha. }
  unfold resolveClick at 1 in Hthrow. unfold resolveClick at 1 in Hapi.
  unfold getProp in Hthrow, Hapi.
  assert (Hlabel : forall d0,
            (forall e, (label <- match d0 with
                                 | JUndefined | JNull => throw TypeError
                                 | _ => ret (prop d0 "label")
                                 end ;;
                        _ <- api env "/api/alerts/resolve"
                               (POST (Some (resolve_body action payload label))) ;;
                        dom "pending.remove" []) s = (Throw e, s) -> G) ->
            (forall label0,
               (label <- match d0 with
                         | JUndefined | JNull => throw TypeError
                         | _ => ret (prop d0 "label")
                         end ;;
                _ <- api env "/api/alerts/resolve"
                       (POST (Some (resolve_body action payload label))) ;;
                dom "pending.remove" []) s =
               (_ <- api env "/api/alerts/resolve"
                       (POST (Some (resolve_body action payload label0))) ;;
                dom "pending.remove" []) s -> G) -> G).
  { intros d0 Ht Ha. destruct d0;
      first [ apply (Ht TypeError); reflexivity | eapply Ha; reflexivity ]. }
  revert Hthrow Hapi.
  destruct payload as [| |b|n|str|l|fields]; intros Hthrow Hapi;
    try (apply (Hthrow TypeError); reflexivity).
  revert Hlabel Hthrow Hapi. cbn [prop].
  destruct (assoc "detections" fields) as [| |b|n|str|l|dfields]; intros Hlabel Hthrow Hapi;
    try (apply (Hthrow TypeError); reflexivity);
    (eapply Hlabel; [exact Hthrow | exact Hapi]).
Qed.

(** X16.  The language forms say ["Language saved"] and the user form
    says ["User created"] (and resets) exactly when the request was
    answered well; otherwise the handler ends with an error after at most
    that one request, and says nothing. *)
Theorem feedback_only_after_success env s :
  (forall inputId,
     let m := langSubmit env inputId in
     (result m s = Ok tt /\
      exists init, new_effects m s = [EFetch "/api/user_language" init;
                                      EAlert "Language saved"]) \/
     (exists e, result m s = Throw e /\
        (new_effects m s = [] \/
         exists init, new_effects m s = [EFetch "/api/user_language" init]))) /\
  (let m := addUserSubmit env in
   (result m s = Ok tt /\
    exists init, new_effects m s = [EFetch "/api/add_user" init; EAlert "User created";
                                    EDom "form.reset" []]) \/
   (exists e, result m s = Throw e /\
      (new_effects m s = [] \/
       exists init, new_effects m s = [EFetch "/api/add_user" init]))).
Proof.
  split.
  - intros inputId. cbv zeta.
    pose proof (after_api env "/api/user_language"
                  (POST (Some (JObj [("language", JStr (env_value env (tick s) inputId))])))
                  (alert "Language saved") [EAlert "Language saved"] s
                  (set_tick (S (tick s)) s) eq_refl (fun s1 => eq_refl)) as H.
    cbv zeta in H. unfold result, new_effects, run in *.
    unfold langSubmit, input_value. rewrite bind_ask. exact H.
  - cbv zeta.
    pose proof (after_api env "/api/add_user"
                  (POST (Some (JObj [("name", JStr (env_value env (tick s) "newName"));
                                     ("email", JStr (env_value env (S (tick s)) "newEmail"));
                                     ("password",
                                      JStr (env_value env (S (S (tick s))) "newPassword"));
                                     ("role",
                                      JStr (env_value env (S (S (S (tick s)))) "newRole"))])))
                  (alert "User created" ;;; dom "form.reset" [])
                  [EAlert "User created"; EDom "form.reset" []] s
                  (set_tick (S (S (S (S (tick s))))) s) eq_refl) as H.
    cbv zeta in H. unfold result, new_effects, run in *.
    unfold addUserSubmit, input_value. rewrite !bind_ask. store_simpl.
    replace (set_tick (S (S (S (S (tick s)))))
               (set_tick (S (S (S (tick s)))) (set_tick (S (S (tick s)))
                  (set_tick (S (tick s)) s))))
      with (set_tick (S (S (S (S (tick s))))) s) by (now destruct s).
    apply H. intros s1. unfold alert, dom. rewrite bind_emit. store_simpl.
    destruct s1; store_simpl. now rewrite <- app_assoc.
Qed.

(** *** The token, main.js:129-151 *)

(** X17.  [api] asks for a fresh token before every request.  With
    nobody signed in the request goes out with ['Bearer null'] and the
    cached token is left alone; with a user it goes out with the token
    just obtained, which is cached; and when the token cannot be
    obtained, [api] ends with that error without sending anything. *)
Theorem api_sends_the_fresh_token env path options s :
  match auth_currentUser s with
  | None =>
      new_effects (api env path options) s =
        [EFetch path (mkInit (opt_method options) (opt_body options) "Bearer null")] /\
      idToken (run (api env path options) s) = idToken s
  | Some _ =>
      match env_getIdToken env (tick s) with
      | Ok t =>
          new_effects (api env path options) s =
            [EFetch path (mkInit (opt_method options) (opt_body options) ("Bearer " +:+ t))] /\
          idToken (run (api env path options) s) = Some t
      | Throw e =>
          api env path options s = (Throw e, set_tick (S (tick s)) s)
      end
  end.
Proof.
  unfold new_effects, run. rewrite api_unfold. unfold api_request.
  destruct (auth_currentUser s); [destruct (env_getIdToken env (tick s))|];
    store_simpl; try reflexivity; (split; [apply skipn_length_app | reflexivity]).
Qed.

(** *** Today's alerts, main.js:351-360 *)

(** The line drawn for one alert: its label, else its name, else
    ['event']; its camera; its [conf], else its [confidence], else
    ['-']. *)
Definition alert_line (containerId : string) (i : JValue) : Effect :=
  EDom "li" [JStr containerId;
             nullish (nullish (prop i "label") (prop i "name")) (JStr "event");
             prop i "camera";
             nullish (nullish (prop i "conf") (prop i "confidence")) (JStr "-")].

Definition is_nullish (v : JValue) : bool :=
  match v with JUndefined | JNull => true | _ => false end.

Lemma forEach_lines containerId l : forall s,
  forallb (fun i => negb (is_nullish i)) l = true ->
  forEach l (fun i =>
    label <- getProp i "label" ;;
    dom "li" [JStr containerId;
              nullish (nullish label (prop i "name")) (JStr "event");
              prop i "camera";
              nullish (nullish (prop i "conf") (prop i "confidence")) (JStr "-")]) s =
  (Ok tt, set_trace (trace s ++ map (alert_line containerId) l) s).
Proof.
  induction l as [|i l IH]; intros s Hl; cbn [forEach map forallb] in *.
  - unfold ret. destruct s; store_simpl. now rewrite app_nil_r.
  - apply andb_true_iff in Hl as [Hi Hl].
    assert (Hone : (label <- getProp i "label" ;;
                    dom "li" [JStr containerId;
                              nullish (nullish label (prop i "name")) (JStr "event");
                              prop i "camera";
                              nullish (nullish (prop i "conf") (prop i "confidence"))
                                      (JStr "-")]) s =
                   (Ok tt, set_trace (trace s ++ [alert_line containerId i]) s)).
    { destruct i; try discriminate Hi; reflexivity. }
    rewrite (bind_ok _ _ _ _ _ Hone), IH by exact Hl.
    destruct s; store_simpl. now rewrite <- app_assoc.
Qed.

(** X18.  [renderAlertsToday] draws at most three alerts: the first
    three of the list, in order, after clearing the container.  A
    missing list ([null], [undefined]) only clears it.  A missing
    container means nothing is drawn at all. *)
Theorem at_most_three_alerts env containerId items s :
  (env_element env (tick s) containerId = false ->
   renderAlertsToday env containerId items s = (Ok tt, set_tick (S (tick s)) s)) /\
  (env_element env (tick s) containerId = true ->
   (truthy items = false ->
    result (renderAlertsToday env containerId items) s = Ok tt /\
    new_effects (renderAlertsToday env containerId items) s = [EDom "clear" [JStr containerId]]) /\
   (forall l, items = JArr l ->
      forallb (fun i => negb (is_nullish i)) (firstn 3 l) = true ->
      result (renderAlertsToday env containerId items) s = Ok tt /\
      new_effects (renderAlertsToday env containerId items) s =
        EDom "clear" [JStr containerId] :: map (alert_line containerId) (firstn 3 l) /\
      (length (map (alert_line containerId) (firstn 3 l)) <= 3)%nat)).
Proof.
  split.
  - intros H. unfold renderAlertsToday, getElementById. rewrite bind_ask, H. reflexivity.
  - intros H. split.
    + intros Hf. unfold result, new_effects, run, renderAlertsToday, getElementById.
      rewrite bind_ask, H. cbn [negb]. unfold dom at 1. rewrite bind_emit.
      unfold or_else. rewrite Hf. cbn [firstn forEach]. store_simpl.
      split; [reflexivity | apply skipn_length_app].
    + intros l -> Hl.
      assert (Hrun : renderAlertsToday env containerId (JArr l) s =
                     (Ok tt,
                      set_trace (trace s ++ EDom "clear" [JStr containerId]
                                   :: map (alert_line containerId) (firstn 3 l))
                        (set_tick (S (tick s)) s))).
      { unfold renderAlertsToday, getElementById.
        rewrite bind_ask, H. cbn [negb]. unfold dom at 1. rewrite bind_emit.
        cbn [or_else truthy]. rewrite forEach_lines by exact Hl.
        destruct s; store_simpl. now rewrite <- app_assoc. }
      unfold result, new_effects, run. rewrite Hrun. store_simpl.
      split; [reflexivity|]. split.
      * apply skipn_length_app.
      * rewrite length_map. apply firstn_le_length.
Qed.

(** Four alerts: one complete, one with a name only, one with neither
    label nor name, and a fourth. *)
Definition four_alerts : list JValue :=
  [JObj [("label", JStr "weapon"); ("camera", JNum 1); ("conf", JNum 90)];
   JObj [("name", JStr "mask"); ("camera", JNum 2)];
   JObj [("camera", JNum 3); ("confidence", JNum 50)];
   JObj [("label", JStr "fourth")]].

Lemma at_most_three_alerts_witness :
  new_effects (renderAlertsToday healthy "alertsToday" (JArr four_alerts)) (initial_store "") =
  [EDom "clear" [JStr "alertsToday"];
   EDom "li" [JStr "alertsToday"; JStr "weapon"; JNum 1; JNum 90];
   EDom "li" [JStr "alertsToday"; JStr "mask"; JNum 2; JStr "-"];
   EDom "li" [JStr "alertsToday"; JStr "event"; JNum 3; JNum 50]].
Proof.
  exact (proj1 (proj2 (proj2 (proj2 (at_most_three_alerts healthy "alertsToday"
                                       (JArr four_alerts) (initial_store "")) eq_refl)
                               four_alerts eq_refl eq_refl))).
Defined.

(** *** Pending detections, main.js:398-429 *)

(** A payload [renderPending] can draw: an object with an array of
    detections none of which is [null]. *)
Definition drawable (payload : JValue) : bool :=
  negb (is_nullish payload) &&
  match prop payload "detections" with
  | JArr ds => forallb (fun d => negb (is_nullish d)) ds
  | _ => false
  end.

Lemma forEach_labels ds : forall s,
  forEach ds (fun d => _ <- getProp d "label" ;; ret tt) s =
  (if forallb (fun d => negb (is_nullish d)) ds then Ok tt else Throw TypeError, s).
Proof.
  induction ds as [|d ds IH]; intros s; cbn [forEach forallb]; [reflexivity|].
  destruct d; cbn [is_nullish negb andb]; try reflexivity;
    unfold getProp; rewrite bind_assoc, !bind_ret; apply IH.
Qed.

(** X19.  [renderPending] adds an entry, and exactly one, when the list
    is on the page and the payload is an object whose [detections] is an
    array without [null]s; it then never fails.  In every other case the
    page is left as it was: without the list the call does nothing, and a
    malformed payload ends in an error before anything is drawn. *)
Theorem pending_entry_all_or_nothing env payload s :
  let m := renderPending env payload in
  let present := env_element env (tick s) "pendingList" in
  new_effects m s =
    (if present && drawable payload
     then [EDom "pending.prepend" [prop payload "time"; prop payload "camera";
                                   prop payload "detections"; prop payload "threatLevel"]]
     else []) /\
  result m s =
    (if negb present || drawable payload then Ok tt else Throw TypeError).
Proof.
  cbv zeta. unfold new_effects, result, run, drawable.
  script_run renderPending.
  destruct (env_element env (tick s) "pendingList"); cbn [negb andb orb]; script_simpl.
  2: { split; [|reflexivity].
       rewrite <- (app_nil_r (trace s)) at 2. apply skipn_length_app. }
  destruct payload as [| |b|n|str|l|fields]; cbn [is_nullish negb andb prop]; script_simpl;
    try (split; [rewrite <- (app_nil_r (trace s)) at 2; apply skipn_length_app
                | reflexivity]).
  destruct (assoc "detections" fields) as [| |b|n|str|ds|dfields]; script_simpl;
    try (split; [rewrite <- (app_nil_r (trace s)) at 2; apply skipn_length_app
                | reflexivity]).
  rewrite forEach_labels.
  destruct (forallb (fun d => negb (is_nullish d)) ds); script_simpl.
  - split; [apply skipn_length_app | reflexivity].
  - split; [rewrite <- (app_nil_r (trace s)) at 2; apply skipn_length_app | reflexivity].
Qed.

(** *** The poll of the live picture, main.js:260-274 *)

(** X20.  [checkAndSwap] assigns the picture's source only when the
    state changes: either it leaves source and flag alone and loads no
    picture, or the picture was not live and now shows the feed, or it
    was not on the placeholder and now is.  A picture that is already
    live is not reloaded by the poll. *)
Theorem poll_swaps_only_on_change env s :
  let s' := run (checkAndSwap env) s in
  (img_src s' = img_src s /\ img_live s' = img_live s /\
   forall src, ~ In (EImgSrc src) (new_effects (checkAndSwap env) s)) \/
  (live_is (img_live s) "1" = false /\ img_live s' = Some "1" /\
   url_path (img_src s') = "/api/video_feed") \/
  (live_is (img_live s) "0" = false /\ img_live s' = Some "0" /\
   img_src s' = PLACEHOLDER_SRC).
Proof.
  cbv zeta.
  pose proof (api_effects env "/api/status" GET s) as [Hst _].
  pose proof (api_sends env "/api/status" GET s) as Hs.
  unfold run in Hst.
  destruct (api env "/api/status" GET s) as [[data|e] s1] eqn:Ha; cbn [snd] in Hst.
  all: assert (Hsrc : img_src s1 = img_src s) by (unfold script_state in Hst; congruence).
  all: assert (Hlive : img_live s1 = img_live s) by (unfold script_state in Hst; congruence).
  2: { left. unfold new_effects, run. rewrite (checkAndSwap_on_failure env s e s1 Ha).
       unfold run, console_debug. store_simpl. repeat split; try assumption.
       intros src. destruct Hs as [Hs|[init Hs]]; rewrite Hs.
       - rewrite skipn_length_app. intros [H|[]]; discriminate H.
       - rewrite <- app_assoc, skipn_length_app. intros [H|[H|[]]]; discriminate H. }
  destruct Hs as [init Hs].
  assert (Hquiet : forall s2 : Store,
            img_src s2 = img_src s1 -> img_live s2 = img_live s1 ->
            (trace s2 = trace s1 \/ exists c, trace s2 = (trace s1 ++ [EConsole DebugLevel c])%list) ->
            img_src s2 = img_src s /\ img_live s2 = img_live s /\
            forall src, ~ In (EImgSrc src) (skipn (length (trace s)) (trace s2))).
  { intros s2 E1 E2 Ht. repeat split; [congruence | congruence |].
    intros src. destruct Ht as [Ht|[c Ht]]; rewrite Ht, Hs.
    - rewrite skipn_length_app. intros [H|[]]; discriminate H.
    - rewrite <- app_assoc, skipn_length_app. intros [H|[H|[]]]; discriminate H. }
  unfold new_effects, run, checkAndSwap, try_catch.
  rewrite (bind_ok _ _ _ _ _ Ha). unfold getProp.
  destruct data as [| |b|n|str|l|fields];
    try (left; apply Hquiet; [reflexivity | reflexivity | right; eexists; reflexivity]);
    rewrite bind_ret, bind_gets, Hlive.
  all: match goal with
       | |- context [gt0 ?a] => destruct (gt0 a)
       end; cbn [andb].
  all: try (destruct (live_is (img_live s) "1") eqn:E1; cbn [negb];
            [|right; left; unfold imgEl_src, imgEl_live; script_run LIVE_SRC;
              repeat split; reflexivity]).
  all: match goal with
       | |- context [eq0 ?a] => destruct (eq0 a)
       end; cbn [andb].
  all: try (destruct (live_is (img_live s) "0") eqn:E0; cbn [negb];
            [|right; right; unfold imgEl_live; script_run imgEl_src;
              repeat split; reflexivity]).
  all: left; apply Hquiet; [reflexivity | reflexivity | left; reflexivity].
Qed.

(** *** Signing in, main.js:170-188 *)

(** What only an admin's sign-in does: writing and guarding a presence
    flag, and asking to start the cameras. *)
Definition admin_only (e : Effect) : bool :=
  match e with
  | ERtdbSet _ _ | ERtdbOnDisconnectRemove _ => true
  | EFetch path _ => String.eqb path "/api/start_cameras"
  | _ => false
  end.

(** The trace has grown from [base] by effects that are not [admin_only],
    and the presence ref is [p]. *)
Definition plain_since (base : list Effect) (p : option string) (s : Store) : Prop :=
  adminPresenceRef s = p /\
  exists l, trace s = (base ++ l)%list /\ forallb (fun e => negb (admin_only e)) l = true.

Ltac plain_update :=
  let s := fresh "s" in let l := fresh "l" in
  let Hp := fresh "Hp" in let Ht := fresh "Ht" in let Hl := fresh "Hl" in
  intros s (Hp & l & Ht & Hl); unfold plain_since; store_simpl;
  (split; [exact Hp|]);
  first [ exists l; split; [exact Ht | exact Hl]
        | rewrite Ht, <- app_assoc; eexists; split; [reflexivity|];
          rewrite forallb_app, Hl; reflexivity ].

Lemma plain_after_sign_in env base p :
  preserves (plain_since base p)
    (setSidebarVisible env true ;;; setMenuToggleVisible env true ;;; no_await (route env)).
Proof. repeat preserves_step plain_update. Qed.

Lemma resolveRole_ok env uid s record :
  env_rtdb_get env (tick s) ("/users/" +:+ uid) = Ok record ->
  resolveRole env uid s =
  (Ok (or_else (prop (or_else record (JObj [])) "role") (JStr "personnel")),
   set_tick (S (tick s)) (set_trace (trace s ++ [ERtdbGet ("/users/" +:+ uid)]) s)).
Proof.
  intros H. unfold resolveRole, rtdb_get, bind, await. store_simpl. now rewrite H.
Qed.

(** X21.  For a user whose role is not ['admin'] the listener writes no
    presence flag, registers no disconnect guard, leaves the presence ref
    alone and does not ask to start the cameras, whatever page it goes
    on to render. *)
Theorem sign_in_without_admin_duties env u s record :
  env_rtdb_get env (tick s) ("/users/" +:+ uid u) = Ok record ->
  is_str (or_else (prop (or_else record (JObj [])) "role") (JStr "personnel")) "admin" = false ->
  let s' := run (onAuthStateChanged env (Some u)) s in
  adminPresenceRef s' = adminPresenceRef s /\
  forall e, In e (new_effects (onAuthStateChanged env (Some u)) s) -> admin_only e = false.
Proof.
  intros Hget Hrole. cbv zeta.
  set (role := or_else (prop (or_else record (JObj [])) "role") (JStr "personnel")) in *.
  set (s2 := set_currentRole role
               (set_tick (S (tick s))
                  (set_trace (trace s ++ [ERtdbGet ("/users/" +:+ uid u)])
                     (set_currentUser (Some u) s)))).
  assert (Hrun : onAuthStateChanged env (Some u) s =
                 (setSidebarVisible env true ;;; setMenuToggleVisible env true ;;;
                  no_await (route env)) s2).
  { cbn [onAuthStateChanged]. rewrite bind_modify.
    rewrite (bind_ok _ _ _ _ _
               (resolveRole_ok env (uid u) (set_currentUser (Some u) s) record Hget)).
    fold role. rewrite bind_modify, Hrole, bind_ret. reflexivity. }
  pose proof (plain_after_sign_in env (trace s2) (adminPresenceRef s) s2) as H.
  unfold new_effects, run in *. rewrite Hrun.
  destruct H as (Hp & l & Ht & Hl).
  { split; [reflexivity|]. exists []. split; [now rewrite app_nil_r | reflexivity]. }
  split; [exact Hp|]. intros e. rewrite Ht. unfold s2. store_simpl.
  rewrite <- app_assoc, skipn_length_app. intros [<-|Hin]; [reflexivity|].
  rewrite forallb_forall in Hl. specialize (Hl e Hin). now destruct (admin_only e).
Qed.

Lemma sign_in_without_admin_duties_witness :
  adminPresenceRef (run (onAuthStateChanged healthy (Some (mkUser "bob" "bob@example.org")))
                        (initial_store "#/personnel/dashboard")) = None.
Proof.
  exact (proj1 (sign_in_without_admin_duties healthy (mkUser "bob" "bob@example.org")
                  (initial_store "#/personnel/dashboard") JNull eq_refl eq_refl)).
Defined.

(** X22.  When an admin signs in and the presence flag cannot be
    written, the listener ends with that error: the cameras are not
    asked to start and nothing is rendered, although the role and the
    presence ref have already been recorded. *)
Theorem presence_failure_stops_admin_sign_in env u s record e :
  env_rtdb_get env (tick s) ("/users/" +:+ uid u) = Ok record ->
  is_str (or_else (prop (or_else record (JObj [])) "role") (JStr "personnel")) "admin" = true ->
  env_rtdb_set env (S (tick s)) ("/activeAdmins/" +:+ uid u) = Throw e ->
  let s' := run (onAuthStateChanged env (Some u)) s in
  result (onAuthStateChanged env (Some u)) s = Throw e /\
  currentRole s' = JStr "admin" /\
  adminPresenceRef s' = Some ("/activeAdmins/" +:+ uid u) /\
  new_effects (onAuthStateChanged env (Some u)) s =
    [ERtdbGet ("/users/" +:+ uid u); ERtdbSet ("/activeAdmins/" +:+ uid u) (JBool true)].
Proof.
  intros Hget Hrole Hset. cbv zeta.
  pose proof (is_str_eq _ _ Hrole) as Hr.
  assert (Hrun : exists s', onAuthStateChanged env (Some u) s = (Throw e, s') /\
            currentRole s' = JStr "admin" /\
            adminPresenceRef s' = Some ("/activeAdmins/" +:+ uid u) /\
            trace s' = (trace s ++ [ERtdbGet ("/users/" +:+ uid u);
                                    ERtdbSet ("/activeAdmins/" +:+ uid u) (JBool true)])%list).
  { cbn [onAuthStateChanged]. rewrite bind_modify.
    rewrite (bind_ok _ _ _ _ _
               (resolveRole_ok env (uid u) (set_currentUser (Some u) s) record Hget)).
    rewrite Hr, bind_modify. cbn [is_str]. rewrite String.eqb_refl.
    rewrite !bind_assoc, bind_modify. unfold rtdb_set.
    rewrite !bind_assoc, bind_emit. unfold bind, await. store_simpl.
    rewrite Hset. eexists. split; [reflexivity|]. store_simpl.
    repeat split. now rewrite <- app_assoc. }
  destruct Hrun as (s' & Hrun & Hc & Hp & Ht).
  unfold result, new_effects, run. rewrite Hrun. cbn [fst snd].
  repeat split; try assumption. rewrite Ht. apply skipn_length_app.
Qed.

(** A world in which Alice is an admin but presence flags cannot be
    written. *)
Definition presence_refused : Env :=
  mkEnv true true true true [] (fun _ _ => true) (fun _ id => id)
        (fun _ => 0) (fun _ => None) (fun _ => Ok "token")
        (fun _ path _ => server_says status_record path)
        (fun _ path => Ok (alice_is_admin path))
        (fun _ _ => Throw (Err "PERMISSION_DENIED")) (fun _ _ => Ok tt) (fun _ _ _ => Ok tt)
        (fun _ => Ok tt) (fun _ => Ok tt)
        (fun _ => Ok tt) (fun _ => Ok tt) (fun _ => false) (fun _ => "").

Lemma presence_failure_stops_admin_sign_in_witness :
  new_effects (onAuthStateChanged presence_refused (Some alice))
              (initial_store "#/admin/dashboard") =
  [ERtdbGet "/users/alice"; ERtdbSet "/activeAdmins/alice" (JBool true)].
Proof.
  exact (proj2 (proj2 (proj2 (presence_failure_stops_admin_sign_in presence_refused alice
                                (initial_store "#/admin/dashboard")
                                (JObj [("role", JStr "admin")]) (Err "PERMISSION_DENIED")
                                eq_refl eq_refl eq_refl)))).
Defined.

(** *** Lists drawn from a record, main.js:431-459 *)

Lemma forEach_emits {A} (f : A -> M unit) (g : A -> Effect) (l : list A) : forall s,
  (forall x s0, In x l -> f x s0 = (Ok tt, set_trace (trace s0 ++ [g x]) s0)) ->
  forEach l f s = (Ok tt, set_trace (trace s ++ map g l) s).
Proof.
  induction l as [|x l IH]; intros s Hf; cbn [forEach map].
  - unfold ret. destruct s; store_simpl. now rewrite app_nil_r.
  - rewrite (bind_ok _ _ _ _ _ (Hf x s (or_introl eq_refl))).
    rewrite IH by (intros; apply Hf; now right).
    destruct s; store_simpl. now rewrite <- app_assoc.
Qed.

(** The row drawn for one detection; the time is kept as stored, its
    formatting is the browser's. *)
Definition activity_row (r : JValue) : Effect :=
  EDom "tr" [prop r "name"; prop r "time"; prop r "camera"; prop r "threatLevel";
             prop r "status"].

(** X23.  The activity page reads [/detections] once and draws one row
    per stored detection, in the order of the record.  With nothing
    stored the table is only cleared: an empty database is not an
    error. *)
Theorem activity_table_follows_database env s snap :
  env_rtdb_get env (tick s) "/detections" = Ok snap ->
  env_element env (S (tick s)) "activityTable tbody" = true ->
  forallb (fun r => negb (is_nullish r)) (values (or_else snap (JObj []))) = true ->
  result (renderAdminActivity env) s = Ok tt /\
  new_effects (renderAdminActivity env) s =
    ERender "adminActivityTpl" :: ERtdbGet "/detections" ::
    EDom "clear" [JStr "activityTable tbody"] ::
    map activity_row (values (or_else snap (JObj []))).
Proof.
  intros Hget Hel Hrows.
  assert (Hrun : renderAdminActivity env s =
            (Ok tt,
             set_trace (trace s ++ ERender "adminActivityTpl" :: ERtdbGet "/detections" ::
                          EDom "clear" [JStr "activityTable tbody"] ::
                          map activity_row (values (or_else snap (JObj []))))
               (set_tick (S (S (tick s))) s))).
  { unfold renderAdminActivity, rtdb_get, getElementById.
    rewrite bind_emit, bind_assoc, bind_emit. unfold bind at 1. unfold await at 1.
    store_simpl. rewrite Hget. rewrite bind_ask. store_simpl. rewrite Hel. cbn [negb].
    unfold dom at 1. rewrite bind_emit.
    rewrite (forEach_emits _ activity_row).
    - destruct s; store_simpl. now rewrite <- !app_assoc.
    - intros r s0 Hin. rewrite forallb_forall in Hrows. specialize (Hrows r Hin).
      destruct r; try discriminate Hrows; reflexivity. }
  unfold result, new_effects, run. rewrite Hrun. store_simpl.
  split; [reflexivity | apply skipn_length_app].
Qed.

Lemma activity_table_follows_database_witness :
  new_effects (renderAdminActivity healthy) (initial_store "") =
  [ERender "adminActivityTpl"; ERtdbGet "/detections";
   EDom "clear" [JStr "activityTable tbody"]].
Proof.
  exact (proj2 (activity_table_follows_database healthy (initial_store "") JNull
                  eq_refl eq_refl eq_refl)).
Defined.

(** *** Stopping the cameras, main.js:190-213 *)

(** The trace has grown from [base] by effects that satisfy [Q]. *)
Definition only_since (Q : Effect -> bool) (base : list Effect) (s : Store) : Prop :=
  exists l, trace s = (base ++ l)%list /\ forallb Q l = true.

Ltac only_update :=
  let s := fresh "s" in let l := fresh "l" in
  let Ht := fresh "Ht" in let Hl := fresh "Hl" in
  intros s (l & Ht & Hl); unfold only_since; store_simpl;
  first [ exists l; split; [exact Ht | exact Hl]
        | rewrite Ht, <- app_assoc; eexists; split; [reflexivity|];
          rewrite forallb_app, Hl; reflexivity ].

Lemma only_since_refl Q s : only_since Q (trace s) s.
Proof. exists []. split; [now rewrite app_nil_r | reflexivity]. Qed.

Lemma only_since_new Q s s' e :
  only_since Q (trace s) s' -> In e (skipn (length (trace s)) (trace s')) -> Q e = true.
Proof.
  intros (l & Ht & Hl) Hin. rewrite Ht, skipn_length_app in Hin.
  rewrite forallb_forall in Hl. auto.
Qed.

Definition not_stop_request (e : Effect) : bool :=
  match e with
  | EFetch path _ => negb (String.eqb path "/api/stop_cameras")
  | _ => true
  end.

Definition sign_out_or_styling (e : Effect) : bool :=
  match e with
  | ESignOut | EDom _ _ => true
  | _ => false
  end.

(** What [logoutClick] does after its admin duties. *)
Definition logout_tail (env : Env) : M unit :=
  emit ESignOut ;;;
  await (env_signOut env) ;;;
  setMenuToggleVisible env false ;;;
  dom "sidebar.open" [JBool false] ;;;
  (if menuToggleBtn env then dom "menuToggle.open" [JBool false] else ret tt).

Lemma logout_tail_styling env base : preserves (only_since sign_out_or_styling base) (logout_tail env).
Proof. repeat preserves_step only_update. Qed.

Lemma logout_tail_no_stop env base : preserves (only_since not_stop_request base) (logout_tail env).
Proof. repeat preserves_step only_update. Qed.

Lemma removePresence_no_stop env base :
  preserves (only_since not_stop_request base) (removePresence env).
Proof. repeat preserves_step only_update. Qed.

(** What [removePresence] adds to the trace when it ends well. *)
Definition presence_removal (s : Store) : list Effect :=
  match adminPresenceRef s with
  | Some p => [ERtdbRemove p]
  | None => []
  end.

Lemma removePresence_done env s s1 :
  removePresence env s = (Ok tt, s1) -> trace s1 = (trace s ++ presence_removal s)%list.
Proof.
  unfold presence_removal, removePresence, rtdb_remove. rewrite bind_gets.
  destruct (adminPresenceRef s) as [p|].
  - rewrite !bind_assoc, bind_emit. unfold bind, await. store_simpl.
    destruct (env_rtdb_remove env (tick s) p) as [[]|e]; intros H; inversion H; reflexivity.
  - unfold ret. intros H. inversion H. now rewrite app_nil_r.
Qed.

(** [stopCameras] never fails: it adds its request, unless the token
    service refused, and one line on the console. *)
Lemma stopCameras_run env s :
  exists s1 l,
    stopCameras env s = (Ok tt, s1) /\ trace s1 = (trace s ++ l)%list /\
    ((exists c, l = [c] /\ surfaces c = true) \/
     (exists init c, l = [EFetch "/api/stop_cameras" init; c] /\ surfaces c = true)).
Proof.
  pose proof (api_sends env "/api/stop_cameras" (POST None) s) as Hs.
  destruct (api env "/api/stop_cameras" (POST None) s) as [[v|e] s1] eqn:Hapi.
  - destruct Hs as [init Hs]. eexists; eexists. split; [|split].
    + unfold stopCameras. apply try_catch_ok. rewrite (bind_ok _ _ _ _ _ Hapi).
      unfold console_log. store_simpl. reflexivity.
    + store_simpl. rewrite Hs, <- app_assoc. reflexivity.
    + right. eexists; eexists. split; reflexivity.
  - rewrite (stopCameras_on_failure env s e s1 Hapi).
    unfold run, console_error. store_simpl.
    destruct Hs as [Hs|[init Hs]]; eexists; eexists; (split; [reflexivity|]); store_simpl;
      rewrite Hs.
    + split; [reflexivity|]. left. eexists. split; reflexivity.
    + split; [now rewrite <- app_assoc|]. right. eexists; eexists. split; reflexivity.
Qed.

(** X24.  Logging out asks the server to stop the cameras only for an
    admin, and only when the handler's own read of the presence list,
    made after the admin's flag was removed, came back empty: the click
    then removes the flag, reads [/activeAdmins] at the tick that follows
    the removal, sends the request, and after it only writes to the
    console, signs out and tidies the menu.  For anyone else the click
    makes no request and does not touch the database: it signs out and
    tidies the menu. *)
Theorem cameras_stopped_by_last_admin env s :
  (is_str (currentRole s) "admin" = false ->
   forall e, In e (new_effects (logoutClick env) s) -> sign_out_or_styling e = true) /\
  (forall init, In (EFetch "/api/stop_cameras" init) (new_effects (logoutClick env) s) ->
     is_str (currentRole s) "admin" = true /\
     result (removePresence env) s = Ok tt /\
     exists v rest,
       env_rtdb_get env (tick (run (removePresence env) s)) "/activeAdmins" = Ok v /\
       snap_exists v = false /\
       new_effects (logoutClick env) s =
         (presence_removal s ++
          ERtdbGet "/activeAdmins" :: EFetch "/api/stop_cameras" init :: rest)%list /\
       forallb (fun e => surfaces e || sign_out_or_styling e) rest = true).
Proof.
  assert (Hplain : is_str (currentRole s) "admin" = false ->
                   logoutClick env s = logout_tail env s).
  { intros Hr. unfold logoutClick. rewrite bind_gets, Hr, bind_ret. reflexivity. }
  split.
  - intros Hr e. unfold new_effects, run. rewrite (Hplain Hr).
    apply only_since_new. apply logout_tail_styling, only_since_refl.
  - intros init Hin.
    assert (Hno : forall s1, only_since not_stop_request (trace s) s1 ->
                    logoutClick env s = logout_tail env s1 -> False).
    { intros s1 Hs1 Hrun. unfold new_effects, run in Hin. rewrite Hrun in Hin.
      pose proof (only_since_new _ _ _ _ (logout_tail_no_stop env _ s1 Hs1) Hin) as Hq.
      discriminate Hq. }
    destruct (is_str (currentRole s) "admin") eqn:Hr.
    2: { destruct (Hno s (only_since_refl _ s) (Hplain eq_refl)). }
    split; [reflexivity|].
    assert (Hadmin : forall s1,
              try_catch
                (removePresence env ;;;
                 snap <- rtdb_get env "/activeAdmins" ;;
                 if negb (snap_exists snap) then stopCameras env else ret tt)
                (fun _ => ret tt) s = (Ok tt, s1) ->
              logoutClick env s = logout_tail env s1).
    { intros s1 H. unfold logoutClick. rewrite bind_gets, Hr.
      rewrite (bind_ok _ _ _ _ _ H). reflexivity. }
    pose proof (removePresence_no_stop env (trace s) s (only_since_refl _ s)) as H1.
    unfold result, run in H1 |- *.
    destruct (removePresence env s) as [[[]|e1] s1] eqn:Hrm; cbn [fst snd] in H1 |- *.
    2: { destruct (Hno s1 H1). apply Hadmin.
         now rewrite (try_catch_throw _ _ _ _ _ (bind_throw _ _ _ _ _ Hrm)). }
    split; [reflexivity|].
    pose proof (removePresence_done env s s1 Hrm) as Ht1.
    set (s2 := set_tick (S (tick s1)) (set_trace (trace s1 ++ [ERtdbGet "/activeAdmins"]) s1)).
    assert (H2 : only_since not_stop_request (trace s) s2).
    { destruct H1 as (l & Ht & Hl). exists (l ++ [ERtdbGet "/activeAdmins"])%list.
      unfold s2. store_simpl. rewrite Ht, <- app_assoc.
      split; [reflexivity | now rewrite forallb_app, Hl]. }
    destruct (env_rtdb_get env (tick s1) "/activeAdmins") as [v|e2] eqn:Hget.
    + destruct (snap_exists v) eqn:Hv.
      * destruct (Hno s2 H2). apply Hadmin.
        apply try_catch_ok. rewrite (bind_ok _ _ _ _ _ Hrm).
        unfold rtdb_get. rewrite bind_assoc, bind_emit. unfold bind, await. store_simpl.
        now rewrite Hget, Hv.
      * destruct (stopCameras_run env s2) as (s3 & l & Hstop & Hl & Hcase).
        assert (Hrun : logoutClick env s = logout_tail env s3).
        { apply Hadmin. apply try_catch_ok. rewrite (bind_ok _ _ _ _ _ Hrm).
          unfold rtdb_get. rewrite bind_assoc, bind_emit. unfold bind, await. store_simpl.
          rewrite Hget, Hv. exact Hstop. }
        destruct (logout_tail_styling env (trace s3) s3 (only_since_refl _ s3))
          as (lt & Hlt & Hsty).
        assert (Hnew : new_effects (logoutClick env) s =
                       (presence_removal s ++ ERtdbGet "/activeAdmins" :: l ++ lt)%list).
        { apply new_effects_app. unfold run. rewrite Hrun.
          fold (run (logout_tail env) s3). rewrite Hlt, Hl. unfold s2. store_simpl.
          rewrite Ht1, <- !app_assoc. reflexivity. }
        rewrite Hnew in Hin. rewrite Hnew.
        apply in_app_or in Hin as [Hin|Hin].
        { unfold presence_removal in Hin.
          destruct (adminPresenceRef s); [destruct Hin as [Hin|[]]; discriminate Hin|destruct Hin]. }
        destruct Hin as [Hin|Hin]; [discriminate Hin|].
        apply in_app_or in Hin as [Hin|Hin].
        2: { rewrite forallb_forall in Hsty. specialize (Hsty _ Hin). discriminate Hsty. }
        destruct Hcase as [(c & Hc & Hsurf)|(init' & c & Hc & Hsurf)]; subst l.
        { destruct Hin as [Hin|[]]. subst c. discriminate Hsurf. }
        destruct Hin as [Hin|[Hin|[]]]; [|subst c; discriminate Hsurf].
        inversion Hin; subst init'.
        exists v, (c :: lt).
        split; [reflexivity|]. split; [exact Hv|]. split; [reflexivity|].
        cbn [forallb]. rewrite Hsurf. cbn [orb andb].
        apply forallb_forall. intros e He. rewrite forallb_forall in Hsty.
        rewrite (Hsty e He). apply orb_true_r.
    + destruct (Hno s2 H2). apply Hadmin.
      erewrite try_catch_throw; [reflexivity|].
      rewrite (bind_ok _ _ _ _ _ Hrm). apply bind_throw.
      unfold rtdb_get. rewrite bind_emit. unfold await. store_simpl. now rewrite Hget.
Qed.

Lemma cameras_stopped_by_last_admin_witness :
  is_str (currentRole admin_session) "admin" = true /\
  result (removePresence healthy) admin_session = Ok tt /\
  exists v rest,
    env_rtdb_get healthy (tick (run (removePresence healthy) admin_session)) "/activeAdmins"
      = Ok v /\
    snap_exists v = false /\
    new_effects (logoutClick healthy) admin_session =
      (presence_removal admin_session ++
       ERtdbGet "/activeAdmins" ::
       EFetch "/api/stop_cameras" (mkInit (Some "POST") None "Bearer token") :: rest)%list /\
    forallb (fun e => surfaces e || sign_out_or_styling e) rest = true.
Proof.
  refine (proj2 (cameras_stopped_by_last_admin healthy admin_session)
                   (mkInit (Some "POST") None "Bearer token") _).
  in_list.
Defined.
